(** * Statement parsers of the budget application (src/parsers.py)

    A shallow embedding of the statement-parsing engine: the amount and
    date normalizers of [StatementParser], the four institution strategies
    ([ChaseParser], [AmexParser], [TruistParser], [GenericParser]) and the
    selector [StatementParserFactory]; and, of the upload route
    (src/app.py), the check of the file name and the income flag.

    Conventions of the model.
    - Text is a list of 8-bit characters, read as the code points U+0000
      to U+00FF.  The character classes of Python ([\d], [\w], [\s],
      [str.lower], [str.strip], IGNORECASE) are those of Python on these
      code points; a text with a code point above U+00FF is outside the
      model.
    - A Python [float] is a binary64 value, modelled by [spec_float] with
      [prec = 53] and [emax = 1024]; [float(str)] rounds the decimal text
      to the nearest binary64 value, ties to even.
    - A [datetime] is a calendar date; every datetime the parsers build has
      its time of day at midnight, which is left out.  A year handed to
      [datetime] is within the range of a C [int].  [strftime] prints a
      year as the C library of Linux does, without leading zeros.
    - Exceptions are explicit: a computation returns [Ret v] or [Raise e].
    - A PDF is what [pdfplumber] yields for it: either opening it fails, or
      it is a list of pages whose [extract_text()] returns text, nothing,
      or fails.  [datetime.now().year] is the parameter [now_year]. *)

From Stdlib Require Import Ascii String List ZArith Lia Bool Arith.
From Stdlib Require Import Floats.SpecFloat.
Import ListNotations.

Set Implicit Arguments.

(** Python [str], as a list of characters; string literals are read as
    such lists. *)
Definition str := list ascii.
Coercion list_ascii_of_string : string >-> list.

Open Scope string_scope.
Open Scope list_scope.

(** ** Strings *)

Module Str.

Definition code (c : ascii) : N := N_of_ascii c.

Definition between (lo hi c : ascii) : bool :=
  (code lo <=? code c)%N && (code c <=? code hi)%N.

(** [str.isspace], which is also [\s] and what [str.strip] removes:
    TAB..CR, FS..US, SPACE, NEL (U+0085) and NBSP (U+00A0). *)
Definition is_space (c : ascii) : bool :=
  ((9 <=? code c)%N && (code c <=? 13)%N)
  || ((28 <=? code c)%N && (code c <=? 32)%N)
  || (code c =? 133)%N || (code c =? 160)%N.

(** [\d]: the decimal digits; the alphabet has no other. *)
Definition is_digit (c : ascii) : bool := between "0" "9" c.

(** The letters with a lower-case, or an upper-case, counterpart in the
    alphabet: A..Z and U+00C0..U+00DE but the multiplication sign; a..z
    and U+00E0..U+00FE but the division sign. *)
Definition is_upper (c : ascii) : bool :=
  between "A" "Z" c
  || ((192 <=? code c)%N && (code c <=? 222)%N && negb (code c =? 215)%N).
Definition is_lower (c : ascii) : bool :=
  between "a" "z" c
  || ((224 <=? code c)%N && (code c <=? 254)%N && negb (code c =? 247)%N).

(** [\w]: the underscore and what [str.isalnum] takes: the digits, the
    letters, and among U+0080..U+00FF the ordinal indicators, the micro
    sign, the superscript digits, the vulgar fractions and the letters
    U+00C0..U+00FF but the multiplication and division signs. *)
Definition is_word (c : ascii) : bool :=
  is_digit c || between "A" "Z" c || between "a" "z" c || Ascii.eqb c "_"
  || (code c =? 170)%N || (code c =? 178)%N || (code c =? 179)%N
  || (code c =? 181)%N || (code c =? 185)%N || (code c =? 186)%N
  || ((188 <=? code c)%N && (code c <=? 190)%N)
  || ((192 <=? code c)%N && negb (code c =? 215)%N && negb (code c =? 247)%N).

(** The lower case of a character, and its upper case when that is in
    the alphabet; the micro sign, the sharp s and the y with diaeresis
    have none there. *)
Definition lower_char (c : ascii) : ascii :=
  if is_upper c then ascii_of_N (code c + 32) else c.

Definition upper_char (c : ascii) : ascii :=
  if is_lower c then ascii_of_N (code c - 32) else c.

(** [s.lower()] *)
Definition lower (s : str) : str := map lower_char s.

Fixpoint eqb (a b : str) : bool :=
  match a, b with
  | [], [] => true
  | x :: a', y :: b' => Ascii.eqb x y && eqb a' b'
  | _, _ => false
  end.

(** [s.startswith(p)] *)
Fixpoint startswith (p s : str) : bool :=
  match p, s with
  | [], _ => true
  | x :: p', y :: s' => Ascii.eqb x y && startswith p' s'
  | _ :: _, [] => false
  end.

(** [s.endswith(p)] *)
Definition endswith (p s : str) : bool := startswith (rev p) (rev s).

(** [sub in s] *)
Fixpoint contains (sub s : str) : bool :=
  startswith sub s
  || match s with
     | [] => false
     | _ :: s' => contains sub s'
     end.

Fixpoint lstrip (s : str) : str :=
  match s with
  | c :: s' => if is_space c then lstrip s' else s
  | [] => []
  end.

Definition rstrip (s : str) : str := rev (lstrip (rev s)).

(** [s.strip()] *)
Definition strip (s : str) : str := rstrip (lstrip s).

(** [s[i:]] and [s[:-j]] for [j > 0], [s[-j:]] *)
Definition drop_last (j : nat) (s : str) : str := firstn (length s - j) s.
Definition last_n (j : nat) (s : str) : str := skipn (length s - j) s.

(** [any(kw in s for kw in kws)] *)
Definition any_in (kws : list str) (s : str) : bool :=
  existsb (fun kw => contains kw s) kws.

(** [int(s)] on a string of decimal digits (other characters count 0;
    the callers pass digit strings, possibly with a leading blank). *)
Definition digit_val (c : ascii) : Z :=
  if is_digit c then Z.of_N (code c - 48) else 0%Z.

Definition int_of_digits (s : str) : Z :=
  fold_left (fun acc c => (10 * acc + digit_val c)%Z) s 0%Z.

End Str.

(** ** Regular expressions: the fragment of Python's [re] the parsers use

    A backtracking matcher in continuation-passing style, with Python's
    priorities: alternatives left to right, greedy quantifiers longest
    first, lazy ones shortest first.  Every quantified item of the
    program's patterns is a single-character class, or an optional group. *)

Module Re.

(** Single-character patterns. *)
Inductive cset : Type :=
| CChar (c : ascii)            (* a literal character *)
| CRange (lo hi : ascii)       (* [lo-hi] *)
| CDigit                       (* \d *)
| CWord                        (* \w *)
| CSpace                       (* \s *)
| CDot                         (* . : anything but a newline *)
| CUnion (a b : cset).         (* [ab] *)

Record flags : Type := { IGNORECASE : bool; MULTILINE : bool }.

Definition no_flags : flags := {| IGNORECASE := false; MULTILINE := false |}.
Definition ignorecase : flags := {| IGNORECASE := true; MULTILINE := false |}.
Definition multiline : flags := {| IGNORECASE := false; MULTILINE := true |}.

Definition newline : ascii := "010"%char.

Fixpoint cset_mem (ic : bool) (cs : cset) (c : ascii) : bool :=
  match cs with
  | CChar x =>
      if ic then Ascii.eqb (Str.lower_char c) (Str.lower_char x)
      else Ascii.eqb c x
  | CRange lo hi =>
      Str.between lo hi c
      || (ic && (Str.between lo hi (Str.lower_char c)
                 || Str.between lo hi (Str.upper_char c)))
  | CDigit => Str.is_digit c
  | CWord => Str.is_word c
  | CSpace => Str.is_space c
  | CDot => negb (Ascii.eqb c newline)
  | CUnion a b => cset_mem ic a c || cset_mem ic b c
  end.

Inductive regex : Type :=
| Empty
| One (cs : cset)
| Cat (r1 r2 : regex)
| Or (r1 r2 : regex)                                   (* r1|r2 *)
| Repeat (cs : cset) (lo : nat) (hi : option nat) (greedy : bool)
                                                       (* cs{lo,hi}, cs{lo,hi}? *)
| Maybe (r : regex)                                    (* (?:r)? *)
| Group (n : nat) (r : regex)                          (* the n-th (...) *)
| Eol.                                                 (* $ *)

(** Groups 1, 2, ... of a match; [None] for a group that took no part. *)
Definition captures := list (option str).

Fixpoint set_nth (A : Type) (n : nat) (v : A) (l : list A) : list A :=
  match n, l with
  | O, _ :: t => v :: t
  | S n', x :: t => x :: set_nth n' v t
  | _, [] => []
  end.

Definition set_group (n : nat) (w : str) (caps : captures) : captures :=
  match n with
  | O => caps
  | S i => set_nth i (Some w) caps
  end.

Definition get_group (n : nat) (caps : captures) : option str :=
  match n with
  | O => None
  | S i =>
      match nth_error caps i with
      | Some (Some w) => Some w
      | _ => None
      end
  end.

(** The text consumed between the input [s] and its suffix [s']. *)
Definition consumed (s s' : str) : str := firstn (length s - length s') s.

Definition at_eol (fl : flags) (s : str) : bool :=
  match s with
  | [] => true
  | c :: s' =>
      Ascii.eqb c newline
      && (MULTILINE fl || match s' with [] => true | _ => false end)
  end.

Definition may_take (hi : option nat) : bool :=
  match hi with
  | Some O => false
  | _ => true
  end.

Definition dec (hi : option nat) : option nat := option_map pred hi.

Section Matcher.
Variable R : Type.
Variable fl : flags.

Fixpoint rep (cs : cset) (lo : nat) (hi : option nat) (greedy : bool)
         (s : str) (k : str -> option R) {struct s} : option R :=
  if greedy then
    match
      match s with
      | c :: s' =>
          if may_take hi && cset_mem (IGNORECASE fl) cs c
          then rep cs (pred lo) (dec hi) greedy s' k
          else None
      | [] => None
      end
    with
    | Some x => Some x
    | None => match lo with O => k s | S _ => None end
    end
  else
    match match lo with O => k s | S _ => None end with
    | Some x => Some x
    | None =>
        match s with
        | c :: s' =>
            if may_take hi && cset_mem (IGNORECASE fl) cs c
            then rep cs (pred lo) (dec hi) greedy s' k
            else None
        | [] => None
        end
    end.

Fixpoint rmatch (r : regex) (s : str) (caps : captures)
         (k : str -> captures -> option R) {struct r} : option R :=
  match r with
  | Empty => k s caps
  | One cs =>
      match s with
      | c :: s' => if cset_mem (IGNORECASE fl) cs c then k s' caps else None
      | [] => None
      end
  | Cat r1 r2 => rmatch r1 s caps (fun s1 c1 => rmatch r2 s1 c1 k)
  | Or r1 r2 =>
      match rmatch r1 s caps k with
      | Some x => Some x
      | None => rmatch r2 s caps k
      end
  | Repeat cs lo hi greedy => rep cs lo hi greedy s (fun s' => k s' caps)
  | Maybe r1 =>
      match rmatch r1 s caps k with
      | Some x => Some x
      | None => k s caps
      end
  | Group n r1 =>
      rmatch r1 s caps (fun s' c' => k s' (set_group n (consumed s s') c'))
  | Eol => if at_eol fl s then k s caps else None
  end.
End Matcher.

(** A match object: [group(0)], the groups, and the text after the match. *)
Record Match : Type :=
  { group0 : str; groups : captures; rest : str }.

(** [m.group(n)] for [n >= 1] *)
Definition group (m : Match) (n : nat) : option str := get_group n (groups m).

(** A compiled pattern. *)
Record pattern : Type :=
  { p_flags : flags; p_regex : regex; p_groups : nat }.

(** [p.match(s)]: a match that starts at the beginning of [s]. *)
Definition match_at (p : pattern) (s : str) : option Match :=
  rmatch (p_flags p) (p_regex p) s (repeat None (p_groups p))
    (fun s' c => Some {| group0 := consumed s s'; groups := c; rest := s' |}).

(** [p.search(s)]: the leftmost match. *)
Fixpoint search (p : pattern) (s : str) : option Match :=
  match match_at p s with
  | Some m => Some m
  | None =>
      match s with
      | [] => None
      | _ :: s' => search p s'
      end
  end.

(** [p.finditer(s)]: the matches from left to right, none overlapping.
    [skip] counts the characters of the last match still to step over. *)
Fixpoint finditer_from (p : pattern) (skip : nat) (s : str) : list Match :=
  match skip with
  | S n =>
      match s with
      | [] => []
      | _ :: s' => finditer_from p n s'
      end
  | O =>
      match match_at p s with
      | Some m =>
          m :: match s with
               | [] => []
               | _ :: s' => finditer_from p (length (group0 m) - 1) s'
               end
      | None =>
          match s with
          | [] => []
          | _ :: s' => finditer_from p 0 s'
          end
      end
  end.

Definition finditer (p : pattern) (s : str) : list Match := finditer_from p 0 s.

(** Pattern syntax. *)
Fixpoint lit (s : str) : regex :=
  match s with
  | [] => Empty
  | [c] => One (CChar c)
  | c :: s' => Cat (One (CChar c)) (lit s')
  end.

Definition plus (cs : cset) : regex := Repeat cs 1 None true.        (* cs+ *)
Definition star (cs : cset) : regex := Repeat cs 0 None true.        (* cs* *)
Definition lazy_plus (cs : cset) : regex := Repeat cs 1 None false.  (* cs+? *)
Definition times (cs : cset) (lo hi : nat) : regex :=                (* cs{lo,hi} *)
  Repeat cs lo (Some hi) true.
Definition opt (cs : cset) : regex := Repeat cs 0 (Some 1) true.     (* cs? *)

Declare Scope re_scope.
Delimit Scope re_scope with re.
Bind Scope re_scope with regex.
Infix "+>" := Cat (at level 35, right associativity) : re_scope.
Infix "<|>" := Or (at level 45, right associativity) : re_scope.

End Re.

(** ** Exceptions *)

(** The exceptions of the model: the [ValueError] of [float], [strptime]
    and [datetime.replace] (always caught before its message is read), and
    the failures of the PDF library, which carry the text of [str(e)]. *)
Inductive exn : Type :=
| ValueError
| PdfError (msg : str).

Inductive res (A : Type) : Type :=
| Ret (a : A)
| Raise (e : exn).

Arguments Ret {A} a.
Arguments Raise {A} e.

Definition bind (A B : Type) (m : res A) (f : A -> res B) : res B :=
  match m with
  | Ret a => f a
  | Raise e => Raise e
  end.

Notation "x <- m ;; k" := (bind m (fun x => k))
  (at level 61, m at next level, right associativity).

(** [str(e)] *)
Definition exn_str (e : exn) : str :=
  match e with
  | ValueError => []
  | PdfError msg => msg
  end.

(** ** Floats: [float(str)] and the comparisons the parsers use *)

Module PyFloat.

Definition prec : Z := 53.
Definition emax : Z := 1024.

(** [0.0] *)
Definition zero : spec_float := S754_zero false.

Definition ltb (x y : spec_float) : bool := SFltb x y.      (* x < y *)
Definition leb (x y : spec_float) : bool := SFleb x y.      (* x <= y *)
Definition eqb (x y : spec_float) : bool := SFeqb x y.      (* x == y *)
Definition abs (x : spec_float) : spec_float := SFabs x.    (* abs(x) *)
Definition neg (x : spec_float) : spec_float := SFopp x.    (* -x *)

(** The binary64 value nearest to [m * 10^e], ties to even, with the
    sign [sg]: an exact integer is rounded as it is, a quotient
    [m / 10^k] through the integer quotient and the position of the
    remainder, as the division of two floats is. *)
Definition of_decimal (sg : bool) (m e : Z) : spec_float :=
  match m with
  | Zpos p =>
      match e with
      | Zneg k =>
          let '(mz, ez, lz) :=
            SFdiv_core_binary prec emax (Zpos p) 0 (Zpos (Pos.pow 10 k)) 0 in
          binary_round_aux prec emax sg mz ez lz
      | Zpos k => binary_round prec emax sg (p * Pos.pow 10 k) 0
      | Z0 => binary_round prec emax sg p 0
      end
  | _ => S754_zero sg
  end.

(** The float literal written with the digits of [m] and [-e] of them
    after the point: [literal 123456 (-2)] is [1234.56]. *)
Definition literal (m e : Z) : spec_float := of_decimal false m e.

(** The white space [float] strips: that of C's [isspace], and the
    white space outside ASCII, which [float] first turns into spaces. *)
Definition is_cspace (c : ascii) : bool :=
  ((9 <=? Str.code c)%N && (Str.code c <=? 13)%N) || Ascii.eqb c " "
  || (Str.code c =? 133)%N || (Str.code c =? 160)%N.

Fixpoint lstrip (s : str) : str :=
  match s with
  | c :: s' => if is_cspace c then lstrip s' else s
  | [] => []
  end.

Definition strip (s : str) : str := rev (lstrip (rev (lstrip s))).

(** An underscore is accepted between two digits only, and dropped.
    [prev] is the character before [s]. *)
Fixpoint drop_underscores (prev : option ascii) (s : str) : option str :=
  match s with
  | [] =>
      match prev with
      | Some "_"%char => None
      | _ => Some []
      end
  | c :: s' =>
      if Ascii.eqb c "_" then
        match prev with
        | Some p =>
            if Str.is_digit p then drop_underscores (Some c) s' else None
        | None => None
        end
      else
        match prev with
        | Some "_"%char =>
            if Str.is_digit c
            then option_map (cons c) (drop_underscores (Some c) s')
            else None
        | _ => option_map (cons c) (drop_underscores (Some c) s')
        end
  end.

(** The longest prefix of digits, and what follows it. *)
Fixpoint digits (s : str) : str * str :=
  match s with
  | c :: s' =>
      if Str.is_digit c then let (d, r) := digits s' in (c :: d, r)
      else ([], s)
  | [] => ([], [])
  end.

(** An optional sign: [true] for [-]. *)
Definition sign (s : str) : bool * str :=
  match s with
  | "-"%char :: s' => (true, s')
  | "+"%char :: s' => (false, s')
  | _ => (false, s)
  end.

(** The exponent part: nothing, or [e] or [E], an optional sign and at
    least one digit, up to the end of the text. *)
Definition exponent (s : str) : option Z :=
  match s with
  | [] => Some 0%Z
  | c :: s' =>
      if Ascii.eqb c "e" || Ascii.eqb c "E" then
        let (sg, s2) := sign s' in
        let (ds, r) := digits s2 in
        match ds, r with
        | _ :: _, [] =>
            Some (if sg then (- Str.int_of_digits ds)%Z else Str.int_of_digits ds)
        | _, _ => None
        end
      else None
  end.

(** A decimal number [digits [. digits] [exponent]] with a digit before
    or after the point: its mantissa and power of ten.  [fraction] reads
    the point and the digits after it, when there is a point. *)
Definition fraction (s1 : str) : str * str :=
  match s1 with
  | "."%char :: t => digits t
  | _ => ([], s1)
  end.

Definition decimal (s : str) : option (Z * Z) :=
  let (ip, s1) := digits s in
  let (fp, s2) := fraction s1 in
  match ip ++ fp with
  | [] => None
  | ds =>
      match exponent s2 with
      | Some e => Some (Str.int_of_digits ds, (e - Z.of_nat (length fp))%Z)
      | None => None
      end
  end.

(** [float(s)] for a string [s] *)
Definition float (s : str) : res spec_float :=
  match
    (if existsb (Ascii.eqb "_") s then drop_underscores None s else Some s)
  with
  | None => Raise ValueError
  | Some s1 =>
      let (sg, body) := sign (strip s1) in
      let l := Str.lower body in
      if Str.eqb l "inf" || Str.eqb l "infinity" then Ret (S754_infinity sg)
      else if Str.eqb l "nan" then Ret S754_nan
      else
        match decimal body with
        | Some (m, e) => Ret (of_decimal sg m e)
        | None => Raise ValueError
        end
  end.

End PyFloat.

(** ** Dates: [datetime], [strptime], [strftime] *)

Module Datetime.
Import Re.
Local Open Scope Z_scope.
Local Open Scope re_scope.

Record datetime : Type := { year : Z; month : Z; day : Z }.

Definition is_leap (y : Z) : bool :=
  (y mod 4 =? 0) && (negb (y mod 100 =? 0) || (y mod 400 =? 0)).

Definition days_in_month (y m : Z) : Z :=
  if m =? 2 then (if is_leap y then 29 else 28)
  else if (m =? 4) || (m =? 6) || (m =? 9) || (m =? 11) then 30
  else 31.

Definition valid_date (y m d : Z) : bool :=
  (1 <=? y) && (y <=? 9999) && (1 <=? m) && (m <=? 12)
  && (1 <=? d) && (d <=? days_in_month y m).

(** [datetime(y, m, d)] *)
Definition make (y m d : Z) : res datetime :=
  if valid_date y m d then Ret {| year := y; month := m; day := d |}
  else Raise ValueError.

(** [dt.replace(year=y)], for a year within the range of a C [int], as
    the year the parsers hand over is (the current year or a token
    [20dd]); beyond that range [replace] raises an OverflowError, which
    the model leaves out. *)
Definition replace_year (dt : datetime) (y : Z) : res datetime :=
  make y (month dt) (day dt).

Definition digit_char (d : Z) : ascii := ascii_of_N (48 + Z.to_N (d mod 10)).

(** A number of at most two or four digits, zero-filled. *)
Definition zfill2 (n : Z) : str := [digit_char (n / 10); digit_char n].
Definition zfill4 (n : Z) : str :=
  [digit_char (n / 1000); digit_char (n / 100); digit_char (n / 10); digit_char n].

(** A year from 1 to 9999 in decimal, without leading zeros. *)
Definition year_digits (n : Z) : str :=
  if n <? 10 then [digit_char n]
  else if n <? 100 then [digit_char (n / 10); digit_char n]
  else if n <? 1000 then [digit_char (n / 100); digit_char (n / 10); digit_char n]
  else zfill4 n.

(** [dt.strftime(fmt)] for the directives [%Y] and [%m] (the month,
    01 ... 12); any other character is copied.  [strftime] hands [%Y] to
    the C library, and that of Linux prints the year in decimal without
    leading zeros: 999 for the year 999, where the library reference
    shows 0999.  From the year 1000 on the two agree. *)
Fixpoint strftime (dt : datetime) (fmt : str) : str :=
  match fmt with
  | "%"%char :: "Y"%char :: t => year_digits (year dt) ++ strftime dt t
  | "%"%char :: "m"%char :: t => zfill2 (month dt) ++ strftime dt t
  | c :: t => c :: strftime dt t
  | [] => []
  end.

(** Month names of the C locale, as [strptime] knows them. *)
Definition month_abbrs : list str :=
  ["jan" : str; "feb" : str; "mar" : str; "apr" : str; "may" : str; "jun" : str;
   "jul" : str; "aug" : str; "sep" : str; "oct" : str; "nov" : str; "dec" : str].

Definition month_names : list str :=
  ["january" : str; "february" : str; "march" : str; "april" : str; "may" : str;
   "june" : str; "july" : str; "august" : str; "september" : str;
   "october" : str; "november" : str; "december" : str].

(** The alternatives of [%B], the longest names first. *)
Definition month_names_by_length : list str :=
  ["september" : str; "february" : str; "november" : str; "december" : str;
   "january" : str; "october" : str; "august" : str; "march" : str;
   "april" : str; "june" : str; "july" : str; "may" : str].

Fixpoint alternatives (l : list str) : regex :=
  match l with
  | [] => Empty
  | [w] => lit w
  | w :: l' => lit w <|> alternatives l'
  end.

(** The group of each directive. *)
Definition gY : nat := 1.
Definition gy : nat := 2.
Definition gm : nat := 3.
Definition gd : nat := 4.
Definition gb : nat := 5.
Definition gB : nat := 6.

Definition ch (c : ascii) : regex := One (CChar c).
Definition rng (lo hi : ascii) : regex := One (CRange lo hi).

(** The regular expression of a directive; [None] for a directive the
    program's formats do not use. *)
Definition directive (c : ascii) : option regex :=
  if Ascii.eqb c "d" then
    (* (?P<d>3[0-1]|[1-2]\d|0[1-9]|[1-9]| [1-9]) *)
    Some (Group gd (ch "3" +> rng "0" "1" <|> rng "1" "2" +> One CDigit
                    <|> ch "0" +> rng "1" "9" <|> rng "1" "9"
                    <|> ch " " +> rng "1" "9"))
  else if Ascii.eqb c "m" then
    (* (?P<m>1[0-2]|0[1-9]|[1-9]) *)
    Some (Group gm (ch "1" +> rng "0" "2" <|> ch "0" +> rng "1" "9"
                    <|> rng "1" "9"))
  else if Ascii.eqb c "Y" then
    (* (?P<Y>\d\d\d\d) *)
    Some (Group gY (One CDigit +> One CDigit +> One CDigit +> One CDigit))
  else if Ascii.eqb c "y" then
    (* (?P<y>\d\d) *)
    Some (Group gy (One CDigit +> One CDigit))
  else if Ascii.eqb c "b" then Some (Group gb (alternatives month_abbrs))
  else if Ascii.eqb c "B" then Some (Group gB (alternatives month_names_by_length))
  else None.

(** The regular expression of a format: a directive gives its group, a
    run of white space gives [\s+], any other character stands for
    itself.  [sp] tells that the previous character was white space. *)
Fixpoint time_re (sp : bool) (fmt : str) : option regex :=
  match fmt with
  | [] => Some Empty
  | "%"%char :: c :: t =>
      match directive c, time_re false t with
      | Some r, Some r' => Some (r +> r')
      | _, _ => None
      end
  | c :: t =>
      if Str.is_space c then
        if sp then time_re true t
        else option_map (Cat (plus CSpace)) (time_re true t)
      else option_map (Cat (ch c)) (time_re false t)
  end.

Fixpoint index_of (w : str) (l : list str) (i : Z) : Z :=
  match l with
  | [] => i
  | x :: l' => if Str.eqb w x then i else index_of w l' (i + 1)
  end.

(** The fields of a match of a format; a field the format lacks keeps
    its default (1900, 1, 1).  A two-digit year up to 68 is of this
    century, a later one of the last. *)
Definition year_of (found : Match) : Z :=
  match group found gY, group found gy with
  | Some w, _ => Str.int_of_digits w
  | None, Some w =>
      let v := Str.int_of_digits w in
      if v <=? 68 then 2000 + v else 1900 + v
  | None, None => 1900
  end.

Definition month_of (found : Match) : Z :=
  match group found gm, group found gB, group found gb with
  | Some w, _, _ => Str.int_of_digits w
  | None, Some w, _ => index_of (Str.lower w) month_names 1
  | None, None, Some w => index_of (Str.lower w) month_abbrs 1
  | None, None, None => 1
  end.

Definition day_of (found : Match) : Z :=
  match group found gd with
  | Some w => Str.int_of_digits w
  | None => 1
  end.

(** The compiled expression of a format. *)
Definition format_pattern (r : regex) : pattern :=
  {| p_flags := ignorecase; p_regex := r; p_groups := 6 |}.

(** [datetime.strptime(s, fmt)]: the format's expression, compiled with
    IGNORECASE, must match at the start of [s] and leave nothing. *)
Definition strptime (s fmt : str) : res datetime :=
  match time_re false fmt with
  | None => Raise ValueError
  | Some r =>
      match match_at (format_pattern r) s with
      | None => Raise ValueError
      | Some found =>
          match rest found with
          | _ :: _ => Raise ValueError
          | [] => make (year_of found) (month_of found) (day_of found)
          end
      end
  end.

End Datetime.

(** ** [re.sub] *)

Module ReSub.
Import Re.

(** [p.sub(repl, s)]: every match, from left to right and none
    overlapping, is replaced by [repl]. *)
Fixpoint sub_from (p : pattern) (repl : str) (skip : nat) (s : str) : str :=
  match skip with
  | S n =>
      match s with
      | [] => []
      | _ :: s' => sub_from p repl n s'
      end
  | O =>
      match match_at p s with
      | Some m =>
          repl ++
          match group0 m, s with
          | _, [] => []
          | [], c :: s' => c :: sub_from p repl 0 s'
          | _ :: w, _ :: s' => sub_from p repl (length w) s'
          end
      | None =>
          match s with
          | [] => []
          | c :: s' => c :: sub_from p repl 0 s'
          end
      end
  end.

Definition sub (p : pattern) (repl s : str) : str := sub_from p repl 0 s.

End ReSub.

(** ** The data model *)

Inductive transaction_type : Type :=
| purchase | payment | refund | deposit | withdrawal | credit.

Record ExtractedTransaction : Type :=
  { date : Datetime.datetime;
    merchant : str;
    amount : spec_float;
    trans_type : transaction_type;
    raw_text : str }.

Record ParseResult : Type :=
  { success : bool;
    institution : str;
    account_type : str;
    account_identifier : option str;
    statement_period : option str;
    transactions : list ExtractedTransaction;
    error_message : option str }.

(** ** The PDF, as [pdfplumber] presents it *)

(** [page.extract_text()] returns text or [None], or fails. *)
Inductive page : Type :=
| Extracted (t : option str)
| Fails (msg : str).

(** [pdfplumber.open(pdf_path)] fails, or gives the pages. *)
Inductive pdf : Type :=
| Unreadable (msg : str)
| Opened (pages : list page).

Definition newline_str : str := [Re.newline].

(** The loop every [parse] runs over the pages:
    [if page_text: full_text += page_text + "\n"]. *)
Fixpoint read_pages (pages : list page) (full_text : str) : res str :=
  match pages with
  | [] => Ret full_text
  | Extracted (Some (c :: t)) :: ps =>
      read_pages ps (full_text ++ (c :: t) ++ newline_str)
  | Extracted _ :: ps => read_pages ps full_text
  | Fails msg :: _ => Raise (PdfError msg)
  end.

Definition extract_full_text (doc : pdf) : res str :=
  match doc with
  | Unreadable msg => Raise (PdfError msg)
  | Opened pages => read_pages pages []
  end.

(** [for match in pattern.finditer(full_text): ...], where the body
    either appends a transaction or goes on to the next match. *)
Fixpoint for_matches (A : Type) (body : Re.Match -> res (option A))
         (ms : list Re.Match) (transactions : list A) : res (list A) :=
  match ms with
  | [] => Ret transactions
  | m :: ms' =>
      r <- body m ;;
      for_matches body ms'
        (match r with
         | Some t => transactions ++ [t]
         | None => transactions
         end)
  end.

(** [for pattern in patterns: <scan>; if transactions: break] *)
Fixpoint pattern_loop (A : Type)
         (scan : Re.pattern -> list A -> res (list A))
         (patterns : list Re.pattern) (transactions : list A) : res (list A) :=
  match patterns with
  | [] => Ret transactions
  | p :: ps =>
      transactions' <- scan p transactions ;;
      match transactions' with
      | _ :: _ => Ret transactions'
      | [] => pattern_loop scan ps transactions'
      end
  end.

(** [m.group(n)] of a group that is no option of its pattern. *)
Definition group_str (m : Re.Match) (n : nat) : str :=
  match Re.group m n with
  | Some w => w
  | None => []
  end.

(** [f"{x}"] of a group *)
Definition fstr (x : option str) : str :=
  match x with
  | Some w => w
  | None => "None"
  end.

(** The truth value of a group: [None] and [""] are false. *)
Definition truthy (x : option str) : bool :=
  match x with
  | Some (_ :: _) => true
  | _ => false
  end.

(** ** [StatementParser]: the normalizers *)

Module StatementParser.
Import Re.
Local Open Scope re_scope.

(** [r'[$,\s]'] *)
Definition amount_noise : pattern :=
  {| p_flags := no_flags;
     p_regex := One (CUnion (CChar "$") (CUnion (CChar ",") CSpace));
     p_groups := 0 |}.

(** The text handed to [float]: [cleaned] after the three rewrites. *)
Definition clean_amount (amount_str : str) : str :=
  let cleaned := ReSub.sub amount_noise [] amount_str in
  let cleaned :=
    if Str.startswith ["("%char] cleaned && Str.endswith [")"%char] cleaned
    then "-"%char :: Str.drop_last 1 (skipn 1 cleaned)
    else cleaned in
  if Str.endswith "CR" cleaned
  then "-"%char :: Str.drop_last 2 cleaned
  else cleaned.

Definition _parse_amount (amount_str : str) : res spec_float :=
  match PyFloat.float (clean_amount amount_str) with
  | Ret v => Ret v
  | Raise ValueError => Ret PyFloat.zero
  | Raise e => Raise e
  end.

Definition formats : list str :=
  ["%m/%d/%Y" : str; "%m/%d/%y" : str; "%m-%d-%Y" : str; "%m-%d-%y" : str;
   "%m/%d" : str; "%b %d" : str; "%B %d" : str; "%d %b" : str; "%d %B" : str].

(** The truth value of the [year] argument: [None] and [0] are false. *)
Definition year_given (year : option Z) : option Z :=
  match year with
  | Some 0%Z => None
  | _ => year
  end.

(** One round of the loop of [_parse_date]: the body of its [try]. *)
Definition try_format (date_str : str) (year : option Z) (fmt : str)
  : res Datetime.datetime :=
  parsed <- Datetime.strptime date_str fmt ;;
  match year_given year with
  | Some y =>
      if negb (Str.contains "%Y" fmt) && negb (Str.contains "%y" fmt)
      then Datetime.replace_year parsed y
      else Ret parsed
  | None => Ret parsed
  end.

Fixpoint parse_date_loop (fmts : list str) (date_str : str) (year : option Z)
  : res (option Datetime.datetime) :=
  match fmts with
  | [] => Ret None
  | fmt :: fmts' =>
      match try_format date_str year fmt with
      | Ret parsed => Ret (Some parsed)
      | Raise ValueError => parse_date_loop fmts' date_str year
      | Raise e => Raise e
      end
  end.

Definition _parse_date (date_str : str) (year : option Z)
  : res (option Datetime.datetime) :=
  parse_date_loop formats (Str.strip date_str) year.

(** Pieces the patterns of the strategies share. *)
Definition digits_or_commas : cset := CUnion CDigit (CChar ",").
Definition colon_or_space : cset := CUnion (CChar ":") CSpace.
Definition comma_or_space : cset := CUnion (CChar ",") CSpace.

(** [-?\$?[\d,]+\.\d{2}] *)
Definition signed_amount : regex :=
  opt (CChar "-") +> opt (CChar "$") +> plus digits_or_commas
  +> One (CChar ".") +> times CDigit 2 2.

(** [[\d,]+\.\d{2}] *)
Definition column_amount : regex :=
  plus digits_or_commas +> One (CChar ".") +> times CDigit 2 2.

(** [\d{2}/\d{2}] *)
Definition month_day : regex :=
  times CDigit 2 2 +> One (CChar "/") +> times CDigit 2 2.

(** [\w+\s+\d{1,2}] *)
Definition name_day : regex :=
  plus CWord +> plus CSpace +> times CDigit 1 2.

(** [(?:\*+|x+)?] *)
Definition mask : regex := Maybe (plus (CChar "*") <|> plus (CChar "x")).

(** [r'20\d{2}'] *)
Definition year_token : pattern :=
  {| p_flags := no_flags; p_regex := lit "20" +> times CDigit 2 2; p_groups := 0 |}.

(** [year = int(year_match.group()) if year_match else datetime.now().year] *)
Definition infer_year (now_year : Z) (full_text : str) : Z :=
  match search year_token full_text with
  | Some m => Str.int_of_digits (group0 m)
  | None => now_year
  end.

End StatementParser.

(** ** The strategies *)

Definition failure (institution account_type : str) (e : exn) : ParseResult :=
  {| success := false;
     institution := institution;
     account_type := account_type;
     account_identifier := None;
     statement_period := None;
     transactions := [];
     error_message := Some (exn_str e) |}.

(** The statement period of a date range that ends with the text
    [end_text]: [strptime(end_text, "%B %d %Y").strftime("%Y-%m")]. *)
Definition period_of (end_text : str) : res str :=
  end_date <- Datetime.strptime end_text "%B %d %Y" ;;
  Ret (Datetime.strftime end_date "%Y-%m").

Module ChaseParser.
Import Re StatementParser.
Local Open Scope re_scope.

Definition can_parse (text : str) : bool :=
  Str.contains "chase" (Str.lower text)
  && (Str.contains "jpmorgan" (Str.lower text)
      || Str.contains "jpmcb" (Str.lower text)
      || Str.contains "credit card" (Str.lower text)).

(** [r'Account\s+(?:Number|#)?[:\s]*(?:\*+|x+)?(\d{4})'], IGNORECASE *)
Definition account_re : pattern :=
  {| p_flags := ignorecase;
     p_regex :=
       lit "Account" +> plus CSpace
       +> Maybe (lit "Number" <|> One (CChar "#"))
       +> star colon_or_space +> mask +> Group 1 (times CDigit 4 4);
     p_groups := 1 |}.

(** The class between the two dates: a dash, U+00E2, [t] and [o]; the
    source lists two more characters there, U+20AC and U+201C, which are
    outside the alphabet of the model. *)
Definition range_sep : cset :=
  CUnion (CChar "-") (CUnion (CChar "226") (CUnion (CChar "t") (CChar "o"))).

(** [r'(?:Statement|Billing)\s+(?:Period|Date)[:\s]*(\w+\s+\d{1,2})[,\s]+(\d{4})\s*[-...to]+\s*(\w+\s+\d{1,2})[,\s]+(\d{4})'],
    IGNORECASE *)
Definition period_re : pattern :=
  {| p_flags := ignorecase;
     p_regex :=
       (lit "Statement" <|> lit "Billing") +> plus CSpace
       +> (lit "Period" <|> lit "Date") +> star colon_or_space
       +> Group 1 name_day +> plus comma_or_space
       +> Group 2 (times CDigit 4 4)
       +> star CSpace +> plus range_sep +> star CSpace
       +> Group 3 name_day +> plus comma_or_space
       +> Group 4 (times CDigit 4 4);
     p_groups := 4 |}.

(** [r'(\d{2}/\d{2})\s+(.+?)\s+(-?\$?[\d,]+\.\d{2})'], MULTILINE *)
Definition transaction_pattern : pattern :=
  {| p_flags := multiline;
     p_regex :=
       Group 1 month_day +> plus CSpace +> Group 2 (lazy_plus CDot)
       +> plus CSpace +> Group 3 signed_amount;
     p_groups := 3 |}.

Definition skip_keywords : list str :=
  ["total" : str; "balance" : str; "payment due" : str; "credit limit" : str;
   "available" : str; "minimum" : str].

(** The body of the loop over the matches. *)
Definition line (year : Z) (m : Match) : res (option ExtractedTransaction) :=
  let date_str := group_str m 1 in
  let merchant := Str.strip (group_str m 2) in
  let amount_str := group_str m 3 in
  if Str.any_in skip_keywords (Str.lower merchant) then Ret None
  else
    parsed_date <- _parse_date date_str (Some year) ;;
    match parsed_date with
    | None => Ret None
    | Some parsed_date =>
        amount <- _parse_amount amount_str ;;
        let trans_type :=
          if PyFloat.ltb amount PyFloat.zero
             || Str.contains "payment" (Str.lower merchant)
          then payment
          else if Str.contains "refund" (Str.lower merchant)
                  || Str.contains "credit" (Str.lower merchant)
          then refund
          else purchase in
        Ret (Some
               {| date := parsed_date;
                  merchant := merchant;
                  amount :=
                    match trans_type with
                    | purchase => PyFloat.abs amount
                    | _ => PyFloat.neg (PyFloat.abs amount)
                    end;
                  trans_type := trans_type;
                  raw_text := group0 m |})
    end.

Definition find_account (full_text : str) : option str :=
  match search account_re full_text with
  | Some account_match => group account_match 1
  | None => None
  end.

Definition find_period (full_text : str) : option str :=
  match search period_re full_text with
  | Some period_match =>
      let end_month := group period_match 3 in
      let end_year := group period_match 4 in
      match period_of (fstr end_month ++ " " ++ fstr end_year) with
      | Ret p => Some p
      | Raise _ => Some (fstr end_year)
      end
  | None => None
  end.

Definition parse (now_year : Z) (doc : pdf) : ParseResult :=
  match
    full_text <- extract_full_text doc ;;
    let account_identifier := find_account full_text in
    let statement_period := find_period full_text in
    let year := infer_year now_year full_text in
    transactions <-
      for_matches (line year) (finditer transaction_pattern full_text) [] ;;
    Ret {| success := true;
           institution := "Chase";
           account_type := "credit_card";
           account_identifier := account_identifier;
           statement_period := statement_period;
           transactions := transactions;
           error_message := None |}
  with
  | Ret r => r
  | Raise e => failure "Chase" "credit_card" e
  end.

End ChaseParser.

Module AmexParser.
Import Re StatementParser.
Local Open Scope re_scope.

Definition can_parse (text : str) : bool :=
  Str.contains "american express" (Str.lower text)
  || Str.contains "amex" (Str.lower text).

(** [r'(?:Account|Card)\s*(?:Ending|Number)?[:\s]*(?:\*+|x+)?(\d{4,5})'],
    IGNORECASE *)
Definition account_re : pattern :=
  {| p_flags := ignorecase;
     p_regex :=
       (lit "Account" <|> lit "Card") +> star CSpace
       +> Maybe (lit "Ending" <|> lit "Number")
       +> star colon_or_space +> mask +> Group 1 (times CDigit 4 5);
     p_groups := 1 |}.

(** [r'(?:Statement|Closing)\s+Date[:\s]*(\w+\s+\d{1,2})[,\s]+(\d{4})'],
    IGNORECASE *)
Definition period_re : pattern :=
  {| p_flags := ignorecase;
     p_regex :=
       (lit "Statement" <|> lit "Closing") +> plus CSpace +> lit "Date"
       +> star colon_or_space +> Group 1 name_day +> plus comma_or_space
       +> Group 2 (times CDigit 4 4);
     p_groups := 2 |}.

(** Pattern 1: [r'(\d{2}/\d{2}/?\d{0,2})\s+(.+?)\s+(-?\$?[\d,]+\.\d{2})$'];
    pattern 2: [r'(\d{2}/\d{2})\s+(.+?)\s+[A-Z0-9]+\s+(-?\$?[\d,]+\.\d{2})'];
    both MULTILINE. *)
Definition patterns : list pattern :=
  [ {| p_flags := multiline;
       p_regex :=
         Group 1 (month_day +> opt (CChar "/") +> times CDigit 0 2)
         +> plus CSpace +> Group 2 (lazy_plus CDot) +> plus CSpace
         +> Group 3 signed_amount +> Eol;
       p_groups := 3 |};
    {| p_flags := multiline;
       p_regex :=
         Group 1 month_day +> plus CSpace +> Group 2 (lazy_plus CDot)
         +> plus CSpace +> plus (CUnion (CRange "A" "Z") (CRange "0" "9"))
         +> plus CSpace +> Group 3 signed_amount;
       p_groups := 3 |} ].

Definition skip_keywords : list str :=
  ["total" : str; "balance" : str; "payment" : str; "credit limit" : str;
   "available" : str; "minimum" : str; "fee" : str].

Definition line (year : Z) (m : Match) : res (option ExtractedTransaction) :=
  let date_str := group_str m 1 in
  let merchant := Str.strip (group_str m 2) in
  let amount_str := group_str m 3 in
  if Str.any_in skip_keywords (Str.lower merchant) then Ret None
  else if (length merchant <? 3)%nat then Ret None
  else
    parsed_date <- _parse_date date_str (Some year) ;;
    match parsed_date with
    | None => Ret None
    | Some parsed_date =>
        amount <- _parse_amount amount_str ;;
        let '(trans_type, amount) :=
          if PyFloat.ltb amount PyFloat.zero then (payment, amount)
          else if Str.contains "refund" (Str.lower merchant)
                  || Str.contains "credit" (Str.lower merchant)
          then (refund, PyFloat.neg (PyFloat.abs amount))
          else (purchase, amount) in
        Ret (Some
               {| date := parsed_date;
                  merchant := merchant;
                  amount :=
                    match trans_type with
                    | purchase => PyFloat.abs amount
                    | _ => amount
                    end;
                  trans_type := trans_type;
                  raw_text := group0 m |})
    end.

Definition find_account (full_text : str) : option str :=
  match search account_re full_text with
  | Some account_match => Some (Str.last_n 4 (group_str account_match 1))
  | None => None
  end.

Definition find_period (full_text : str) : option str :=
  match search period_re full_text with
  | Some period_match =>
      match
        period_of (fstr (group period_match 1) ++ " " ++ fstr (group period_match 2))
      with
      | Ret p => Some p
      | Raise _ => None
      end
  | None => None
  end.

(** The inner loop, for one pattern. *)
Definition scan (year : Z) (full_text : str) (p : pattern)
           (transactions : list ExtractedTransaction)
  : res (list ExtractedTransaction) :=
  for_matches (line year) (finditer p full_text) transactions.

Definition parse (now_year : Z) (doc : pdf) : ParseResult :=
  match
    full_text <- extract_full_text doc ;;
    let account_identifier := find_account full_text in
    let statement_period := find_period full_text in
    let year := infer_year now_year full_text in
    transactions <- pattern_loop (scan year full_text) patterns [] ;;
    Ret {| success := true;
           institution := "American Express";
           account_type := "credit_card";
           account_identifier := account_identifier;
           statement_period := statement_period;
           transactions := transactions;
           error_message := None |}
  with
  | Ret r => r
  | Raise e => failure "American Express" "credit_card" e
  end.

End AmexParser.

Module TruistParser.
Import Re StatementParser.
Local Open Scope re_scope.

Definition can_parse (text : str) : bool :=
  Str.contains "truist" (Str.lower text)
  || Str.contains "bb&t" (Str.lower text)
  || Str.contains "suntrust" (Str.lower text).

(** [r'Account\s*(?:Number)?[:\s]*(?:\*+|x+)?(\d{4})'], IGNORECASE *)
Definition account_re : pattern :=
  {| p_flags := ignorecase;
     p_regex :=
       lit "Account" +> star CSpace +> Maybe (lit "Number")
       +> star colon_or_space +> mask +> Group 1 (times CDigit 4 4);
     p_groups := 1 |}.

(** [r'(?:Statement\s+Period|From)[:\s]*(\w+\s+\d{1,2})[,\s]+(\d{4})\s*(?:through|to|-)\s*(\w+\s+\d{1,2})[,\s]+(\d{4})'],
    IGNORECASE *)
Definition period_re : pattern :=
  {| p_flags := ignorecase;
     p_regex :=
       (lit "Statement" +> plus CSpace +> lit "Period" <|> lit "From")
       +> star colon_or_space
       +> Group 1 name_day +> plus comma_or_space
       +> Group 2 (times CDigit 4 4)
       +> star CSpace +> (lit "through" <|> lit "to" <|> One (CChar "-"))
       +> star CSpace
       +> Group 3 name_day +> plus comma_or_space
       +> Group 4 (times CDigit 4 4);
     p_groups := 4 |}.

(** The pattern of the debit and credit columns:
    [r'(\d{2}/\d{2})\s+(.+?)\s+([\d,]+\.\d{2})?\s*([\d,]+\.\d{2})?\s+[\d,]+\.\d{2}$'];
    the simple pattern: [r'(\d{2}/\d{2})\s+(.+?)\s+(-?\$?[\d,]+\.\d{2})'];
    both MULTILINE. *)
Definition patterns : list pattern :=
  [ {| p_flags := multiline;
       p_regex :=
         Group 1 month_day +> plus CSpace +> Group 2 (lazy_plus CDot)
         +> plus CSpace +> Maybe (Group 3 column_amount) +> star CSpace
         +> Maybe (Group 4 column_amount) +> plus CSpace
         +> column_amount +> Eol;
       p_groups := 4 |};
    {| p_flags := multiline;
       p_regex :=
         Group 1 month_day +> plus CSpace +> Group 2 (lazy_plus CDot)
         +> plus CSpace +> Group 3 signed_amount;
       p_groups := 3 |} ].

Definition skip_keywords : list str :=
  ["balance" : str; "total" : str; "beginning" : str; "ending" : str;
   "summary" : str; "statement" : str].

(** The amount and the type of a match, or [None] where the loop goes
    on to the next match: [len(match.groups()) >= 4] tells the pattern
    of the columns from the simple one. *)
Definition amount_and_type (p : pattern) (m : Match)
  : res (option (spec_float * transaction_type)) :=
  if (4 <=? p_groups p)%nat then
    let debit := group m 3 in
    let credit := group m 4 in
    if truthy debit then
      amount <- _parse_amount (fstr debit) ;;
      Ret (Some (amount, withdrawal))
    else if truthy credit then
      amount <- _parse_amount (fstr credit) ;;
      Ret (Some (PyFloat.neg amount, deposit))
    else Ret None
  else
    amount <- _parse_amount (group_str m 3) ;;
    Ret (Some (amount,
               if PyFloat.ltb PyFloat.zero amount then withdrawal else deposit)).

Definition line (year : Z) (p : pattern) (m : Match)
  : res (option ExtractedTransaction) :=
  let date_str := group_str m 1 in
  let merchant := Str.strip (group_str m 2) in
  typed <- amount_and_type p m ;;
  match typed with
  | None => Ret None
  | Some (amount, trans_type) =>
      if Str.any_in skip_keywords (Str.lower merchant) then Ret None
      else if (length merchant <? 3)%nat then Ret None
      else
        parsed_date <- _parse_date date_str (Some year) ;;
        match parsed_date with
        | None => Ret None
        | Some parsed_date =>
            Ret (Some
                   {| date := parsed_date;
                      merchant := merchant;
                      amount := amount;
                      trans_type := trans_type;
                      raw_text := group0 m |})
        end
  end.

Definition find_account (full_text : str) : option str :=
  match search account_re full_text with
  | Some account_match => group account_match 1
  | None => None
  end.

Definition find_period (full_text : str) : option str :=
  match search period_re full_text with
  | Some period_match =>
      match
        period_of (fstr (group period_match 3) ++ " " ++ fstr (group period_match 4))
      with
      | Ret p => Some p
      | Raise _ => None
      end
  | None => None
  end.

Definition scan (year : Z) (full_text : str) (p : pattern)
           (transactions : list ExtractedTransaction)
  : res (list ExtractedTransaction) :=
  for_matches (line year p) (finditer p full_text) transactions.

Definition parse (now_year : Z) (doc : pdf) : ParseResult :=
  match
    full_text <- extract_full_text doc ;;
    let account_type : str :=
      if Str.contains "savings" (Str.lower full_text) then "savings" else "checking" in
    let account_identifier := find_account full_text in
    let statement_period := find_period full_text in
    let year := infer_year now_year full_text in
    transactions <- pattern_loop (scan year full_text) patterns [] ;;
    Ret {| success := true;
           institution := "Truist";
           account_type := account_type;
           account_identifier := account_identifier;
           statement_period := statement_period;
           transactions := transactions;
           error_message := None |}
  with
  | Ret r => r
  | Raise e => failure "Truist" "checking" e
  end.

End TruistParser.

Module GenericParser.
Import Re StatementParser.
Local Open Scope re_scope.

Definition can_parse (text : str) : bool := true.

(** [r'(\d{1,2}/\d{1,2}(?:/\d{2,4})?)\s+(.+?)\s+(-?\$?[\d,]+\.\d{2})'],
    MULTILINE *)
Definition pattern_ : pattern :=
  {| p_flags := multiline;
     p_regex :=
       Group 1 (times CDigit 1 2 +> One (CChar "/") +> times CDigit 1 2
                +> Maybe (One (CChar "/") +> times CDigit 2 4))
       +> plus CSpace +> Group 2 (lazy_plus CDot) +> plus CSpace
       +> Group 3 signed_amount;
     p_groups := 3 |}.

Definition skip_keywords : list str :=
  ["total" : str; "balance" : str; "summary" : str; "fee" : str;
   "interest" : str; "minimum" : str].

Definition guess_institution (full_text : str) : str :=
  let t := Str.lower full_text in
  if Str.contains "chase" t then "Chase"
  else if Str.contains "american express" t || Str.contains "amex" t
  then "American Express"
  else if Str.contains "truist" t then "Truist"
  else if Str.contains "bank of america" t then "Bank of America"
  else if Str.contains "wells fargo" t then "Wells Fargo"
  else if Str.contains "citi" t then "Citi"
  else if Str.contains "capital one" t then "Capital One"
  else "Unknown".

Definition line (year : Z) (m : Match) : res (option ExtractedTransaction) :=
  let date_str := group_str m 1 in
  let merchant := Str.strip (group_str m 2) in
  let amount_str := group_str m 3 in
  if Str.any_in skip_keywords (Str.lower merchant) then Ret None
  else if (length merchant <? 3)%nat then Ret None
  else
    parsed_date <- _parse_date date_str (Some year) ;;
    match parsed_date with
    | None => Ret None
    | Some parsed_date =>
        amount <- _parse_amount amount_str ;;
        Ret (Some
               {| date := parsed_date;
                  merchant := merchant;
                  amount := amount;
                  trans_type :=
                    if PyFloat.ltb PyFloat.zero amount then purchase else credit;
                  raw_text := group0 m |})
    end.

Definition parse (now_year : Z) (doc : pdf) : ParseResult :=
  match
    full_text <- extract_full_text doc ;;
    let institution := guess_institution full_text in
    let year := infer_year now_year full_text in
    transactions <- for_matches (line year) (finditer pattern_ full_text) [] ;;
    Ret {| success := true;
           institution := institution;
           account_type := "unknown";
           account_identifier := None;
           statement_period := None;
           transactions := transactions;
           error_message := None |}
  with
  | Ret r => r
  | Raise e => failure "Unknown" "unknown" e
  end.

End GenericParser.

(** ** The selector *)

Module StatementParserFactory.

Inductive parser : Type :=
| Chase | Amex | Truist | Generic.

Definition can_parse (p : parser) (text : str) : bool :=
  match p with
  | Chase => ChaseParser.can_parse text
  | Amex => AmexParser.can_parse text
  | Truist => TruistParser.can_parse text
  | Generic => GenericParser.can_parse text
  end.

Definition parse_with (p : parser) (now_year : Z) (doc : pdf) : ParseResult :=
  match p with
  | Chase => ChaseParser.parse now_year doc
  | Amex => AmexParser.parse now_year doc
  | Truist => TruistParser.parse now_year doc
  | Generic => GenericParser.parse now_year doc
  end.

(** [self.parsers], the fallback last. *)
Definition parsers : list parser := [Chase; Amex; Truist; Generic].

(** The text of the first two pages, as far as it was read: a failure
    of the PDF library leaves the text gathered so far
    ([except: pass]). *)
Fixpoint read_some (pages : list page) (text : str) : str :=
  match pages with
  | [] => text
  | Extracted (Some (c :: t)) :: ps => read_some ps (text ++ (c :: t) ++ newline_str)
  | Extracted _ :: ps => read_some ps text
  | Fails _ :: _ => text
  end.

Definition detection_text (doc : pdf) : str :=
  match doc with
  | Unreadable _ => []
  | Opened pages => read_some (firstn 2 pages) []
  end.

(** The loop of [get_parser] over [self.parsers], on the text. *)
Definition select (text : str) : parser :=
  match find (fun p => can_parse p text) parsers with
  | Some p => p
  | None => last parsers Generic
  end.

Definition get_parser (doc : pdf) : parser := select (detection_text doc).

Definition parse (now_year : Z) (doc : pdf) : ParseResult :=
  parse_with (get_parser doc) now_year doc.

End StatementParserFactory.

(** ** The application (src/app.py): the pure steps of the upload *)

Module App.

(** [s.rsplit(sep, 1)] when [sep] occurs in [s]: the text before the last
    [sep] and the text after it; [None] when [sep] does not occur. *)
Fixpoint rsplit1 (sep : ascii) (s : str) : option (str * str) :=
  match s with
  | [] => None
  | c :: t =>
      match rsplit1 sep t with
      | Some (a, b) => Some (c :: a, b)
      | None => if Ascii.eqb c sep then Some ([], t) else None
      end
  end.

Definition ALLOWED_EXTENSIONS : list str := ["pdf" : str].

(** ['.' in filename and filename.rsplit('.', 1)[1].lower() in ALLOWED_EXTENSIONS] *)
Definition allowed_file (filename : str) : bool :=
  Str.contains ["."%char] filename
  && match rsplit1 "." filename with
     | Some (_, ext) => existsb (Str.eqb (Str.lower ext)) ALLOWED_EXTENSIONS
     | None => false
     end.

(** The flag [is_income] of a stored transaction:
    [txn.transaction_type in ('deposit', 'credit') and txn.amount < 0]. *)
Definition is_income (txn : ExtractedTransaction) : bool :=
  match trans_type txn with
  | deposit | credit => PyFloat.ltb (amount txn) PyFloat.zero
  | _ => false
  end.

End App.

(** ** Specification vocabulary *)

(** The language of a regular expression, and the texts its groups can
    hold. *)
Module ReSpec.
Import Re.

Section Lang.
Variable fl : flags.

Definition mem (cs : cset) (c : ascii) : Prop :=
  cset_mem (IGNORECASE fl) cs c = true.

Fixpoint lang (r : regex) (w : str) : Prop :=
  match r with
  | Empty => w = []
  | One cs => exists c, w = [c] /\ mem cs c
  | Cat r1 r2 => exists a b, w = a ++ b /\ lang r1 a /\ lang r2 b
  | Or r1 r2 => lang r1 w \/ lang r2 w
  | Repeat cs lo hi _ =>
      Forall (mem cs) w /\ lo <= length w
      /\ match hi with Some h => length w <= h | None => True end
  | Maybe r1 => w = [] \/ lang r1 w
  | Group _ r1 => lang r1 w
  | Eol => w = []
  end.

(** [w] is in the language of a group numbered [n] inside [r]. *)
Fixpoint group_lang (r : regex) (n : nat) (w : str) : Prop :=
  match r with
  | Cat r1 r2 | Or r1 r2 => group_lang r1 n w \/ group_lang r2 n w
  | Maybe r1 => group_lang r1 n w
  | Group m r1 => (m = n /\ lang r1 w) \/ group_lang r1 n w
  | _ => False
  end.
End Lang.

(** Every match of [r] goes through a group numbered [n]. *)
Fixpoint sets (r : regex) (n : nat) : bool :=
  match r with
  | Cat r1 r2 => sets r1 n || sets r2 n
  | Or r1 r2 => sets r1 n && sets r2 n
  | Group m r1 => Nat.eqb m n || sets r1 n
  | _ => false
  end.

(** [r] has a group numbered [n]. *)
Fixpoint has_group (r : regex) (n : nat) : bool :=
  match r with
  | Cat r1 r2 | Or r1 r2 => has_group r1 n || has_group r2 n
  | Maybe r1 => has_group r1 n
  | Group m r1 => Nat.eqb m n || has_group r1 n
  | _ => false
  end.

Definition defined (n : nat) (caps : captures) : Prop :=
  exists w, get_group n caps = Some w.

Definition caps_ok (Q : nat -> str -> Prop) (caps : captures) : Prop :=
  forall n w, get_group n caps = Some w -> Q n w.

(** The 256 characters. *)
Definition all_ascii : list ascii := map ascii_of_nat (seq 0 256).

(** Every character of the class [cs] satisfies [P]. *)
Definition cset_within (ic : bool) (P : ascii -> bool) (cs : cset) : bool :=
  forallb (fun c => implb (cset_mem ic cs c) (P c)) all_ascii.

(** Every character a match of [r] can hold satisfies [P]. *)
Fixpoint within (ic : bool) (P : ascii -> bool) (r : regex) : bool :=
  match r with
  | Empty | Eol => true
  | One cs | Repeat cs _ _ _ => cset_within ic P cs
  | Cat r1 r2 | Or r1 r2 => within ic P r1 && within ic P r2
  | Maybe r1 | Group _ r1 => within ic P r1
  end.

(** Every character a group numbered [n] of [r] can hold satisfies [P]. *)
Fixpoint group_within (ic : bool) (P : ascii -> bool) (r : regex) (n : nat) : bool :=
  match r with
  | Cat r1 r2 | Or r1 r2 => group_within ic P r1 n && group_within ic P r2 n
  | Maybe r1 => group_within ic P r1 n
  | Group m r1 =>
      (negb (Nat.eqb m n) || within ic P r1) && group_within ic P r1 n
  | _ => true
  end.

(** A match of [p], found at some place of some text. *)
Definition matched (p : pattern) (m : Match) : Prop :=
  exists s, match_at p s = Some m.

(** What a successful run of the matcher on [r] guarantees: the
    continuation was entered after a word of the language, with
    captures that hold texts of their groups. *)
Definition run_ok (R : Type) (fl : flags) (Q : nat -> str -> Prop)
           (r : regex) (s : str) (caps : captures)
           (k : str -> captures -> option R) (res : R) : Prop :=
  exists a s' caps',
    s = a ++ s' /\ lang fl r a /\ k s' caps' = Some res
    /\ length caps' = length caps
    /\ (caps_ok Q caps -> caps_ok Q caps')
    /\ (forall n, defined n caps -> defined n caps')
    /\ (forall n, sets r n = true -> 1 <= n <= length caps -> defined n caps').

End ReSpec.

(** The first list of [ls] that is not empty; [[]] when there is none. *)
Fixpoint first_nonempty (A : Type) (ls : list (list A)) : list A :=
  match ls with
  | [] => []
  | [] :: ls' => first_nonempty ls'
  | l :: _ => l
  end.

(** What a computation returns, [d] when it raises. *)
Definition value (A : Type) (d : A) (r : res A) : A :=
  match r with
  | Ret a => a
  | Raise _ => d
  end.

(** The sign of a float that is a number: of a zero, of an infinity, of
    a finite value. *)
Definition has_sign (sg : bool) (v : spec_float) : Prop :=
  match v with
  | S754_nan => False
  | S754_zero s | S754_infinity s | S754_finite s _ _ => s = sg
  end.

Definition is_number (v : spec_float) : Prop := exists sg, has_sign sg v.

(** The characters of [-?\$?[\d,]+\.\d{2}] and of [[\d,]+\.\d{2}]. *)
Definition column_char (c : ascii) : bool :=
  Str.is_digit c || Ascii.eqb c "," || Ascii.eqb c ".".

Definition amount_char (c : ascii) : bool :=
  column_char c || Ascii.eqb c "-" || Ascii.eqb c "$".

(** The characters [float] is handed when the amount text holds amount
    characters only. *)
Definition clean_char (c : ascii) : bool :=
  Str.is_digit c || Ascii.eqb c "-" || Ascii.eqb c ".".

Definition unsigned_char (c : ascii) : bool :=
  Str.is_digit c || Ascii.eqb c ".".

(** A format with a year of its own. *)
Definition carries_year (fmt : str) : bool :=
  Str.contains "%Y" fmt || Str.contains "%y" fmt.

(** The date [d] in the year [year], when one is given. *)
Definition with_year (d : Datetime.datetime) (year : option Z) : Datetime.datetime :=
  match year with
  | Some y => {| Datetime.year := y; Datetime.month := Datetime.month d;
                 Datetime.day := Datetime.day d |}
  | None => d
  end.

(** No year, or a year of the calendar of [datetime] (MINYEAR to MAXYEAR). *)
Definition usable_year (year : option Z) : Prop :=
  match year with
  | Some y => (1 <= y <= 9999)%Z
  | None => True
  end.

(** The shapes [YYYY-MM], with a month from 01 to 12, and [YYYY]. *)
Definition yyyy (p : str) : bool :=
  match p with
  | [a; b; c; d] =>
      Str.is_digit a && Str.is_digit b && Str.is_digit c && Str.is_digit d
  | _ => false
  end.

Definition yyyy_mm (p : str) : bool :=
  match p with
  | [a; b; c; d; h; e; f] =>
      yyyy [a; b; c; d] && Ascii.eqb h "-"
      && Str.is_digit e && Str.is_digit f
      && (1 <=? 10 * Str.digit_val e + Str.digit_val f)%Z
      && (10 * Str.digit_val e + Str.digit_val f <=? 12)%Z
  | _ => false
  end.

(** The end of the statement period a strategy finds in a text: the
    text it hands to [strptime], and the text of the end year. *)
Definition period_end (p : StatementParserFactory.parser) (text : str)
  : option (str * str) :=
  let ends (i j : nat) (m : Re.Match) :=
    (fstr (Re.group m i) ++ " " ++ fstr (Re.group m j), fstr (Re.group m j)) in
  match p with
  | StatementParserFactory.Chase =>
      option_map (ends 3%nat 4%nat) (Re.search ChaseParser.period_re text)
  | StatementParserFactory.Amex =>
      option_map (ends 1%nat 2%nat) (Re.search AmexParser.period_re text)
  | StatementParserFactory.Truist =>
      option_map (ends 3%nat 4%nat) (Re.search TruistParser.period_re text)
  | StatementParserFactory.Generic => None
  end.

(** What a statement period is, given the end of the period: the year
    and the month of the end date when the end parses, the year in
    decimal and the month on two digits; the text of the end year when
    it does not, which the Chase strategy alone stores. *)
Definition period_from (p : StatementParserFactory.parser)
           (end_text end_year period : str) : Prop :=
  match Datetime.strptime end_text "%B %d %Y" with
  | Ret end_date =>
      period = Datetime.year_digits (Datetime.year end_date)
               ++ "-"%char :: Datetime.zfill2 (Datetime.month end_date)
      /\ (1 <= Datetime.year end_date <= 9999)%Z
      /\ (1 <= Datetime.month end_date <= 12)%Z
      /\ (yyyy_mm period = true <-> (1000 <= Datetime.year end_date)%Z)
  | Raise _ =>
      p = StatementParserFactory.Chase /\ period = end_year /\ yyyy period = true
  end.

(** The sign convention: money that leaves the account is not negative,
    money that arrives is not positive. *)
Definition sign_consistent (t : ExtractedTransaction) : Prop :=
  match trans_type t with
  | purchase | withdrawal => PyFloat.leb PyFloat.zero (amount t) = true
  | payment | refund | deposit | credit =>
      PyFloat.leb (amount t) PyFloat.zero = true
  end.

(** The characters [re.sub(r'[$,\s]', '', amount_str)] deletes. *)
Definition noise (c : ascii) : bool :=
  Re.cset_mem false (Re.CUnion (Re.CChar "$") (Re.CUnion (Re.CChar ",") Re.CSpace)) c.

(** A result of the success branch of a [parse]. *)
Definition ok_result (inst acct : str) (ident period : option str)
           (l : list ExtractedTransaction) : ParseResult :=
  {| success := true; institution := inst; account_type := acct;
     account_identifier := ident; statement_period := period;
     transactions := l; error_message := None |}.

(** The characters a text that [float] accepts is written with: digits,
    signs, the point, the exponent mark, the underscore, white space, and
    the letters of "inf", "infinity" and "nan" in either case. *)
Definition float_char (c : ascii) : bool :=
  Str.is_digit c || Ascii.eqb c "+" || Ascii.eqb c "-" || Ascii.eqb c "."
  || Ascii.eqb c "e" || Ascii.eqb c "E" || Ascii.eqb c "_"
  || PyFloat.is_cspace c
  || existsb (Ascii.eqb (Str.lower_char c)) ("infinityan" : str).

(** The patterns of the transaction lines, of all the strategies. *)
Definition line_patterns : list Re.pattern :=
  ChaseParser.transaction_pattern :: GenericParser.pattern_
  :: AmexParser.patterns ++ TruistParser.patterns.

(** The least length of a word of the language of [r]. *)
Fixpoint min_len (r : Re.regex) : nat :=
  match r with
  | Re.Empty | Re.Eol | Re.Maybe _ => 0
  | Re.One _ => 1
  | Re.Cat r1 r2 => min_len r1 + min_len r2
  | Re.Or r1 r2 => Nat.min (min_len r1) (min_len r2)
  | Re.Repeat _ lo _ _ => lo
  | Re.Group _ r1 => min_len r1
  end.

(** A text that white space neither begins nor ends. *)
Definition starts_clean (w : str) : Prop :=
  match w with
  | c :: _ => Str.is_space c = false
  | [] => True
  end.

Definition trimmed (w : str) : Prop := starts_clean w /\ starts_clean (rev w).

(** What a page adds to the text: its text and a newline, or nothing. *)
Definition page_line (pg : page) : str :=
  match pg with
  | Extracted (Some (c :: t)) => (c :: t) ++ newline_str
  | _ => []
  end.

(** The message of the first page whose extraction fails. *)
Fixpoint first_failure (pages : list page) : option str :=
  match pages with
  | [] => None
  | Fails msg :: _ => Some msg
  | _ :: ps => first_failure ps
  end.

(** The keyword lists of the strategies, and the types each one uses. *)
Definition skip_keywords_of (p : StatementParserFactory.parser) : list str :=
  match p with
  | StatementParserFactory.Chase => ChaseParser.skip_keywords
  | StatementParserFactory.Amex => AmexParser.skip_keywords
  | StatementParserFactory.Truist => TruistParser.skip_keywords
  | StatementParserFactory.Generic => GenericParser.skip_keywords
  end.

Definition types_of (p : StatementParserFactory.parser) : list transaction_type :=
  match p with
  | StatementParserFactory.Chase | StatementParserFactory.Amex =>
      [purchase; payment; refund]
  | StatementParserFactory.Truist => [withdrawal; deposit]
  | StatementParserFactory.Generic => [purchase; credit]
  end.

(** The strategies whose dates are all written [MM/DD]. *)
Definition month_day_only (p : StatementParserFactory.parser) : bool :=
  match p with
  | StatementParserFactory.Chase | StatementParserFactory.Truist => true
  | _ => false
  end.

(** The patterns of a strategy and the body of its loop. *)
Definition patterns_of (p : StatementParserFactory.parser) : list Re.pattern :=
  match p with
  | StatementParserFactory.Chase => [ChaseParser.transaction_pattern]
  | StatementParserFactory.Amex => AmexParser.patterns
  | StatementParserFactory.Truist => TruistParser.patterns
  | StatementParserFactory.Generic => [GenericParser.pattern_]
  end.

Definition line_of (p : StatementParserFactory.parser) (year : Z)
           (pat : Re.pattern) (m : Re.Match) : res (option ExtractedTransaction) :=
  match p with
  | StatementParserFactory.Chase => ChaseParser.line year m
  | StatementParserFactory.Amex => AmexParser.line year m
  | StatementParserFactory.Truist => TruistParser.line year pat m
  | StatementParserFactory.Generic => GenericParser.line year m
  end.

(** Where a transaction of a result comes from: a match of a pattern of
    the strategy in the text of the document, at which the body of the
    loop returned it, with the year inferred from that text. *)
Definition origin (p : StatementParserFactory.parser) (now_year : Z) (doc : pdf)
           (t : ExtractedTransaction) : Prop :=
  exists text pat m,
    extract_full_text doc = Ret text
    /\ In pat (patterns_of p)
    /\ In m (Re.finditer pat text)
    /\ line_of p (StatementParser.infer_year now_year text) pat m = Ret (Some t).

(** A statement of one page and the transaction its line gives, to try
    the properties on. *)
Definition sample_doc : pdf :=
  Opened [Extracted (Some ("03/03 PAYMENT THANK YOU -100.00" : str))].

Definition sample_txn : ExtractedTransaction :=
  {| date := {| Datetime.year := 2024; Datetime.month := 3; Datetime.day := 3 |};
     merchant := "PAYMENT THANK YOU";
     amount := S754_finite true 7036874417766400 (-46);
     trans_type := payment;
     raw_text := "03/03 PAYMENT THANK YOU -100.00" |}.

(** The strategies whose negative amounts the application counts as
    income. *)
Definition flags_income (p : StatementParserFactory.parser) : bool :=
  match p with
  | StatementParserFactory.Truist | StatementParserFactory.Generic => true
  | _ => false
  end.

(** The labels the generic strategy can give when the selector chose it
    on the whole text. *)
Definition fallback_labels : list str :=
  ["Chase" : str; "Bank of America" : str; "Wells Fargo" : str; "Citi" : str;
   "Capital One" : str; "Unknown" : str].

(** The characters of an amount without a sign: digits, the point, and
    what [_parse_amount] deletes. *)
Definition money_char (c : ascii) : bool := column_char c || noise c.

(** What a loop over matches keeps: the transactions of the matches at
    which the body returns one, in the order of the matches. *)
Definition kept (A : Type) (body : Re.Match -> res (option A))
           (ms : list Re.Match) : list A :=
  flat_map (fun m => match body m with
                     | Ret (Some t) => [t]
                     | _ => []
                     end) ms.

Definition kept_lines (p : StatementParserFactory.parser) (year : Z) (text : str)
           (pat : Re.pattern) : list ExtractedTransaction :=
  kept (line_of p year pat) (Re.finditer pat text).

(** ** Numeric text

    The texts that are written as numbers, after the grammar the
    language reference gives for the argument of [float]: white space
    around, an optional sign, then a decimal number or a spelling of
    infinity or of NaN; underscores may group the digits. *)
Definition digit_text (d : str) : Prop := Forall (fun c => Str.is_digit c = true) d.

Definition blank_text (w : str) : Prop :=
  Forall (fun c => PyFloat.is_cspace c = true) w.

Definition sign_text (sg : str) : Prop :=
  sg = [] \/ sg = ["+"%char] \/ sg = ["-"%char].

(** An exponent, or none: [e] or [E], an optional sign, at least one
    digit. *)
Definition exponent_text (ex : str) : Prop :=
  ex = []
  \/ exists e sg d,
       (e = "e"%char \/ e = "E"%char) /\ sign_text sg
       /\ digit_text d /\ d <> [] /\ ex = e :: sg ++ d.

(** A decimal number: digits, with or without a point and further
    digits, at least one digit in all, then an exponent or none. *)
Definition decimal_text (b : str) : Prop :=
  exists ip fp ex,
    digit_text ip /\ digit_text fp /\ ip ++ fp <> [] /\ exponent_text ex
    /\ (b = ip ++ "."%char :: fp ++ ex \/ (fp = [] /\ b = ip ++ ex)).

(** The spellings of infinity and of NaN, in any mix of cases. *)
Definition special_text (b : str) : Prop :=
  Str.lower b = ("inf" : str) \/ Str.lower b = ("infinity" : str)
  \/ Str.lower b = ("nan" : str).

(** The last character of [a], or [prev] when [a] is empty. *)
Fixpoint last_or (prev : option ascii) (a : str) : option ascii :=
  match a with
  | [] => prev
  | x :: a' => last_or (Some x) a'
  end.

Definition digit_before (prev : option ascii) (a : str) : Prop :=
  exists x, last_or prev a = Some x /\ Str.is_digit x = true.

Definition digit_first (b : str) : Prop :=
  exists y b', b = y :: b' /\ Str.is_digit y = true.

(** Every underscore of the text stands between two digits. *)
Definition grouped (s : str) : Prop :=
  forall a b, s = a ++ "_"%char :: b -> digit_before None a /\ digit_first b.

(** The text without its underscores. *)
Definition ungroup (s : str) : str :=
  filter (fun c => negb (Ascii.eqb c "_")) s.

Definition float_text (s : str) : Prop :=
  grouped s
  /\ exists l sg body r,
       blank_text l /\ blank_text r /\ sign_text sg
       /\ (decimal_text body \/ special_text body)
       /\ ungroup s = l ++ sg ++ body ++ r.

(** The characters of a float literal that are not white space. *)
Definition literal_char (c : ascii) : bool :=
  Str.is_digit c
  || existsb (Ascii.eqb c) ("+-.eE" : str)
  || existsb (Ascii.eqb (Str.lower_char c)) ("infinityan" : str).

(** * Properties *)

(** ** The matcher is sound for the language of its pattern *)

Module ReFacts.
Import Re ReSpec.

Lemma consumed_app (a s' : str) : consumed (a ++ s') s' = a.
Proof.
  unfold consumed. rewrite length_app.
  replace (length a + length s' - length s') with (length a) by lia.
  rewrite firstn_app, firstn_all, Nat.sub_diag. simpl. apply app_nil_r.
Qed.

Lemma length_set_nth (A : Type) (i : nat) (v : A) (l : list A) :
  length (set_nth i v l) = length l.
Proof.
  revert i; induction l as [|x l IH]; intros [|i]; simpl; auto.
Qed.

Lemma nth_error_set_nth (A : Type) (i j : nat) (v : A) (l : list A) :
  nth_error (set_nth i v l) j =
  if Nat.eqb i j && Nat.ltb i (length l) then Some v else nth_error l j.
Proof.
  revert i j; induction l as [|x l IH]; intros [|i] [|j]; simpl; auto.
  rewrite andb_false_r. reflexivity.
Qed.

Lemma length_set_group n w caps : length (set_group n w caps) = length caps.
Proof. destruct n; simpl; auto using length_set_nth. Qed.

Lemma get_set_group m n v caps w :
  get_group m (set_group n v caps) = Some w ->
  (m = n /\ w = v) \/ get_group m caps = Some w.
Proof.
  destruct m as [|i]; [discriminate|]. destruct n as [|j]; simpl; auto.
  rewrite nth_error_set_nth.
  destruct (Nat.eqb j i && Nat.ltb j (length caps)) eqn:E; auto.
  apply andb_prop in E. destruct E as [E _]. apply Nat.eqb_eq in E. subst j.
  intros H. inversion H. auto.
Qed.

Lemma defined_set_group_same n v caps :
  1 <= n <= length caps -> defined n (set_group n v caps).
Proof.
  intros [Hn Hl]. destruct n as [|i]; [lia|]. exists v. simpl.
  rewrite nth_error_set_nth, Nat.eqb_refl.
  destruct (Nat.ltb_spec i (length caps)); [reflexivity | lia].
Qed.

Lemma defined_set_group m n v caps :
  defined m caps -> defined m (set_group n v caps).
Proof.
  intros [w Hw]. destruct m as [|i]; [discriminate|].
  destruct n as [|j]; [exists w; exact Hw|]. unfold defined. simpl in *.
  rewrite nth_error_set_nth.
  destruct (Nat.eqb j i && Nat.ltb j (length caps)); eauto.
Qed.

Lemma get_group_repeat_None n k : get_group n (repeat None k) = None.
Proof.
  destruct n as [|i]; simpl; auto.
  destruct (nth_error (repeat None k) i) as [[w|]|] eqn:E; auto.
  apply nth_error_In, repeat_spec in E. discriminate.
Qed.

Section Sound.
Variable R : Type.
Variable fl : flags.

Lemma rep_sound cs greedy (s : str) :
  forall lo hi (k : str -> option R) res,
    rep fl cs lo hi greedy s k = Some res ->
    exists a s',
      s = a ++ s' /\ Forall (mem fl cs) a /\ lo <= length a
      /\ match hi with Some h => length a <= h | None => True end
      /\ k s' = Some res.
Proof.
  induction s as [|c s IH]; intros lo hi k res H.
  - exists [], []. simpl in H.
    destruct greedy, lo; try discriminate;
      (repeat split; [constructor | simpl; lia | destruct hi; simpl; lia | ]);
      destruct (k []); congruence.
  - assert (Hmore :
      (if may_take hi && cset_mem (IGNORECASE fl) cs c
       then rep fl cs (pred lo) (dec hi) greedy s k else None) = Some res ->
      exists a s', c :: s = a ++ s' /\ Forall (mem fl cs) a /\ lo <= length a
        /\ match hi with Some h => length a <= h | None => True end
        /\ k s' = Some res).
    { intros Hm.
      destruct (may_take hi && cset_mem (IGNORECASE fl) cs c) eqn:E;
        [|discriminate].
      apply andb_prop in E. destruct E as [Et Ec].
      destruct (IH _ _ _ _ Hm) as (a & s' & -> & Ha & Hlo & Hhi & Hk).
      exists (c :: a), s'. repeat split; auto.
      - simpl. lia.
      - destruct hi as [[|h]|]; simpl in *; try discriminate; lia. }
    assert (Hstop :
      match lo with O => k (c :: s) | S _ => None end = Some res ->
      exists a s', c :: s = a ++ s' /\ Forall (mem fl cs) a /\ lo <= length a
        /\ match hi with Some h => length a <= h | None => True end
        /\ k s' = Some res).
    { intros Hs. destruct lo; [|discriminate].
      exists [], (c :: s). repeat split; auto.
      destruct hi; simpl; lia. }
    simpl in H. destruct greedy.
    + destruct (if may_take hi && cset_mem (IGNORECASE fl) cs c
                then rep fl cs (pred lo) (dec hi) true s k else None) eqn:E.
      * inversion H; subst. auto.
      * auto.
    + destruct (match lo with O => k (c :: s) | S _ => None end) eqn:E.
      * inversion H; subst. auto.
      * auto.
Qed.

Variable Q : nat -> str -> Prop.

Lemma rmatch_sound (r : regex) :
  (forall n w, group_lang fl r n w -> Q n w) ->
  forall s caps (k : str -> captures -> option R) res,
    rmatch fl r s caps k = Some res -> run_ok fl Q r s caps k res.
Proof.
  induction r as [ | cs | r1 IH1 r2 IH2 | r1 IH1 r2 IH2 | cs lo hi g
                   | r1 IH1 | n r1 IH1 | ];
    intros HQ s caps k res H; simpl in H.
  - exists [], s, caps. simpl. repeat split; auto; discriminate.
  - destruct s as [|c s]; [discriminate|].
    destruct (cset_mem (IGNORECASE fl) cs c) eqn:E; [|discriminate].
    exists [c], s, caps. simpl. repeat split; eauto; discriminate.
  - apply IH1 in H; [|intros; apply HQ; simpl; auto].
    destruct H as (a & s1 & c1 & -> & La & H & Hl1 & Hok1 & Hd1 & Hs1).
    apply IH2 in H; [|intros; apply HQ; simpl; auto].
    destruct H as (b & s2 & c2 & -> & Lb & H & Hl2 & Hok2 & Hd2 & Hs2).
    exists (a ++ b), s2, c2. repeat split; auto.
    + apply app_assoc.
    + simpl. eauto.
    + congruence.
    + intros n Hn Hr. simpl in Hn. apply orb_prop in Hn. destruct Hn as [Hn|Hn].
      * apply Hd2, Hs1; auto.
      * apply Hs2; auto. lia.
  - destruct (rmatch fl r1 s caps k) eqn:E.
    + inversion H; subst. apply IH1 in E; [|intros; apply HQ; simpl; auto].
      destruct E as (a & s1 & c1 & -> & La & E & Hl1 & Hok1 & Hd1 & Hs1).
      exists a, s1, c1. repeat split; simpl; auto.
      intros n Hn. apply andb_prop in Hn. apply Hs1, Hn.
    + apply IH2 in H; [|intros; apply HQ; simpl; auto].
      destruct H as (a & s1 & c1 & -> & La & E' & Hl1 & Hok1 & Hd1 & Hs1).
      exists a, s1, c1. repeat split; simpl; auto.
      intros n Hn. apply andb_prop in Hn. apply Hs1, Hn.
  - apply rep_sound in H. destruct H as (a & s' & -> & Ha & Hlo & Hhi & Hk).
    exists a, s', caps. simpl. repeat split; auto; discriminate.
  - destruct (rmatch fl r1 s caps k) eqn:E.
    + inversion H; subst. apply IH1 in E; [|intros; apply HQ; simpl; auto].
      destruct E as (a & s1 & c1 & -> & La & E & Hl1 & Hok1 & Hd1 & Hs1).
      exists a, s1, c1. repeat split; simpl; auto; discriminate.
    + exists [], s, caps. simpl. repeat split; auto; discriminate.
  - apply IH1 in H; [|intros; apply HQ; simpl; auto].
    destruct H as (a & s1 & c1 & -> & La & H & Hl1 & Hok1 & Hd1 & Hs1).
    rewrite consumed_app in H.
    exists a, s1, (set_group n a c1). repeat split; auto.
    + rewrite length_set_group. exact Hl1.
    + intros Hc m w Hm. apply get_set_group in Hm.
      destruct Hm as [[-> ->]|Hm].
      * apply HQ. simpl. auto.
      * apply (Hok1 Hc _ _ Hm).
    + intros m Hm. apply defined_set_group, Hd1, Hm.
    + intros m Hm Hr. simpl in Hm. apply orb_prop in Hm. destruct Hm as [Hm|Hm].
      * apply Nat.eqb_eq in Hm. subst m.
        apply defined_set_group_same. lia.
      * apply defined_set_group, Hs1; auto.
  - destruct (at_eol fl s); [|discriminate].
    exists [], s, caps. simpl. repeat split; auto; discriminate.
Qed.
End Sound.

Lemma match_at_sound p s m :
  match_at p s = Some m ->
  s = group0 m ++ rest m
  /\ lang (p_flags p) (p_regex p) (group0 m)
  /\ (forall n w, group m n = Some w -> group_lang (p_flags p) (p_regex p) n w)
  /\ (forall n, sets (p_regex p) n = true -> 1 <= n <= p_groups p ->
                exists w, group m n = Some w).
Proof.
  unfold match_at. intros H.
  apply rmatch_sound with (Q := group_lang (p_flags p) (p_regex p)) in H; auto.
  destruct H as (a & s' & caps' & -> & La & H & Hl & Hok & _ & Hs).
  inversion H; subst; clear H. simpl. rewrite consumed_app.
  repeat split; auto.
  - apply Hok. intros n w Hn. rewrite get_group_repeat_None in Hn. discriminate.
  - intros n Hn Hr. apply Hs; auto. rewrite repeat_length. exact Hr.
Qed.

Lemma search_matched p s m : search p s = Some m -> matched p m.
Proof.
  induction s as [|c s IH]; simpl; destruct (match_at p _) eqn:E; intros H;
    try discriminate; try (inversion H; subst; eexists; eassumption); auto.
Qed.

Lemma finditer_from_matched p s :
  forall skip m, In m (finditer_from p skip s) -> matched p m.
Proof.
  induction s as [|c s IH]; intros [|skip] m; simpl; try tauto.
  - destruct (match_at p []) eqn:E; simpl; [|tauto].
    intros [<-|[]]. eexists; eassumption.
  - destruct (match_at p (c :: s)) eqn:E; simpl.
    + intros [<-|H]; [eexists; eassumption | eauto].
    + eauto.
  - eauto.
Qed.

Lemma finditer_matched p s m : In m (finditer p s) -> matched p m.
Proof. apply finditer_from_matched. Qed.

(** What holds of the groups of any match. *)
Lemma matched_group p m n w :
  matched p m -> group m n = Some w ->
  group_lang (p_flags p) (p_regex p) n w.
Proof. intros [s H]. apply match_at_sound in H. apply H. Qed.

Lemma matched_sets p m n :
  matched p m -> sets (p_regex p) n = true -> 1 <= n <= p_groups p ->
  exists w, group m n = Some w.
Proof. intros [s H]. apply match_at_sound in H. apply H. Qed.

(** The characters of a match. *)
Lemma all_ascii_complete (c : ascii) : In c all_ascii.
Proof.
  unfold all_ascii. rewrite <- (ascii_nat_embedding c).
  apply in_map, in_seq. pose proof (nat_ascii_bounded c). lia.
Qed.

Lemma cset_within_mem fl P cs c :
  cset_within (IGNORECASE fl) P cs = true -> mem fl cs c -> P c = true.
Proof.
  unfold cset_within, mem. rewrite forallb_forall. intros H Hc.
  specialize (H c (all_ascii_complete c)). rewrite Hc in H. exact H.
Qed.

Lemma within_lang fl P r :
  within (IGNORECASE fl) P r = true ->
  forall w, lang fl r w -> Forall (fun c => P c = true) w.
Proof.
  induction r as [ | cs | r1 IH1 r2 IH2 | r1 IH1 r2 IH2 | cs lo hi g
                   | r1 IH1 | n r1 IH1 | ]; simpl; intros H w L.
  - subst. constructor.
  - destruct L as (c & -> & Hc). repeat constructor.
    eapply cset_within_mem; eauto.
  - apply andb_prop in H. destruct H as [H1 H2].
    destruct L as (a & b & -> & La & Lb). apply Forall_app. auto.
  - apply andb_prop in H. destruct H as [H1 H2]. destruct L; auto.
  - destruct L as (Hw & _). eapply Forall_impl; [|exact Hw].
    intros c. apply cset_within_mem. exact H.
  - destruct L as [->|L]; auto.
  - auto.
  - subst. constructor.
Qed.

(** Replacing the matches of a one-character class by nothing deletes
    the characters of the class. *)
Lemma sub_class fl cs k s :
  ReSub.sub {| p_flags := fl; p_regex := One cs; p_groups := k |} [] s
  = filter (fun c => negb (cset_mem (IGNORECASE fl) cs c)) s.
Proof.
  unfold ReSub.sub. induction s as [|c s IH]; [reflexivity|].
  simpl. unfold match_at. simpl.
  destruct (cset_mem (IGNORECASE fl) cs c); simpl.
  - change (c :: s) with ([c] ++ s). rewrite consumed_app. simpl. exact IH.
  - f_equal. exact IH.
Qed.

End ReFacts.

(** ** Floats *)

Module PyFloatFacts.
Import PyFloat.
Local Open Scope Z_scope.

Lemma iter_pos_inv (A : Type) (f : A -> A) (P : A -> Prop) :
  (forall x, P x -> P (f x)) -> forall n x, P x -> P (iter_pos f n x).
Proof. intros Hf. induction n; simpl; auto. Qed.

Lemma shr_1_nonneg mrs : 0 <= shr_m mrs -> 0 <= shr_m (shr_1 mrs).
Proof.
  destruct mrs as [m r s]. destruct m as [|[p|p|]|[p|p|]]; simpl; lia.
Qed.

Lemma shr_fexp_nonneg m e l :
  0 <= m -> 0 <= shr_m (fst (shr_fexp prec emax m e l)).
Proof.
  intros Hm. unfold shr_fexp, shr.
  assert (H0 : 0 <= shr_m (shr_record_of_loc m l))
    by (destruct l as [|[]]; simpl; exact Hm).
  destruct (fexp prec emax (Zdigits2 m + e) - e); simpl; auto.
  apply iter_pos_inv; auto using shr_1_nonneg.
Qed.

Lemma round_nearest_even_nonneg m l : 0 <= m -> 0 <= round_nearest_even m l.
Proof.
  intros Hm. destruct l as [|[]]; simpl; try destruct (Z.even m); lia.
Qed.

(** Rounding never makes a NaN, and keeps the sign. *)
Lemma binary_round_aux_sign sx mx ex lx :
  0 <= mx -> has_sign sx (binary_round_aux prec emax sx mx ex lx).
Proof.
  intros Hm. unfold binary_round_aux.
  pose proof (shr_fexp_nonneg ex lx Hm) as H1.
  destruct (shr_fexp prec emax mx ex lx) as [mrs' e']. simpl in H1.
  pose proof (shr_fexp_nonneg e' loc_Exact
                (round_nearest_even_nonneg (loc_of_shr_record mrs') H1)) as H2.
  destruct (shr_fexp prec emax _ e' loc_Exact) as [mrs'' e'']. simpl in H2.
  destruct (shr_m mrs''); simpl; [reflexivity | | lia].
  destruct (_ <=? _); simpl; reflexivity.
Qed.

Lemma binary_round_sign sx mx ex : has_sign sx (binary_round prec emax sx mx ex).
Proof.
  unfold binary_round. destruct (shl_align _ _ _) as [mz ez].
  apply binary_round_aux_sign. lia.
Qed.

Lemma of_decimal_sign sg m e : has_sign sg (of_decimal sg m e).
Proof.
  unfold of_decimal. destruct m as [|p|p]; try (simpl; reflexivity).
  destruct e as [|k|k]; try apply binary_round_sign.
  unfold SFdiv_core_binary.
  set (m' := match _ with Z0 => Z.pos p | Z.pos _ => Z.shiftl _ _ | Z.neg _ => 0 end).
  assert (Hm' : 0 <= m').
  { subst m'. destruct (_ - _ - _); try lia. apply Z.shiftl_nonneg. lia. }
  pose proof (Z.div_pos m' (Z.pos (10 ^ k)) Hm' ltac:(lia)) as Hq.
  unfold Z.div in Hq. destruct (Z.div_eucl m' _) as [q r].
  apply binary_round_aux_sign. exact Hq.
Qed.

(** [float] raises nothing but [ValueError]. *)
Lemma float_raises s e : float s = Raise e -> e = ValueError.
Proof.
  unfold float. destruct (if existsb _ s then _ else _); [|congruence].
  destruct (sign _) as [sg body].
  destruct (_ || _); [discriminate|]. destruct (Str.eqb _ _); [discriminate|].
  destruct (decimal body) as [[m ex]|]; congruence.
Qed.

(** The comparisons with [0.0]. *)
Ltac by_cases v :=
  destruct v as [[]|[]| |[] ? ?]; cbv; intros;
  try reflexivity; try contradiction; try discriminate; try congruence.

Lemma nonneg_abs sg v : has_sign sg v -> leb zero (abs v) = true.
Proof. by_cases v. Qed.

Lemma nonpos_neg_abs sg v : has_sign sg v -> leb (neg (abs v)) zero = true.
Proof. by_cases v. Qed.

Lemma ltb_zero_leb v : ltb v zero = true -> leb v zero = true.
Proof. by_cases v. Qed.

Lemma zero_ltb_leb v : ltb zero v = true -> leb zero v = true.
Proof. by_cases v. Qed.

Lemma not_pos_nonpos sg v :
  has_sign sg v -> ltb zero v = false -> leb v zero = true.
Proof. by_cases v. Qed.

Lemma plus_nonneg v : has_sign false v -> leb zero v = true.
Proof. by_cases v. Qed.

Lemma plus_neg_nonpos v : has_sign false v -> leb (neg v) zero = true.
Proof. by_cases v. Qed.

End PyFloatFacts.

(** ** The amount normalizer *)

Module AmountFacts.
Import PyFloat PyFloatFacts StatementParser.

(** A fact about every character, by looking at each of the 256. *)
Ltac each_char c :=
  destruct c as [[] [] [] [] [] [] [] []]; vm_compute;
  intros; try reflexivity; try discriminate; try congruence.

Local Unset Implicit Arguments.

Abbreviation all P := (Forall (fun c : ascii => P c = true)).

Lemma all_lstrip P s : all P s -> all P (lstrip s).
Proof.
  induction 1 as [|c s Hc Hs IH]; simpl; [constructor|].
  destruct (is_cspace c); auto.
Qed.

Lemma all_strip P s : all P s -> all P (strip s).
Proof.
  intros H. unfold strip.
  apply Forall_rev, all_lstrip, Forall_rev, all_lstrip, H.
Qed.

Lemma all_sign P s : all P s -> all P (snd (sign s)).
Proof.
  intros H. unfold sign. destruct H as [|c s Hc Hs]; simpl; [constructor|].
  destruct c as [[] [] [] [] [] [] [] []]; simpl; auto.
Qed.

Lemma sign_plus P s : P "-"%char = false -> all P s -> fst (sign s) = false.
Proof.
  intros Hm H. unfold sign. destruct H as [|c s Hc Hs]; simpl; [reflexivity|].
  destruct c as [[] [] [] [] [] [] [] []]; simpl; auto; congruence.
Qed.

Lemma startswith_outside P x t s :
  P x = false -> all P s -> Str.startswith (x :: t) s = false.
Proof.
  intros Hx H. destruct H as [|c s Hc Hs]; simpl; [reflexivity|].
  destruct (Ascii.eqb_spec x c); [congruence | reflexivity].
Qed.

Lemma no_underscore s : all clean_char s -> existsb (Ascii.eqb "_") s = false.
Proof.
  induction 1 as [|c s Hc Hs IH]; simpl; [reflexivity|].
  rewrite IH, orb_false_r. revert Hc. each_char c.
Qed.

Lemma clean_not_n c : clean_char c = true -> Ascii.eqb (Str.lower_char c) "n" = false.
Proof. each_char c. Qed.

Lemma clean_not_i c : clean_char c = true -> Ascii.eqb (Str.lower_char c) "i" = false.
Proof. each_char c. Qed.

Lemma unsigned_clean c : unsigned_char c = true -> clean_char c = true.
Proof. each_char c. Qed.

(** A text of digits, points and minus signs is a number when [float]
    accepts it, of the sign it starts with. *)
Lemma float_clean s v :
  all clean_char s -> float s = Ret v -> has_sign (fst (sign (strip s))) v.
Proof.
  intros Hs. unfold float. rewrite (no_underscore _ Hs).
  pose proof (all_sign _ _ (all_strip _ _ Hs)) as Hb.
  destruct (sign (strip s)) as [sg body]. simpl in *.
  assert (Hinf : forall t, Str.eqb (Str.lower body) ("i"%char :: t) = false).
  { intros t. destruct Hb as [|c b Hc _]; simpl; [reflexivity|].
    rewrite (clean_not_i _ Hc). reflexivity. }
  assert (Hnan : forall t, Str.eqb (Str.lower body) ("n"%char :: t) = false).
  { intros t. destruct Hb as [|c b Hc _]; simpl; [reflexivity|].
    rewrite (clean_not_n _ Hc). reflexivity. }
  change (list_ascii_of_string "inf") with ("i"%char :: list_ascii_of_string "nf").
  change (list_ascii_of_string "infinity")
    with ("i"%char :: list_ascii_of_string "nfinity").
  change (list_ascii_of_string "nan") with ("n"%char :: list_ascii_of_string "an").
  rewrite !Hinf, Hnan. simpl.
  destruct (decimal body) as [[m e]|]; [|discriminate].
  intros H. inversion H. apply of_decimal_sign.
Qed.

Lemma amount_char_clean c :
  amount_char c = true -> negb (noise c) = true -> clean_char c = true.
Proof. each_char c. Qed.

Lemma column_char_clean c :
  column_char c = true -> negb (noise c) = true -> unsigned_char c = true.
Proof. each_char c. Qed.

Lemma all_filter (P P' : ascii -> bool) f s :
  (forall c, P c = true -> f c = true -> P' c = true) ->
  all P s -> all P' (filter f s).
Proof.
  intros H Hs. apply Forall_forall. intros c Hc. apply filter_In in Hc.
  destruct Hc as [Hin Hf]. rewrite Forall_forall in Hs. auto.
Qed.

(** On amount characters, neither the parentheses nor the [CR] suffix
    are met: the text handed to [float] is the amount without its
    currency sign and commas. *)
Lemma clean_amount_plain s :
  all amount_char s ->
  clean_amount s = filter (fun c => negb (noise c)) s.
Proof.
  intros Hs. unfold clean_amount, amount_noise. rewrite ReFacts.sub_class.
  change (Re.cset_mem _ _) with noise.
  pose proof (all_filter amount_char clean_char (fun c => negb (noise c)) s
                amount_char_clean Hs) as Hc.
  assert (H1 : Str.startswith ["("%char] (filter (fun c => negb (noise c)) s) = false)
    by (apply (startswith_outside clean_char); [reflexivity | exact Hc]).
  assert (H2 : Str.endswith "CR" (filter (fun c => negb (noise c)) s) = false)
    by (apply (startswith_outside clean_char "R"%char ["C"%char]);
        [reflexivity | apply Forall_rev, Hc]).
  cbv zeta. rewrite H1. cbn [andb]. rewrite H2. reflexivity.
Qed.

Lemma column_is_amount c : column_char c = true -> amount_char c = true.
Proof. each_char c. Qed.

(** A text [float] accepts is written with the characters of floats. *)
Lemma digits_spec s :
  s = fst (digits s) ++ snd (digits s) /\ all Str.is_digit (fst (digits s)).
Proof.
  induction s as [|c s [IH1 IH2]]; simpl; [split; [reflexivity | constructor]|].
  destruct (Str.is_digit c) eqn:E; [|split; [reflexivity | constructor]].
  destruct (digits s) as [d r]. simpl in *. split; [f_equal; exact IH1|].
  constructor; assumption.
Qed.

Lemma digit_float c : Str.is_digit c = true -> float_char c = true.
Proof. each_char c. Qed.

Lemma cspace_float c : is_cspace c = true -> float_char c = true.
Proof. each_char c. Qed.

Lemma letter_float c :
  existsb (Ascii.eqb (Str.lower_char c)) ("infinityan" : str) = true ->
  float_char c = true.
Proof. each_char c. Qed.

Lemma mark_float c :
  Ascii.eqb c "e" || Ascii.eqb c "E" = true -> float_char c = true.
Proof. each_char c. Qed.

Lemma all_digits_float d : all Str.is_digit d -> all float_char d.
Proof. apply Forall_impl. exact digit_float. Qed.

Lemma sign_float s : all float_char (snd (sign s)) -> all float_char s.
Proof.
  unfold sign. destruct s as [|c s]; simpl; auto.
  destruct c as [[] [] [] [] [] [] [] []]; simpl; auto;
    intros H; constructor; auto.
Qed.

Lemma lstrip_float s : all float_char (lstrip s) -> all float_char s.
Proof.
  induction s as [|c s IH]; simpl; auto.
  destruct (is_cspace c) eqn:E; auto. intros H. constructor; auto.
  apply cspace_float, E.
Qed.

Lemma strip_float s : all float_char (strip s) -> all float_char s.
Proof.
  unfold strip. intros H. apply lstrip_float.
  apply Forall_rev in H. rewrite rev_involutive in H.
  apply lstrip_float in H. apply Forall_rev in H.
  rewrite rev_involutive in H. exact H.
Qed.

Lemma drop_underscores_float s :
  forall prev s1,
    drop_underscores prev s = Some s1 -> all float_char s1 -> all float_char s.
Proof.
  induction s as [|c s IH]; intros prev s1; simpl; [constructor|].
  destruct (Ascii.eqb_spec c "_") as [->|Hc].
  - destruct prev as [p|]; [|discriminate].
    destruct (Str.is_digit p); [|discriminate].
    intros H H1. constructor; [reflexivity | eauto].
  - assert (Hk : option_map (cons c) (drop_underscores (Some c) s) = Some s1 ->
                 all float_char s1 -> all float_char (c :: s)).
    { destruct (drop_underscores (Some c) s) as [t|] eqn:E; [|discriminate].
      simpl. intros H H1. inversion H; subst. inversion H1; subst.
      constructor; eauto. }
    destruct prev as [p|]; [|exact Hk].
    destruct (Ascii.eqb_spec p "_") as [->|Hp].
    + destruct (Str.is_digit c); [exact Hk | discriminate].
    + destruct p as [[] [] [] [] [] [] [] []]; try exact Hk; congruence.
Qed.

Lemma exponent_float s e : exponent s = Some e -> all float_char s.
Proof.
  unfold exponent. destruct s as [|c s]; [constructor|].
  destruct (Ascii.eqb c "e" || Ascii.eqb c "E") eqn:Ec; [|discriminate].
  destruct (sign s) as [sg s2] eqn:Es.
  pose proof (digits_spec s2) as [Hd1 Hd2].
  destruct (digits s2) as [ds r]. simpl in *.
  destruct ds as [|d ds]; [discriminate|]. destruct r; [|discriminate].
  intros _. constructor; [apply mark_float, Ec|].
  apply sign_float. rewrite Es. simpl. rewrite Hd1, app_nil_r.
  apply all_digits_float, Hd2.
Qed.

Lemma fraction_spec s1 :
  all Str.is_digit (fst (fraction s1))
  /\ (all float_char (snd (fraction s1)) -> all float_char s1).
Proof.
  destruct s1 as [|c t]; [split; [constructor | auto]|].
  destruct c as [[] [] [] [] [] [] [] []];
    try (split; [constructor | auto]).
  unfold fraction. pose proof (digits_spec t) as [H3 H4].
  destruct (digits t) as [fp s2]. simpl in *. split; [exact H4|].
  intros H. constructor; [reflexivity|]. rewrite H3.
  apply Forall_app. split; [apply all_digits_float, H4 | exact H].
Qed.

Lemma decimal_float s m e : decimal s = Some (m, e) -> all float_char s.
Proof.
  unfold decimal.
  pose proof (digits_spec s) as [H1 H2]. destruct (digits s) as [ip s1].
  simpl in *. rewrite H1.
  assert (Hrest :
    forall (ds fp s2 : str),
      match ds with
      | [] => None
      | a :: l =>
          match exponent s2 with
          | Some e0 =>
              Some (Str.int_of_digits (a :: l), (e0 - Z.of_nat (length fp))%Z)
          | None => None
          end
      end = Some (m, e) -> all float_char s2).
  { intros ds fp s2. destruct ds; [discriminate|].
    destruct (exponent s2) as [e0|] eqn:E; [|discriminate].
    intros _. eapply exponent_float; eauto. }
  pose proof (all_digits_float _ H2) as Hip.
  pose proof (fraction_spec s1) as [H3 H4].
  destruct (fraction s1) as [fp s2]. simpl in *.
  intros H. apply Hrest in H. apply Forall_app. auto.
Qed.

Lemma eqb_eq a : forall b, Str.eqb a b = true -> a = b.
Proof.
  induction a as [|x a IH]; intros [|y b]; simpl; try discriminate; auto.
  intros H. apply andb_prop in H. destruct H as [H1 H2].
  apply Ascii.eqb_eq in H1. subst. f_equal. auto.
Qed.

Lemma special_float body (w : str) :
  forallb (fun x => existsb (Ascii.eqb x) ("infinityan" : str)) w = true ->
  Str.eqb (Str.lower body) w = true -> all float_char body.
Proof.
  intros Hw H. apply eqb_eq in H. subst w. unfold Str.lower in Hw.
  rewrite forallb_forall in Hw. apply Forall_forall. intros c Hc.
  apply letter_float, Hw, in_map, Hc.
Qed.

Lemma float_accepts s v : float s = Ret v -> all float_char s.
Proof.
  unfold float.
  assert (H : forall s1,
    (let (sg, body) := sign (strip s1) in
     let l := Str.lower body in
     if Str.eqb l "inf" || Str.eqb l "infinity" then Ret (S754_infinity sg)
     else if Str.eqb l "nan" then Ret S754_nan
     else match decimal body with
          | Some (m, e) => Ret (of_decimal sg m e)
          | None => Raise ValueError
          end) = Ret v -> all float_char s1).
  { intros s1 H. apply strip_float, sign_float.
    destruct (sign (strip s1)) as [sg body]. cbv zeta in H. cbn [snd].
    destruct (Str.eqb (Str.lower body) "inf") eqn:E1;
      [eapply special_float; [|exact E1]; reflexivity|].
    destruct (Str.eqb (Str.lower body) "infinity") eqn:E2;
      [eapply special_float; [|exact E2]; reflexivity|].
    destruct (Str.eqb (Str.lower body) "nan") eqn:E3;
      [eapply special_float; [|exact E3]; reflexivity|].
    cbn [orb] in H. destruct (decimal body) as [[m e]|] eqn:Ed; [|discriminate].
    eapply decimal_float; eauto. }
  destruct (existsb (Ascii.eqb "_") s); [|apply H].
  destruct (drop_underscores None s) as [s1|] eqn:E; [|discriminate].
  intros Hv. eapply drop_underscores_float; eauto.
Qed.

(** A text with a character no float is written with is not a number
    for [_parse_amount]. *)
Lemma parse_amount_foreign s c :
  In c (clean_amount s) -> float_char c = false -> _parse_amount s = Ret zero.
Proof.
  intros Hin Hc. unfold _parse_amount.
  destruct (float (clean_amount s)) as [v|e] eqn:E.
  - apply float_accepts in E. rewrite Forall_forall in E.
    rewrite (E c Hin) in Hc. discriminate.
  - apply float_raises in E. subst e. reflexivity.
Qed.

(** Theorem-level facts on [_parse_amount]. *)
Lemma parse_amount_total s : exists v, _parse_amount s = Ret v.
Proof.
  unfold _parse_amount. destruct (float (clean_amount s)) as [v|e] eqn:E; eauto.
  apply float_raises in E. subst e. eauto.
Qed.

Lemma parse_amount_number s v :
  all amount_char s -> _parse_amount s = Ret v -> is_number v.
Proof.
  intros Hs. unfold _parse_amount. rewrite (clean_amount_plain _ Hs).
  pose proof (all_filter amount_char clean_char (fun c => negb (noise c)) s amount_char_clean Hs) as Hc.
  destruct (float _) as [v'|e] eqn:E.
  - intros H. inversion H; subst. eexists. apply (float_clean _ _ Hc E).
  - apply float_raises in E. subst e. intros H. inversion H. exists false.
    reflexivity.
Qed.

Lemma parse_amount_plus s v :
  all column_char s -> _parse_amount s = Ret v -> has_sign false v.
Proof.
  intros Hs. unfold _parse_amount.
  rewrite (clean_amount_plain _ (Forall_impl _ column_is_amount Hs)).
  pose proof (all_filter column_char unsigned_char (fun c => negb (noise c)) s column_char_clean Hs) as Hc.
  destruct (float _) as [v'|e] eqn:E.
  - intros H. inversion H; subst.
    pose proof (float_clean _ _ (Forall_impl _ unsigned_clean Hc) E) as Hv.
    rewrite (sign_plus unsigned_char _ eq_refl (all_strip _ _ Hc)) in Hv.
    exact Hv.
  - apply float_raises in E. subst e. intros H. inversion H. reflexivity.
Qed.

End AmountFacts.

(** ** The texts [float] accepts *)
Module LiteralFacts.
Import PyFloat PyFloatFacts AmountFacts StatementParser.

Local Unset Implicit Arguments.

(** Digits. *)
Lemma digits_app d r :
  all Str.is_digit d ->
  match r with [] => True | c :: _ => Str.is_digit c = false end ->
  digits (d ++ r) = (d, r).
Proof.
  intros Hd Hr. induction Hd as [|c d Hc Hd IH]; simpl.
  - destruct r as [|c r]; [reflexivity|]. simpl. rewrite Hr. reflexivity.
  - rewrite Hc, IH. reflexivity.
Qed.

Lemma digits_all d : all Str.is_digit d -> digits d = (d, []).
Proof.
  intros H. pose proof (digits_app d [] H I) as E.
  rewrite app_nil_r in E. exact E.
Qed.

Lemma digits_inv s d r :
  digits s = (d, r) -> s = d ++ r /\ all Str.is_digit d.
Proof.
  intros H. pose proof (digits_spec s) as [H1 H2]. rewrite H in *. auto.
Qed.

(** Signs. *)
Lemma sign_split x : exists sg, sign_text sg /\ x = sg ++ snd (sign x).
Proof.
  destruct x as [|c x]; [exists []; split; [left; reflexivity | reflexivity]|].
  destruct c as [[] [] [] [] [] [] [] []];
    first [ exists []; split; [left; reflexivity | reflexivity]
          | exists ["+"%char]; split; [right; left; reflexivity | reflexivity]
          | exists ["-"%char]; split; [right; right; reflexivity | reflexivity] ].
Qed.

Lemma sign_unmarked c x :
  Ascii.eqb c "+" = false -> Ascii.eqb c "-" = false ->
  snd (sign (c :: x)) = c :: x.
Proof.
  destruct c as [[] [] [] [] [] [] [] []]; intros H1 H2;
    first [reflexivity | discriminate].
Qed.

Lemma sign_of sg body :
  sign_text sg ->
  match body with
  | [] => False
  | c :: _ => Ascii.eqb c "+" = false /\ Ascii.eqb c "-" = false
  end ->
  snd (sign (sg ++ body)) = body.
Proof.
  intros [->|[->| ->]] Hb; try reflexivity.
  destruct body as [|c x]; [contradiction|]. destruct Hb as [H1 H2].
  apply sign_unmarked; assumption.
Qed.

(** White space. *)
Lemma lstrip_split s : exists l, blank_text l /\ s = l ++ lstrip s.
Proof.
  induction s as [|c s (l & Hl & IH)]; [exists []; split; [constructor | reflexivity]|].
  simpl. destruct (is_cspace c) eqn:E.
  - exists (c :: l). split; [constructor; assumption|]. simpl. f_equal. exact IH.
  - exists []. split; [constructor | reflexivity].
Qed.

Lemma strip_split s :
  exists l r, blank_text l /\ blank_text r /\ s = l ++ strip s ++ r.
Proof.
  destruct (lstrip_split s) as (l & Hl & E1).
  destruct (lstrip_split (rev (lstrip s))) as (r & Hr & E2).
  exists l, (rev r). split; [exact Hl|]. split; [apply Forall_rev, Hr|].
  unfold strip. rewrite <- rev_app_distr, <- E2, rev_involutive. exact E1.
Qed.

Lemma lstrip_blank_app l x : blank_text l -> lstrip (l ++ x) = lstrip x.
Proof.
  induction 1 as [|c l Hc _ IH]; simpl; [reflexivity|]. rewrite Hc. exact IH.
Qed.

Lemma lstrip_solid x :
  Forall (fun c => is_cspace c = false) x -> forall r, lstrip (x ++ r) = match x with [] => lstrip r | _ => x ++ r end.
Proof.
  intros [|c t Hc _] r; simpl; [reflexivity|]. rewrite Hc. reflexivity.
Qed.

Lemma strip_solid l x r :
  blank_text l -> blank_text r -> Forall (fun c => is_cspace c = false) x ->
  strip (l ++ x ++ r) = x.
Proof.
  intros Hl Hr Hx. unfold strip. rewrite (lstrip_blank_app _ _ Hl).
  rewrite (lstrip_solid x Hx). destruct x as [|c t].
  - pose proof (lstrip_blank_app r [] Hr) as E. rewrite app_nil_r in E.
    rewrite E. reflexivity.
  - rewrite rev_app_distr, (lstrip_blank_app _ _ (Forall_rev Hr)).
    pose proof (lstrip_solid (rev (c :: t)) (Forall_rev Hx) []) as E.
    rewrite app_nil_r in E. rewrite E.
    destruct (rev (c :: t)) eqn:Er.
    + apply (f_equal (@length ascii)) in Er. rewrite length_rev in Er.
      discriminate.
    + rewrite <- Er. apply rev_involutive.
Qed.

(** The characters of a literal. *)
Lemma literal_solid c : literal_char c = true -> is_cspace c = false.
Proof. each_char c. Qed.

Lemma digit_literal c : Str.is_digit c = true -> literal_char c = true.
Proof. each_char c. Qed.

Lemma all_digit_literal d : digit_text d -> all literal_char d.
Proof. apply Forall_impl. exact digit_literal. Qed.

Lemma sign_literal sg : sign_text sg -> all literal_char sg.
Proof. intros [->|[->| ->]]; repeat constructor. Qed.

Lemma exponent_literal ex : exponent_text ex -> all literal_char ex.
Proof.
  intros [->|(e & sg & d & He & Hsg & Hd & _ & ->)]; [constructor|].
  constructor; [destruct He as [->| ->]; reflexivity|].
  apply Forall_app. split; [apply sign_literal, Hsg | apply all_digit_literal, Hd].
Qed.

Lemma decimal_literal b : decimal_text b -> all literal_char b.
Proof.
  intros (ip & fp & ex & Hi & Hf & _ & He & [->|[-> ->]]).
  - apply Forall_app. split; [apply all_digit_literal, Hi|].
    constructor; [reflexivity|]. apply Forall_app.
    split; [apply all_digit_literal, Hf | apply exponent_literal, He].
  - apply Forall_app.
    split; [apply all_digit_literal, Hi | apply exponent_literal, He].
Qed.

Lemma letter_literal c :
  In (Str.lower_char c) ("infinityan" : str) -> literal_char c = true.
Proof.
  intros H. unfold literal_char.
  assert (E : existsb (Ascii.eqb (Str.lower_char c)) ("infinityan" : str) = true).
  { apply existsb_exists. exists (Str.lower_char c). split; [exact H|].
    apply Ascii.eqb_refl. }
  rewrite E. apply orb_true_r.
Qed.

Lemma special_literal b : special_text b -> all literal_char b.
Proof.
  intros H. apply Forall_forall. intros c Hc. apply letter_literal.
  apply (in_map Str.lower_char) in Hc. fold (Str.lower b) in Hc.
  destruct H as [H|[H|H]]; rewrite H in Hc; simpl in Hc |- *; intuition.
Qed.

Lemma body_literal b : decimal_text b \/ special_text b -> all literal_char b.
Proof. intros [H|H]; [apply decimal_literal | apply special_literal]; exact H. Qed.

(** The first character of a number is no sign. *)
Lemma digit_unmarked c :
  Str.is_digit c = true -> Ascii.eqb c "+" = false /\ Ascii.eqb c "-" = false.
Proof. each_char c; split; reflexivity. Qed.

Lemma letter_unmarked c :
  In (Str.lower_char c) ("infinityan" : str) ->
  Ascii.eqb c "+" = false /\ Ascii.eqb c "-" = false.
Proof.
  destruct (Ascii.eqb_spec c "+") as [->|]; [simpl; intuition discriminate|].
  destruct (Ascii.eqb_spec c "-") as [->|]; [simpl; intuition discriminate|].
  auto.
Qed.

Lemma body_unmarked b :
  decimal_text b \/ special_text b ->
  match b with
  | [] => False
  | c :: _ => Ascii.eqb c "+" = false /\ Ascii.eqb c "-" = false
  end.
Proof.
  intros [(ip & fp & ex & Hi & Hf & Hne & He & Hb)|H].
  - destruct ip as [|c ip].
    + destruct Hb as [->|[-> ->]]; [split; reflexivity|]. contradiction.
    + inversion Hi; subst.
      destruct Hb as [->|[_ ->]]; simpl; apply digit_unmarked; assumption.
  - destruct b as [|c b]; [destruct H as [H|[H|H]]; discriminate|].
    apply letter_unmarked.
    destruct H as [H|[H|H]]; injection H as H _; rewrite H; simpl; auto.
Qed.

(** Exponents and decimal numbers: what the reader accepts. *)
Lemma exponent_sound s e : exponent s = Some e -> exponent_text s.
Proof.
  unfold exponent. destruct s as [|c s]; [left; reflexivity|].
  destruct (Ascii.eqb c "e" || Ascii.eqb c "E") eqn:Ec; [|discriminate].
  destruct (sign_split s) as (sg & Hsg & Es).
  destruct (sign s) as [b s2]. cbn [snd] in Es.
  destruct (digits s2) as [ds r] eqn:Ed. apply digits_inv in Ed.
  destruct Ed as [E2 Hd].
  destruct ds as [|d ds]; [discriminate|]. destruct r; [|discriminate].
  intros _. right. exists c, sg, (d :: ds).
  split; [apply orb_prop in Ec; destruct Ec as [Ec|Ec];
          apply Ascii.eqb_eq in Ec; auto|].
  split; [exact Hsg|]. split; [exact Hd|]. split; [discriminate|].
  rewrite app_nil_r in E2. rewrite Es, E2. reflexivity.
Qed.

Lemma exponent_complete ex : exponent_text ex -> exists e, exponent ex = Some e.
Proof.
  intros [->|(e & sg & d & He & Hsg & Hd & Hne & ->)]; [eexists; reflexivity|].
  unfold exponent.
  assert (Ec : Ascii.eqb e "e" || Ascii.eqb e "E" = true)
    by (destruct He as [->| ->]; reflexivity).
  rewrite Ec. destruct d as [|x d]; [contradiction|].
  assert (Es : snd (sign (sg ++ x :: d)) = x :: d).
  { apply sign_of; [exact Hsg|]. inversion Hd; subst.
    apply digit_unmarked; assumption. }
  destruct (sign (sg ++ x :: d)) as [b s2]. cbn [snd] in Es. subst s2.
  rewrite (digits_all _ Hd). eexists. reflexivity.
Qed.

Lemma fraction_inv s1 fp s2 :
  fraction s1 = (fp, s2) ->
  (s1 = "."%char :: fp ++ s2 /\ all Str.is_digit fp) \/ (fp = [] /\ s2 = s1).
Proof.
  destruct s1 as [|c t]; [intros H; injection H as <- <-; auto|].
  destruct c as [[] [] [] [] [] [] [] []];
    try (intros H; injection H as <- <-; right; split; reflexivity).
  unfold fraction. intros H. apply digits_inv in H. destruct H as [-> H].
  left. auto.
Qed.

Lemma decimal_sound b m e : decimal b = Some (m, e) -> decimal_text b.
Proof.
  unfold decimal. destruct (digits b) as [ip s1] eqn:E1.
  apply digits_inv in E1. destruct E1 as [-> Hi].
  destruct (fraction s1) as [fp s2] eqn:E2. apply fraction_inv in E2.
  destruct (ip ++ fp) as [|a ds] eqn:Eds; [discriminate|].
  destruct (exponent s2) as [e0|] eqn:Ee; [|discriminate].
  intros _. apply exponent_sound in Ee.
  assert (Hne : ip ++ fp <> []) by (rewrite Eds; discriminate).
  destruct E2 as [[-> Hf]|[-> ->]].
  - exists ip, fp, s2. repeat (split; [assumption|]). left. reflexivity.
  - exists ip, [], s1. split; [exact Hi|]. split; [constructor|].
    split; [exact Hne|]. split; [exact Ee|]. right. auto.
Qed.

Lemma exponent_start ex :
  exponent_text ex ->
  match ex with [] => True | c :: _ => Str.is_digit c = false end
  /\ fraction ex = ([], ex).
Proof.
  intros [->|(e & sg & d & He & _ & _ & _ & ->)]; [split; [exact I | reflexivity]|].
  destruct He as [->| ->]; split; reflexivity.
Qed.

Lemma decimal_complete b : decimal_text b -> exists m e, decimal b = Some (m, e).
Proof.
  intros (ip & fp & ex & Hi & Hf & Hne & He & Hb).
  destruct (exponent_complete ex He) as [e0 Ee].
  destruct (exponent_start ex He) as [Hx Hfr].
  unfold decimal. destruct Hb as [->|[-> ->]].
  - rewrite (digits_app ip ("."%char :: fp ++ ex) Hi eq_refl). unfold fraction.
    rewrite (digits_app fp ex Hf Hx).
    destruct (ip ++ fp) as [|a ds]; [contradiction|]. rewrite Ee. eauto.
  - rewrite (digits_app ip ex Hi Hx), Hfr.
    destruct (ip ++ []) as [|a ds]; [contradiction|]. rewrite Ee. eauto.
Qed.

Lemma eqb_refl (a : str) : Str.eqb a a = true.
Proof.
  induction a as [|x a IH]; simpl; [reflexivity|].
  rewrite Ascii.eqb_refl. exact IH.
Qed.

(** Underscores. *)
Lemma ungroup_mark s : ungroup ("_"%char :: s) = ungroup s.
Proof. reflexivity. Qed.

Lemma ungroup_other c s : c <> "_"%char -> ungroup (c :: s) = c :: ungroup s.
Proof.
  intros H. unfold ungroup. simpl.
  destruct (Ascii.eqb_spec c "_"); [contradiction | reflexivity].
Qed.

Lemma drop_sound s :
  forall prev s1,
    drop_underscores prev s = Some s1 ->
    s1 = ungroup s
    /\ (forall a b, s = a ++ "_"%char :: b -> digit_before prev a /\ digit_first b)
    /\ (prev = Some "_"%char -> digit_first s).
Proof.
  induction s as [|c s IH]; intros prev s1 H.
  - split; [|split].
    + destruct prev as [[[] [] [] [] [] [] [] []]|]; simpl in H;
        first [discriminate | injection H as <-; reflexivity].
    + intros a b E. destruct a; discriminate.
    + intros ->. simpl in H. discriminate.
  - cbn [drop_underscores] in H.
    destruct (Ascii.eqb_spec c "_") as [->|Hc].
    + destruct prev as [p|]; [|discriminate].
      destruct (Str.is_digit p) eqn:Ep; [|discriminate].
      apply IH in H. destruct H as (-> & H1 & H2).
      split; [reflexivity|]. split.
      * intros a b E. destruct a as [|x a].
        -- simpl in E. injection E as <-.
           split; [exists p; split; [reflexivity | exact Ep] | apply H2; reflexivity].
        -- simpl in E. injection E as <- ->. apply (H1 a b eq_refl).
      * intros E. injection E as ->. discriminate.
    + assert (Hk : option_map (cons c) (drop_underscores (Some c) s) = Some s1 ->
                   s1 = ungroup (c :: s)
                   /\ (forall a b, c :: s = a ++ "_"%char :: b ->
                                   digit_before prev a /\ digit_first b)).
      { destruct (drop_underscores (Some c) s) as [t|] eqn:E; [|discriminate].
        simpl. intros Ht. injection Ht as <-. apply IH in E.
        destruct E as (-> & H1 & _). split; [symmetry; apply ungroup_other, Hc|].
        intros a b E. destruct a as [|x a]; simpl in E; injection E as E1 E2;
          [contradiction|]. subst. apply (H1 a b eq_refl). }
      destruct prev as [p|];
        [|destruct (Hk H) as [A B]; split; [exact A|]; split; [exact B|];
          discriminate].
      destruct (Ascii.eqb_spec p "_") as [->|Hp].
      * destruct (Str.is_digit c) eqn:Ec; [|discriminate].
        destruct (Hk H) as [A B]. split; [exact A|]. split; [exact B|].
        intros _. exists c, s. auto.
      * destruct p as [[] [] [] [] [] [] [] []];
          first [ contradiction Hp; reflexivity
                | destruct (Hk H) as [A B]; split; [exact A|]; split; [exact B|];
                  intros E; discriminate E ].
Qed.

Lemma drop_complete s :
  forall prev,
    (forall a b, s = a ++ "_"%char :: b -> digit_before prev a /\ digit_first b) ->
    (prev = Some "_"%char -> digit_first s) ->
    drop_underscores prev s = Some (ungroup s).
Proof.
  induction s as [|c s IH]; intros prev H1 H2.
  - destruct prev as [p|]; [|reflexivity].
    destruct (Ascii.eqb_spec p "_") as [->|Hp].
    + destruct (H2 eq_refl) as (y & b' & E & _). discriminate.
    + destruct p as [[] [] [] [] [] [] [] []];
        first [contradiction Hp; reflexivity | reflexivity].
  - cbn [drop_underscores].
    destruct (Ascii.eqb_spec c "_") as [->|Hc].
    + destruct (H1 [] s eq_refl) as [(x & Hx & Dx) Hf]. simpl in Hx.
      rewrite Hx, Dx, ungroup_mark. apply IH.
      * intros a b E. subst s. rewrite Hx in H1.
        apply (H1 ("_"%char :: a) b eq_refl).
      * intros _. exact Hf.
    + assert (IHc : drop_underscores (Some c) s = Some (ungroup s)).
      { apply IH.
        - intros a b E. subst s. apply (H1 (c :: a) b eq_refl).
        - intros E. injection E as ->. contradiction. }
      rewrite (ungroup_other _ _ Hc).
      destruct prev as [p|]; [|rewrite IHc; reflexivity].
      destruct (Ascii.eqb_spec p "_") as [->|Hp].
      * destruct (H2 eq_refl) as (y & b' & E & Dy). injection E as <- <-.
        rewrite Dy, IHc. reflexivity.
      * destruct p as [[] [] [] [] [] [] [] []];
          first [contradiction Hp; reflexivity | rewrite IHc; reflexivity].
Qed.

Lemma plain_grouped s :
  existsb (Ascii.eqb "_") s = false -> ungroup s = s /\ grouped s.
Proof.
  intros H. split.
  - induction s as [|c s IH]; [reflexivity|]. simpl in H.
    apply orb_false_elim in H. destruct H as [Hc Hs].
    rewrite ungroup_other, (IH Hs); [reflexivity|].
    intros ->. discriminate.
  - intros a b E. subst s. rewrite existsb_app in H. simpl in H.
    rewrite orb_true_r in H. discriminate.
Qed.

Lemma grouped_plain s :
  grouped s ->
  (if existsb (Ascii.eqb "_") s then drop_underscores None s else Some s)
  = Some (ungroup s).
Proof.
  intros H. destruct (existsb (Ascii.eqb "_") s) eqn:E.
  - apply drop_complete; [exact H | discriminate].
  - destruct (plain_grouped s E) as [-> _]. reflexivity.
Qed.

(** [float] accepts a text exactly when it is written as a number. *)
Lemma float_sound s v : float s = Ret v -> float_text s.
Proof.
  unfold float.
  destruct (if existsb (Ascii.eqb "_") s then drop_underscores None s else Some s)
    as [s1|] eqn:E1; [|discriminate].
  assert (Hs1 : s1 = ungroup s /\ grouped s).
  { destruct (existsb (Ascii.eqb "_") s) eqn:Eu.
    - apply drop_sound in E1. destruct E1 as (-> & H1 & _). auto.
    - injection E1 as <-. destruct (plain_grouped s Eu) as [-> Hg]. auto. }
  destruct Hs1 as [-> Hg]. clear E1.
  destruct (strip_split (ungroup s)) as (l & r & Hl & Hr & Es).
  destruct (sign_split (strip (ungroup s))) as (sg & Hsg & Eg).
  destruct (sign (strip (ungroup s))) as [b body]. cbn [snd] in Eg.
  cbv zeta. intros H. split; [exact Hg|].
  exists l, sg, body, r. split; [exact Hl|]. split; [exact Hr|].
  split; [exact Hsg|]. split; [|rewrite Es at 1; rewrite Eg, <- app_assoc; reflexivity].
  destruct (Str.eqb (Str.lower body) "inf") eqn:Ei;
    [right; left; apply eqb_eq, Ei|].
  destruct (Str.eqb (Str.lower body) "infinity") eqn:Ej;
    [right; right; left; apply eqb_eq, Ej|].
  destruct (Str.eqb (Str.lower body) "nan") eqn:En;
    [right; right; right; apply eqb_eq, En|].
  cbn [orb] in H. destruct (decimal body) as [[m e]|] eqn:Ed; [|discriminate].
  left. eapply decimal_sound, Ed.
Qed.

Lemma float_complete s : float_text s -> exists v, float s = Ret v.
Proof.
  intros (Hg & l & sg & body & r & Hl & Hr & Hsg & Hb & Es).
  unfold float. rewrite (grouped_plain s Hg), Es.
  assert (Hx : Forall (fun c => is_cspace c = false) (sg ++ body)).
  { apply Forall_app. split.
    - apply (Forall_impl _ literal_solid), sign_literal, Hsg.
    - apply (Forall_impl _ literal_solid), body_literal, Hb. }
  replace (l ++ sg ++ body ++ r) with (l ++ (sg ++ body) ++ r)
    by (rewrite <- app_assoc; reflexivity).
  rewrite (strip_solid _ _ _ Hl Hr Hx).
  pose proof (sign_of sg body Hsg (body_unmarked body Hb)) as E.
  destruct (sign (sg ++ body)) as [b body']. cbn [snd] in E. subst body'.
  cbv zeta.
  destruct (Str.eqb (Str.lower body) "inf" || Str.eqb (Str.lower body) "infinity")
    eqn:Ei; [eauto|].
  destruct (Str.eqb (Str.lower body) "nan") eqn:En; [eauto|].
  destruct Hb as [Hd|[H|[H|H]]].
  - destruct (decimal_complete body Hd) as (m & e & ->). eauto.
  - rewrite H in Ei. discriminate.
  - rewrite H in Ei. discriminate.
  - rewrite H in En. discriminate.
Qed.

(** The spellings of infinity and of NaN are accepted, with the value
    they spell. *)
Lemma literal_no_mark c : literal_char c = true -> Ascii.eqb "_" c = false.
Proof. each_char c. Qed.

Lemma literal_plain t : all literal_char t -> existsb (Ascii.eqb "_") t = false.
Proof.
  induction 1 as [|c t Hc _ IH]; cbn [existsb]; [reflexivity|].
  rewrite (literal_no_mark c Hc), IH. reflexivity.
Qed.

Lemma sign_none c x :
  Ascii.eqb c "+" = false -> Ascii.eqb c "-" = false ->
  sign (c :: x) = (false, c :: x).
Proof.
  destruct c as [[] [] [] [] [] [] [] []]; intros H1 H2;
    first [reflexivity | discriminate].
Qed.

Lemma special_value t :
  special_text t ->
  float t = Ret (if Str.eqb (Str.lower t) "nan" then S754_nan
                 else S754_infinity false).
Proof.
  intros H. pose proof (special_literal t H) as Hl.
  pose proof (body_unmarked t (or_intror H)) as Hu.
  unfold float. rewrite (literal_plain t Hl).
  pose proof (strip_solid [] t [] (Forall_nil _) (Forall_nil _)
                (Forall_impl _ literal_solid Hl)) as Es.
  cbn [app] in Es. rewrite app_nil_r in Es. rewrite Es.
  destruct t as [|c x]; [contradiction|]. destruct Hu as [H1 H2].
  rewrite (sign_none c x H1 H2). cbv zeta.
  destruct H as [H|[H|H]]; rewrite H; reflexivity.
Qed.

(** What [_parse_amount] makes of the text it hands to [float]. *)
Lemma parse_amount_not_text s :
  ~ float_text (clean_amount s) -> _parse_amount s = Ret zero.
Proof.
  intros H. unfold _parse_amount.
  destruct (float (clean_amount s)) as [v|e] eqn:E.
  - exfalso. apply H. apply (float_sound _ v E).
  - apply float_raises in E. subst e. reflexivity.
Qed.

Lemma parse_amount_text s :
  float_text (clean_amount s) ->
  exists v, float (clean_amount s) = Ret v /\ _parse_amount s = Ret v.
Proof.
  intros H. apply float_complete in H. destruct H as [v H].
  exists v. split; [exact H|]. unfold _parse_amount. rewrite H. reflexivity.
Qed.

Lemma parse_amount_special s :
  special_text (clean_amount s) ->
  _parse_amount s
  = Ret (if Str.eqb (Str.lower (clean_amount s)) "nan" then S754_nan
         else S754_infinity false).
Proof.
  intros H. unfold _parse_amount. rewrite (special_value _ H). reflexivity.
Qed.

End LiteralFacts.


(** ** Dates *)

Module DateFacts.
Import Re ReSpec ReFacts Datetime StatementParser.
Local Open Scope Z_scope.

Lemma group_lang_has_group fl r n w :
  group_lang fl r n w -> has_group r n = true.
Proof.
  induction r as [ | cs | r1 IH1 r2 IH2 | r1 IH1 r2 IH2 | cs lo hi g
                   | r1 IH1 | k r1 IH1 | ]; simpl; try contradiction; auto.
  - intros [H|H]; [rewrite IH1 | rewrite IH2]; auto using orb_true_r.
  - intros [H|H]; [rewrite IH1 | rewrite IH2]; auto using orb_true_r.
  - intros [[-> _]|H]; [rewrite Nat.eqb_refl | rewrite IH1];
      auto using orb_true_r.
Qed.

(** A group the pattern lacks is [None] in every match. *)
Lemma matched_no_group p m n :
  matched p m -> has_group (p_regex p) n = false -> group m n = None.
Proof.
  intros Hm Hg. destruct (group m n) as [w|] eqn:E; [|reflexivity].
  eapply matched_group in E; [|exact Hm].
  apply group_lang_has_group in E. congruence.
Qed.

Lemma make_inv y m d dt :
  make y m d = Ret dt ->
  dt = {| year := y; month := m; day := d |} /\ valid_date y m d = true.
Proof.
  unfold make. destruct (valid_date y m d); [|discriminate].
  intros H. inversion H. auto.
Qed.

Lemma make_raises y m d e : make y m d = Raise e -> e = ValueError.
Proof. unfold make. destruct (valid_date y m d); congruence. Qed.

Lemma strptime_raises s fmt e : strptime s fmt = Raise e -> e = ValueError.
Proof.
  unfold strptime. destruct (time_re false fmt); [|congruence].
  destruct (match_at _ s) as [found|]; [|congruence].
  destruct (rest found); [apply make_raises | congruence].
Qed.

Lemma strptime_inv s fmt dt :
  strptime s fmt = Ret dt ->
  exists r found,
    time_re false fmt = Some r /\ matched (format_pattern r) found
    /\ dt = {| year := year_of found; month := month_of found;
               day := day_of found |}
    /\ valid_date (year dt) (month dt) (day dt) = true.
Proof.
  unfold strptime. destruct (time_re false fmt) as [r|]; [|discriminate].
  destruct (match_at _ s) as [found|] eqn:E; [|discriminate].
  destruct (rest found); [|discriminate].
  intros H. apply make_inv in H. destruct H as [-> Hv].
  exists r, found. repeat split; auto. exists s. exact E.
Qed.

(** Every date [strptime] returns is a date of the calendar. *)
Lemma strptime_valid s fmt dt :
  strptime s fmt = Ret dt -> valid_date (year dt) (month dt) (day dt) = true.
Proof.
  intros H. apply strptime_inv in H. destruct H as (r & f & _ & _ & _ & H).
  exact H.
Qed.

Lemma year_of_default r found :
  matched (format_pattern r) found ->
  has_group r gY = false -> has_group r gy = false -> year_of found = 1900.
Proof.
  intros Hm HY Hy. unfold year_of.
  rewrite (@matched_no_group _ found gY Hm HY), (@matched_no_group _ found gy Hm Hy).
  reflexivity.
Qed.

(** A format of [_parse_date] without a year gives the year 1900. *)
Lemma strptime_default_year s fmt dt :
  In fmt formats -> carries_year fmt = false ->
  strptime s fmt = Ret dt -> year dt = 1900.
Proof.
  intros Hin Hc H. apply strptime_inv in H.
  destruct H as (r & found & Hr & Hm & -> & _). simpl.
  unfold formats in Hin. simpl in Hin.
  repeat (destruct Hin as [<-|Hin]); try contradiction;
    try (vm_compute in Hc; discriminate);
    vm_compute in Hr; inversion Hr; subst r;
    apply (@year_of_default _ found Hm); reflexivity.
Qed.

Lemma days_from_1900 y m : days_in_month 1900 m <= days_in_month y m.
Proof.
  unfold days_in_month. change (is_leap 1900) with false.
  destruct (m =? 2); [destruct (is_leap y)|]; lia.
Qed.

Lemma replace_year_ok dt y :
  valid_date (year dt) (month dt) (day dt) = true -> year dt = 1900 ->
  1 <= y <= 9999 ->
  replace_year dt y = Ret {| year := y; month := month dt; day := day dt |}.
Proof.
  intros Hv Hy Hr. unfold replace_year, make. rewrite Hy in Hv.
  pose proof (days_from_1900 y (month dt)) as Hd.
  unfold valid_date in *.
  repeat (apply andb_prop in Hv; destruct Hv as [Hv ?]).
  replace ((1 <=? y) && (y <=? 9999)) with true by (symmetry; lia).
  simpl. replace (1 <=? month dt) with true by lia.
  replace (month dt <=? 12) with true by lia.
  replace (1 <=? day dt) with true by lia.
  replace (day dt <=? days_in_month y (month dt)) with true by (symmetry; lia).
  reflexivity.
Qed.

Lemma year_given_usable year : usable_year year -> year_given year = year.
Proof. destruct year as [[|p|p]|]; simpl; intros H; auto; lia. Qed.

Lemma try_format_ok s year fmt dt :
  usable_year year -> In fmt formats -> strptime s fmt = Ret dt ->
  try_format s year fmt = Ret (if carries_year fmt then dt else with_year dt year).
Proof.
  intros Hu Hin H. unfold try_format. rewrite H. unfold bind.
  pose proof (@strptime_default_year s fmt dt Hin) as Hd.
  rewrite (year_given_usable _ Hu).
  unfold carries_year, with_year in *.
  destruct year as [y|].
  - destruct (Str.contains "%Y" fmt), (Str.contains "%y" fmt);
      cbn [negb andb orb] in *; auto.
    apply replace_year_ok; eauto using strptime_valid.
  - destruct (_ || _); reflexivity.
Qed.

Lemma try_format_fail s year fmt e :
  strptime s fmt = Raise e -> try_format s year fmt = Raise e.
Proof. intros H. unfold try_format. rewrite H. reflexivity. Qed.

Lemma try_format_raises s year fmt e :
  try_format s year fmt = Raise e -> e = ValueError.
Proof.
  unfold try_format. destruct (strptime s fmt) as [dt|e'] eqn:E; simpl.
  - destruct (year_given year); [|discriminate].
    destruct (_ && _); [apply make_raises | discriminate].
  - intros H. inversion H; subst. eapply strptime_raises; eauto.
Qed.

(** [_parse_date] raises nothing. *)
Lemma parse_date_loop_total fmts s year :
  exists r, parse_date_loop fmts s year = Ret r.
Proof.
  induction fmts as [|fmt fmts IH]; simpl; eauto.
  destruct (try_format s year fmt) as [dt|e] eqn:E; eauto.
  apply try_format_raises in E. subst e. exact IH.
Qed.

Lemma parse_date_total s year : exists r, _parse_date s year = Ret r.
Proof. apply parse_date_loop_total. Qed.

(** The loop returns what the first format that parses gives. *)
Lemma parse_date_loop_first s year pre fmt post dt :
  (forall f, In f pre -> try_format s year f = Raise ValueError) ->
  try_format s year fmt = Ret dt ->
  parse_date_loop (pre ++ fmt :: post) s year = Ret (Some dt).
Proof.
  intros Hpre H. induction pre as [|f pre IH]; simpl.
  - rewrite H. reflexivity.
  - rewrite (Hpre f (or_introl eq_refl)). apply IH.
    intros f' Hf'. apply Hpre. right. exact Hf'.
Qed.

Lemma parse_date_loop_none s year fmts :
  (forall f, In f fmts -> try_format s year f = Raise ValueError) ->
  parse_date_loop fmts s year = Ret None.
Proof.
  induction fmts as [|f fmts IH]; simpl; intros H; [reflexivity|].
  rewrite (H f (or_introl eq_refl)). apply IH. intros f' Hf'. apply H. auto.
Qed.

(** The shape of a statement period. *)
Lemma digit_char_is_digit x : Str.is_digit (digit_char x) = true.
Proof.
  unfold digit_char. pose proof (Z.mod_pos_bound x 10 ltac:(lia)) as Hb.
  set (r := x mod 10) in *.
  assert (Hr : r = 0 \/ r = 1 \/ r = 2 \/ r = 3 \/ r = 4 \/ r = 5 \/ r = 6
               \/ r = 7 \/ r = 8 \/ r = 9) by lia.
  repeat (destruct Hr as [->|Hr]; [reflexivity|]). rewrite Hr. reflexivity.
Qed.

Lemma padded_shape y m :
  1 <= m <= 12 -> yyyy_mm (zfill4 y ++ "-"%char :: zfill2 m) = true.
Proof.
  intros Hm.
  unfold zfill4, zfill2, yyyy_mm, yyyy. cbn [app]. cbv iota beta.
  rewrite !digit_char_is_digit. cbn [andb].
  assert (Hr : m = 1 \/ m = 2 \/ m = 3 \/ m = 4 \/ m = 5 \/ m = 6 \/ m = 7
               \/ m = 8 \/ m = 9 \/ m = 10 \/ m = 11 \/ m = 12) by lia.
  repeat (destruct Hr as [->|Hr]; [reflexivity|]). rewrite Hr. reflexivity.
Qed.

(** The year in decimal gives the shape YYYY-MM from the year 1000 on,
    and a shorter text before. *)
Lemma year_digits_shape y m :
  1 <= m <= 12 ->
  (yyyy_mm (year_digits y ++ "-"%char :: zfill2 m) = true <-> 1000 <= y).
Proof.
  intros Hm. unfold year_digits.
  destruct (y <? 10) eqn:E1;
    [split; [intros H; discriminate H | lia]|].
  destruct (y <? 100) eqn:E2;
    [split; [intros H; discriminate H | lia]|].
  destruct (y <? 1000) eqn:E3;
    [split; [intros H; discriminate H | lia]|].
  rewrite (@padded_shape y m Hm). split; [lia | reflexivity].
Qed.

Lemma period_of_cases text :
  match strptime text "%B %d %Y" with
  | Ret dt =>
      period_of text = Ret (year_digits (year dt) ++ "-"%char :: zfill2 (month dt))
      /\ 1 <= year dt <= 9999 /\ 1 <= month dt <= 12
  | Raise e => period_of text = Raise e
  end.
Proof.
  unfold period_of. destruct (strptime text "%B %d %Y") as [dt|e] eqn:E;
    [|reflexivity].
  split; [reflexivity|].
  apply strptime_valid in E. unfold valid_date in E.
  repeat (apply andb_prop in E; destruct E as [E ?]). lia.
Qed.

End DateFacts.

(** ** The loops of the strategies *)

Module LoopFacts.
Import Re ReSpec ReFacts.

Lemma bind_inv (A B : Type) (m : res A) (f : A -> res B) b :
  bind m f = Ret b -> exists a, m = Ret a /\ f a = Ret b.
Proof. destruct m as [a|e]; simpl; [eauto | discriminate]. Qed.

Lemma group_within_lang fl P r n w :
  group_within (IGNORECASE fl) P r n = true ->
  group_lang fl r n w -> Forall (fun c => P c = true) w.
Proof.
  induction r as [ | cs | r1 IH1 r2 IH2 | r1 IH1 r2 IH2 | cs lo hi g
                   | r1 IH1 | k r1 IH1 | ]; simpl; try contradiction; auto.
  - intros H [L|L]; apply andb_prop in H; destruct H; auto.
  - intros H [L|L]; apply andb_prop in H; destruct H; auto.
  - intros H [[-> L]|L]; apply andb_prop in H; destruct H as [H1 H2]; auto.
    rewrite Nat.eqb_refl in H1. simpl in H1. eapply within_lang; eauto.
Qed.

(** The characters of a group of a match, read as a string. *)
Lemma group_str_chars p m n P :
  matched p m ->
  group_within (IGNORECASE (p_flags p)) P (p_regex p) n = true ->
  Forall (fun c => P c = true) (group_str m n).
Proof.
  intros Hm Hw. unfold group_str. destruct (group m n) as [w|] eqn:E.
  - eapply group_within_lang; eauto. eapply matched_group; eauto.
  - constructor.
Qed.

(** Every transaction of the loop over the matches was there before or
    comes from the body at one of the matches. *)
Lemma for_matches_inv (A : Type) (body : Match -> res (option A)) ms :
  forall acc l,
    for_matches body ms acc = Ret l ->
    forall t, In t l -> In t acc \/ exists m, In m ms /\ body m = Ret (Some t).
Proof.
  induction ms as [|m ms IH]; simpl; intros acc l H t Ht.
  - inversion H; subst. auto.
  - apply bind_inv in H. destruct H as (r & Hr & H).
    destruct (IH _ _ H t Ht) as [Hin|(m' & Hm' & Hb)]; [|eauto].
    destruct r as [t'|]; auto. apply in_app_or in Hin.
    destruct Hin as [Hin|[<-|[]]]; eauto.
Qed.

Lemma for_matches_total (A : Type) (body : Match -> res (option A)) ms :
  (forall m, exists r, body m = Ret r) ->
  forall acc, exists l, for_matches body ms acc = Ret l.
Proof.
  intros Hb. induction ms as [|m ms IH]; simpl; intros acc; eauto.
  destruct (Hb m) as [r ->]. simpl. apply IH.
Qed.

Lemma for_matches_all (A : Type) (P : A -> Prop)
      (body : Match -> res (option A)) ms acc l :
  (forall m t, In m ms -> body m = Ret (Some t) -> P t) ->
  Forall P acc -> for_matches body ms acc = Ret l -> Forall P l.
Proof.
  intros Hb Hacc H. apply Forall_forall. intros t Ht.
  destruct (for_matches_inv _ _ _ H t Ht) as [Hin|(m & Hm & Hr)]; eauto.
  rewrite Forall_forall in Hacc. auto.
Qed.

(** What every scan keeps, the loop over the patterns keeps. *)
Lemma pattern_loop_all (A : Type) (P : A -> Prop)
      (scan : pattern -> list A -> res (list A)) ps :
  (forall p acc l, In p ps -> Forall P acc -> scan p acc = Ret l -> Forall P l) ->
  forall acc l,
    Forall P acc -> pattern_loop scan ps acc = Ret l -> Forall P l.
Proof.
  induction ps as [|p ps IH]; simpl; intros Hs acc l Hacc H.
  - inversion H; subst. exact Hacc.
  - apply bind_inv in H. destruct H as (l' & Hl' & H).
    assert (Hl : Forall P l') by (apply (Hs p acc l' (or_introl eq_refl) Hacc Hl')).
    destruct l' as [|x l'].
    + apply (IH (fun q a k Hq => Hs q a k (or_intror Hq)) [] l Hl H).
    + inversion H; subst. exact Hl.
Qed.

(** With scans that raise nothing, the loop over the patterns returns
    the first scan that is not empty. *)
Lemma pattern_loop_first (A : Type) (scan : pattern -> list A -> res (list A)) ps :
  (forall p, exists l, scan p [] = Ret l) ->
  pattern_loop scan ps []
  = Ret (first_nonempty (map (fun p => value [] (scan p [])) ps)).
Proof.
  intros Hs. induction ps as [|p ps IH]; simpl; [reflexivity|].
  destruct (Hs p) as [l Hl]. rewrite Hl. simpl.
  destruct l; [exact IH | reflexivity].
Qed.

End LoopFacts.

(** ** The strategies: what [parse] returns *)

Module ParseFacts.
Import Re ReSpec ReFacts LoopFacts StatementParser.

Lemma chase_cases now doc :
  (exists e, ChaseParser.parse now doc = failure "Chase" "credit_card" e)
  \/ (exists text l,
        extract_full_text doc = Ret text
        /\ for_matches (ChaseParser.line (infer_year now text))
             (finditer ChaseParser.transaction_pattern text) [] = Ret l
        /\ ChaseParser.parse now doc
           = ok_result "Chase" "credit_card" (ChaseParser.find_account text)
               (ChaseParser.find_period text) l).
Proof.
  unfold ChaseParser.parse.
  destruct (extract_full_text doc) as [text|e]; unfold bind; [|left; eauto].
  destruct (for_matches _ _ _) as [l|e] eqn:E; [right | left]; eauto 10.
Qed.

Lemma amex_cases now doc :
  (exists e, AmexParser.parse now doc = failure "American Express" "credit_card" e)
  \/ (exists text l,
        extract_full_text doc = Ret text
        /\ pattern_loop (AmexParser.scan (infer_year now text) text)
             AmexParser.patterns [] = Ret l
        /\ AmexParser.parse now doc
           = ok_result "American Express" "credit_card"
               (AmexParser.find_account text) (AmexParser.find_period text) l).
Proof.
  unfold AmexParser.parse.
  destruct (extract_full_text doc) as [text|e]; unfold bind; [|left; eauto].
  destruct (pattern_loop (AmexParser.scan (infer_year now text) text)
              AmexParser.patterns []) as [l|e] eqn:E; [right | left]; eauto 10.
Qed.

Lemma truist_cases now doc :
  (exists e, TruistParser.parse now doc = failure "Truist" "checking" e)
  \/ (exists text l,
        extract_full_text doc = Ret text
        /\ pattern_loop (TruistParser.scan (infer_year now text) text)
             TruistParser.patterns [] = Ret l
        /\ TruistParser.parse now doc
           = ok_result "Truist"
               (if Str.contains "savings" (Str.lower text)
                then "savings" else "checking")
               (TruistParser.find_account text) (TruistParser.find_period text) l).
Proof.
  unfold TruistParser.parse.
  destruct (extract_full_text doc) as [text|e]; unfold bind; [|left; eauto].
  destruct (pattern_loop (TruistParser.scan (infer_year now text) text)
              TruistParser.patterns []) as [l|e] eqn:E; [right | left]; eauto 10.
Qed.

Lemma generic_cases now doc :
  (exists e, GenericParser.parse now doc = failure "Unknown" "unknown" e)
  \/ (exists text l,
        extract_full_text doc = Ret text
        /\ for_matches (GenericParser.line (infer_year now text))
             (finditer GenericParser.pattern_ text) [] = Ret l
        /\ GenericParser.parse now doc
           = ok_result (GenericParser.guess_institution text) "unknown"
               None None l).
Proof.
  unfold GenericParser.parse.
  destruct (extract_full_text doc) as [text|e]; unfold bind; [|left; eauto].
  destruct (for_matches _ _ _) as [l|e] eqn:E; [right | left]; eauto 10.
Qed.

(** Whatever the strategy, a result is a failure with a message and no
    transaction, or a success without a message. *)
Lemma parse_shape p now doc :
  (exists inst acct e,
      StatementParserFactory.parse_with p now doc = failure inst acct e)
  \/ (exists inst acct ident period l,
        StatementParserFactory.parse_with p now doc
        = ok_result inst acct ident period l).
Proof.
  destruct p; simpl.
  - destruct (chase_cases now doc) as [[e ->]|(t & l & _ & _ & ->)]; eauto 10.
  - destruct (amex_cases now doc) as [[e ->]|(t & l & _ & _ & ->)]; eauto 10.
  - destruct (truist_cases now doc) as [[e ->]|(t & l & _ & _ & ->)]; eauto 10.
  - destruct (generic_cases now doc) as [[e ->]|(t & l & _ & _ & ->)]; eauto 10.
Qed.

(** Every transaction of a result comes from the body of the loop, at a
    match of a pattern of the strategy. *)
Lemma chase_transactions (P : ExtractedTransaction -> Prop) now doc :
  (forall year m t,
      matched ChaseParser.transaction_pattern m ->
      ChaseParser.line year m = Ret (Some t) -> P t) ->
  Forall P (transactions (ChaseParser.parse now doc)).
Proof.
  intros H.
  destruct (chase_cases now doc) as [[e ->]|(text & l & _ & Hl & ->)]; simpl;
    [constructor|].
  eapply for_matches_all; [|constructor|exact Hl].
  intros m t Hm. apply H. eapply finditer_matched; eauto.
Qed.

Lemma generic_transactions (P : ExtractedTransaction -> Prop) now doc :
  (forall year m t,
      matched GenericParser.pattern_ m ->
      GenericParser.line year m = Ret (Some t) -> P t) ->
  Forall P (transactions (GenericParser.parse now doc)).
Proof.
  intros H.
  destruct (generic_cases now doc) as [[e ->]|(text & l & _ & Hl & ->)]; simpl;
    [constructor|].
  eapply for_matches_all; [|constructor|exact Hl].
  intros m t Hm. apply H. eapply finditer_matched; eauto.
Qed.

Lemma amex_transactions (P : ExtractedTransaction -> Prop) now doc :
  (forall year p m t,
      In p AmexParser.patterns -> matched p m ->
      AmexParser.line year m = Ret (Some t) -> P t) ->
  Forall P (transactions (AmexParser.parse now doc)).
Proof.
  intros H.
  destruct (amex_cases now doc) as [[e ->]|(text & l & _ & Hl & ->)]; simpl;
    [constructor|].
  eapply pattern_loop_all; [|constructor|exact Hl].
  intros p acc l' Hp Hacc Hs. unfold AmexParser.scan in Hs.
  eapply for_matches_all; [|exact Hacc|exact Hs].
  intros m t Hm Hb.
  refine (H _ p m t Hp _ Hb). eapply finditer_matched; eauto.
Qed.

Lemma truist_transactions (P : ExtractedTransaction -> Prop) now doc :
  (forall year p m t,
      In p TruistParser.patterns -> matched p m ->
      TruistParser.line year p m = Ret (Some t) -> P t) ->
  Forall P (transactions (TruistParser.parse now doc)).
Proof.
  intros H.
  destruct (truist_cases now doc) as [[e ->]|(text & l & _ & Hl & ->)]; simpl;
    [constructor|].
  eapply pattern_loop_all; [|constructor|exact Hl].
  intros p acc l' Hp Hacc Hs. unfold TruistParser.scan in Hs.
  eapply for_matches_all; [|exact Hacc|exact Hs].
  intros m t Hm Hb.
  refine (H _ p m t Hp _ Hb). eapply finditer_matched; eauto.
Qed.

End ParseFacts.

(** ** The strategies: what a line and the metadata searches give *)

Module StrategyFacts.
Import Re ReSpec ReFacts LoopFacts StatementParser.
Import PyFloatFacts AmountFacts DateFacts.

Ltac total_step :=
  match goal with
  | |- exists r, Ret _ = Ret r => eexists; reflexivity
  | |- context [_parse_date ?s ?y] =>
      destruct (parse_date_total s y) as [? ->]
  | |- context [_parse_amount ?s] =>
      destruct (parse_amount_total s) as [? ->]
  | |- context [bind (Ret _) _] => progress cbn [bind]
  | |- context [match ?x with Some _ => _ | None => _ end] => destruct x
  | |- context [if ?b then _ else _] => destruct b
  end.

(** No line raises. *)
Lemma chase_line_total year m : exists r, ChaseParser.line year m = Ret r.
Proof. unfold ChaseParser.line. repeat total_step. Qed.

Lemma amex_line_total year m : exists r, AmexParser.line year m = Ret r.
Proof. unfold AmexParser.line. repeat total_step. Qed.

Lemma truist_line_total year p m : exists r, TruistParser.line year p m = Ret r.
Proof.
  unfold TruistParser.line, TruistParser.amount_and_type. repeat total_step.
Qed.

Lemma generic_line_total year m : exists r, GenericParser.line year m = Ret r.
Proof. unfold GenericParser.line. repeat total_step. Qed.

Lemma amex_scan_total year text p acc :
  exists l, AmexParser.scan year text p acc = Ret l.
Proof. apply for_matches_total. apply amex_line_total. Qed.

Lemma truist_scan_total year text p acc :
  exists l, TruistParser.scan year text p acc = Ret l.
Proof. apply for_matches_total. apply truist_line_total. Qed.

(** Steps through the body of a line that returned a transaction. *)
Ltac line_step :=
  match goal with
  | |- Ret None = Ret (Some _) -> _ => discriminate
  | |- Raise _ = Ret _ -> _ => discriminate
  | |- context [bind (Ret _) _] => progress cbn [bind]
  | |- context [bind (Raise _) _] => progress cbn [bind]
  | |- context [_parse_date ?s ?y] => destruct (_parse_date s y) as [[?|]|?]
  | |- context [Str.any_in ?k ?s] => destruct (Str.any_in k s)
  | |- context [(length ?s <? 3)%nat] => destruct (Nat.ltb_spec (length s) 3)
  end.

Ltac amount_of s v E :=
  destruct (_parse_amount s) as [v|?] eqn:E; cbn [bind]; [|discriminate].

Ltac emitted :=
  let H := fresh in
  intros H; inversion H; subst; clear H;
  unfold sign_consistent; cbn [trans_type amount merchant].

Ltac signs :=
  repeat match goal with
         | |- context [if ?b then _ else _] => destruct b eqn:?
         end;
  cbn [trans_type amount];
  eauto using nonneg_abs, nonpos_neg_abs, ltb_zero_leb, zero_ltb_leb,
    not_pos_nonpos, plus_nonneg, plus_neg_nonpos.

(** The sign convention, line by line. *)
Lemma chase_line_sign year m t :
  matched ChaseParser.transaction_pattern m ->
  ChaseParser.line year m = Ret (Some t) -> sign_consistent t.
Proof.
  intros Hm. unfold ChaseParser.line.
  assert (Hc : Forall (fun c => amount_char c = true) (group_str m 3))
    by (apply group_str_chars with (p := ChaseParser.transaction_pattern);
        [exact Hm | vm_compute; reflexivity]).
  repeat line_step. amount_of (group_str m 3) v Ev.
  destruct (parse_amount_number _ _ Hc Ev) as [sg Hsg].
  emitted. signs.
Qed.

Lemma amex_line_sign year p m t :
  In p AmexParser.patterns -> matched p m ->
  AmexParser.line year m = Ret (Some t) -> sign_consistent t.
Proof.
  intros Hp Hm. unfold AmexParser.line.
  assert (Hc : Forall (fun c => amount_char c = true) (group_str m 3)).
  { apply group_str_chars with (p := p); [exact Hm|].
    destruct Hp as [<-|[<-|[]]]; vm_compute; reflexivity. }
  repeat line_step. amount_of (group_str m 3) v Ev.
  destruct (parse_amount_number _ _ Hc Ev) as [sg Hsg].
  destruct (PyFloat.ltb v PyFloat.zero) eqn:El.
  - emitted. signs.
  - destruct (_ || _); emitted; signs.
Qed.

Lemma group_chars p m n w P :
  matched p m -> group m n = Some w ->
  group_within (IGNORECASE (p_flags p)) P (p_regex p) n = true ->
  Forall (fun c => P c = true) w.
Proof.
  intros Hm Hg Hw. eapply group_within_lang; eauto. eapply matched_group; eauto.
Qed.

Lemma truist_line_sign year p m t :
  In p TruistParser.patterns -> matched p m ->
  TruistParser.line year p m = Ret (Some t) -> sign_consistent t.
Proof.
  intros Hp Hm. unfold TruistParser.line, TruistParser.amount_and_type.
  destruct Hp as [<-|[<-|[]]]; cbn [p_groups Nat.leb].
  - destruct (group m 3) as [debit|] eqn:E3; cbn [truthy fstr].
    + destruct debit as [|c debit].
      * destruct (group m 4) as [[|c credit]|] eqn:E4; cbn [truthy fstr bind];
          try discriminate.
        amount_of (c :: credit) v Ev.
        assert (Hv : has_sign false v).
        { eapply parse_amount_plus; [|exact Ev].
          eapply group_chars; [exact Hm | exact E4 | vm_compute; reflexivity]. }
        repeat line_step. emitted. signs.
      * amount_of (c :: debit) v Ev.
        assert (Hv : has_sign false v).
        { eapply parse_amount_plus; [|exact Ev].
          eapply group_chars; [exact Hm | exact E3 | vm_compute; reflexivity]. }
        repeat line_step. emitted. signs.
    + destruct (group m 4) as [[|c credit]|] eqn:E4; cbn [truthy fstr bind];
        try discriminate.
      amount_of (c :: credit) v Ev.
      assert (Hv : has_sign false v).
      { eapply parse_amount_plus; [|exact Ev].
        eapply group_chars; [exact Hm | exact E4 | vm_compute; reflexivity]. }
      repeat line_step. emitted. signs.
  - amount_of (group_str m 3) v Ev.
    assert (Hc : Forall (fun c => amount_char c = true) (group_str m 3))
      by (eapply group_str_chars; [exact Hm | vm_compute; reflexivity]).
    destruct (parse_amount_number _ _ Hc Ev) as [sg Hsg].
    repeat line_step. emitted. signs.
Qed.

Lemma generic_line_sign year m t :
  matched GenericParser.pattern_ m ->
  GenericParser.line year m = Ret (Some t) -> sign_consistent t.
Proof.
  intros Hm. unfold GenericParser.line.
  assert (Hc : Forall (fun c => amount_char c = true) (group_str m 3))
    by (eapply group_str_chars; [exact Hm | vm_compute; reflexivity]).
  repeat line_step. amount_of (group_str m 3) v Ev.
  destruct (parse_amount_number _ _ Hc Ev) as [sg Hsg].
  emitted. signs.
Qed.

(** The check on the length of the merchant, where a line has it. *)
Lemma amex_line_merchant year m t :
  AmexParser.line year m = Ret (Some t) -> 3 <= length (merchant t).
Proof.
  unfold AmexParser.line. repeat line_step.
  amount_of (group_str m 3) v Ev.
  destruct (if PyFloat.ltb v PyFloat.zero then _ else _).
  emitted. assumption.
Qed.

Lemma truist_line_merchant year p m t :
  TruistParser.line year p m = Ret (Some t) -> 3 <= length (merchant t).
Proof.
  unfold TruistParser.line.
  destruct (TruistParser.amount_and_type p m) as [[[v ty]|]|e]; cbn [bind];
    try discriminate.
  repeat line_step. emitted. assumption.
Qed.

Lemma generic_line_merchant year m t :
  GenericParser.line year m = Ret (Some t) -> 3 <= length (merchant t).
Proof.
  unfold GenericParser.line. repeat line_step.
  amount_of (group_str m 3) v Ev. emitted. assumption.
Qed.

(** In a match of a pattern of the transaction lines the date and the
    description took part, and so did the amount where the pattern has
    three groups: [group_str] never falls on its default. *)
Lemma line_groups_take_part p m :
  In p line_patterns -> matched p m ->
  (exists w, group m 1 = Some w)
  /\ (exists w, group m 2 = Some w)
  /\ (p_groups p = 3 -> exists w, group m 3 = Some w).
Proof.
  intros Hp Hm. unfold line_patterns in Hp. simpl in Hp.
  repeat (destruct Hp as [<-|Hp]); try contradiction;
    (split; [|split; [|intros Hg]]);
    try (apply (@matched_sets _ m _ Hm); [reflexivity | simpl; lia]);
    discriminate.
Qed.

(** The metadata searches. *)
Lemma four_digits fl w :
  lang fl (times CDigit 4 4) w -> length w = 4 /\ yyyy w = true.
Proof.
  simpl. intros (Hd & Hlo & Hhi). split; [lia|].
  destruct w as [|a [|b [|c [|d [|e w]]]]]; simpl in Hlo, Hhi; try lia.
  repeat match goal with
         | H : Forall _ (_ :: _) |- _ => inversion H; subst; clear H
         end.
  unfold mem in *. simpl in *. unfold yyyy.
  repeat match goal with H : Str.is_digit _ = true |- _ => rewrite H; clear H end.
  reflexivity.
Qed.

Lemma chase_account text a :
  ChaseParser.find_account text = Some a -> length a = 4.
Proof.
  unfold ChaseParser.find_account.
  destruct (search ChaseParser.account_re text) as [m|] eqn:E; [|discriminate].
  intros H. apply search_matched in E.
  eapply matched_group in H; [|exact E].
  assert (L : lang ignorecase (times CDigit 4 4) a)
    by (cbn -[lang] in H; intuition (try contradiction; try discriminate)).
  apply (four_digits L).
Qed.

Lemma truist_account text a :
  TruistParser.find_account text = Some a -> length a = 4.
Proof.
  unfold TruistParser.find_account.
  destruct (search TruistParser.account_re text) as [m|] eqn:E; [|discriminate].
  intros H. apply search_matched in E.
  eapply matched_group in H; [|exact E].
  assert (L : lang ignorecase (times CDigit 4 4) a)
    by (cbn -[lang] in H; intuition (try contradiction; try discriminate)).
  apply (four_digits L).
Qed.

Lemma amex_account text a :
  AmexParser.find_account text = Some a -> length a = 4.
Proof.
  unfold AmexParser.find_account.
  destruct (search AmexParser.account_re text) as [m|] eqn:E; [|discriminate].
  intros H. inversion H; subst; clear H. apply search_matched in E.
  destruct (@matched_sets _ m 1 E) as [w Hw]; [reflexivity | simpl; lia |].
  unfold group_str. rewrite Hw.
  eapply matched_group in Hw; [|exact E].
  assert (L : lang ignorecase (times CDigit 4 5) w)
    by (cbn -[lang] in Hw; intuition (try contradiction; try discriminate)).
  simpl in L. destruct L as (_ & Hlo & Hhi).
  unfold Str.last_n. rewrite length_skipn. lia.
Qed.

Lemma parsed_period p end_text end_year period :
  period_of end_text = Ret period -> period_from p end_text end_year period.
Proof.
  unfold period_from. pose proof (period_of_cases end_text) as H.
  destruct (Datetime.strptime end_text "%B %d %Y") as [dt|e].
  - destruct H as (-> & Hy & Hm). intros E. injection E as <-.
    split; [reflexivity|]. split; [exact Hy|]. split; [exact Hm|].
    apply year_digits_shape, Hm.
  - rewrite H. discriminate.
Qed.

Lemma chase_period text period :
  ChaseParser.find_period text = Some period ->
  exists end_text end_year,
    period_end StatementParserFactory.Chase text = Some (end_text, end_year)
    /\ period_from StatementParserFactory.Chase end_text end_year period.
Proof.
  unfold ChaseParser.find_period, period_end.
  destruct (search ChaseParser.period_re text) as [m|] eqn:E; [|discriminate].
  cbn [option_map]. intros H. do 2 eexists. split; [reflexivity|].
  destruct (period_of _) as [q|e] eqn:Eq; injection H as <-.
  - apply parsed_period, Eq.
  - unfold period_from. pose proof (period_of_cases (fstr (group m 3) ++ " " ++ fstr (group m 4))) as Hc.
    destruct (Datetime.strptime _ "%B %d %Y") as [dt|e'].
    + destruct Hc as [Hc _]. rewrite Hc in Eq. discriminate.
    + split; [reflexivity|]. split; [reflexivity|].
      apply search_matched in E.
      destruct (@matched_sets _ m 4 E) as [w Hw]; [reflexivity | simpl; lia |].
      change (yyyy (fstr (group m 4)) = true).
      rewrite Hw. cbn [fstr]. eapply matched_group in Hw; [|exact E].
      assert (L : lang ignorecase (times CDigit 4 4) w)
        by (cbn -[lang] in Hw; intuition (try contradiction; try discriminate)).
      apply (four_digits L).
Qed.

Lemma amex_period text period :
  AmexParser.find_period text = Some period ->
  exists end_text end_year,
    period_end StatementParserFactory.Amex text = Some (end_text, end_year)
    /\ period_from StatementParserFactory.Amex end_text end_year period.
Proof.
  unfold AmexParser.find_period, period_end.
  destruct (search AmexParser.period_re text) as [m|]; [|discriminate].
  cbn [option_map]. intros H. do 2 eexists. split; [reflexivity|].
  destruct (period_of _) as [q|e] eqn:Eq; [|discriminate].
  injection H as <-. apply parsed_period, Eq.
Qed.

Lemma truist_period text period :
  TruistParser.find_period text = Some period ->
  exists end_text end_year,
    period_end StatementParserFactory.Truist text = Some (end_text, end_year)
    /\ period_from StatementParserFactory.Truist end_text end_year period.
Proof.
  unfold TruistParser.find_period, period_end.
  destruct (search TruistParser.period_re text) as [m|]; [|discriminate].
  cbn [option_map]. intros H. do 2 eexists. split; [reflexivity|].
  destruct (period_of _) as [q|e] eqn:Eq; [|discriminate].
  injection H as <-. apply parsed_period, Eq.
Qed.

End StrategyFacts.

(** ** The model at work *)

Module Examples.
Import Re StatementParser.

(** [float]: nearest binary64 value, ties to even; the special spellings;
    what it rejects. *)
Example float_tenth :
  PyFloat.float "0.1" = Ret (S754_finite false 7205759403792794 (-56)).
Proof. vm_compute. reflexivity. Qed.

Example float_tie_to_even :
  PyFloat.float "9007199254740993" = Ret (S754_finite false 4503599627370496 1).
Proof. vm_compute. reflexivity. Qed.

Example float_underscore : PyFloat.float "1_000.5" = PyFloat.float "1000.5".
Proof. vm_compute. reflexivity. Qed.

Example float_nan : PyFloat.float "nan" = Ret S754_nan.
Proof. vm_compute. reflexivity. Qed.

Example float_two_signs : PyFloat.float "--1" = Raise ValueError.
Proof. vm_compute. reflexivity. Qed.

(** The value of the literal [1234.56]: 0x1.34a3d70a3d70ap+10. *)
Example literal_1234_56 :
  PyFloat.literal 123456 (-2) = S754_finite false 5429652300748554 (-42).
Proof. vm_compute. reflexivity. Qed.

(** The rewrites of [_parse_amount] before [float]. *)
Example clean_amount_parentheses : clean_amount "( 5 )" = ("-5" : str).
Proof. vm_compute. reflexivity. Qed.

Example clean_amount_both : clean_amount "(1CR)" = ("--1" : str).
Proof. vm_compute. reflexivity. Qed.

(** [strptime]: the 29th of February has no year 1900. *)
Example strptime_feb_29 : Datetime.strptime "02/29" "%m/%d" = Raise ValueError.
Proof. vm_compute. reflexivity. Qed.

Example strptime_two_digit_year :
  Datetime.strptime "03/15/69" "%m/%d/%y"
  = Ret {| Datetime.year := 1969; Datetime.month := 3; Datetime.day := 15 |}.
Proof. vm_compute. reflexivity. Qed.

Example strptime_month_name :
  Datetime.strptime "MARCH 15" "%B %d"
  = Ret {| Datetime.year := 1900; Datetime.month := 3; Datetime.day := 15 |}.
Proof. vm_compute. reflexivity. Qed.

(** The lazy description of a transaction line stops at the first
    amount. *)
Example finditer_line :
  map (fun m => (group m 1, group m 2, group m 3))
    (finditer ChaseParser.transaction_pattern "03/02 GROCERY 42.10 3.00 4957.90")
  = [(Some ("03/02" : str), Some ("GROCERY" : str), Some ("42.10" : str))].
Proof. vm_compute. reflexivity. Qed.

(** Two purchases of a statement, in the year found in its text. *)
Example two_purchases :
  let text : str :=
    "Chase credit card 2024" ++ newline_str
    ++ "03/01 STARBUCKS #123 $5.42" ++ newline_str
    ++ "03/02 AMAZON.COM *ABC123 $42.10" in
  let r := StatementParserFactory.parse 2030 (Opened [Extracted (Some text)]) in
  success r = true
  /\ map (fun t => (date t, merchant t, amount t, trans_type t, raw_text t))
       (transactions r)
     = [({| Datetime.year := 2024; Datetime.month := 3; Datetime.day := 1 |},
         "STARBUCKS #123" : str, PyFloat.literal 542 (-2), purchase,
         "03/01 STARBUCKS #123 $5.42" : str);
        ({| Datetime.year := 2024; Datetime.month := 3; Datetime.day := 2 |},
         "AMAZON.COM *ABC123" : str, PyFloat.literal 4210 (-2), purchase,
         "03/02 AMAZON.COM *ABC123 $42.10" : str)].
Proof. vm_compute. split; reflexivity. Qed.

(** A document that cannot be opened. *)
Example unreadable :
  ChaseParser.parse 2024 (Unreadable "no such file")
  = failure "Chase" "credit_card" (PdfError "no such file").
Proof. reflexivity. Qed.

End Examples.

(** * The claims *)

(** C5.  For the result of any strategy's [parse]: [error_message] is
    present exactly when [success] is false, and a result with [success]
    false has no transactions. *)
Theorem C5_error_message_iff_failure :
  forall (p : StatementParserFactory.parser) (now_year : Z) (doc : pdf),
    let r := StatementParserFactory.parse_with p now_year doc in
    (error_message r <> None <-> success r = false)
    /\ (success r = false -> transactions r = []).
Proof.
  intros p now doc r. subst r.
  destruct (ParseFacts.parse_shape p now doc)
    as [(i & a & e & ->)|(i & a & id & pe & l & ->)]; simpl.
  - split; [split|]; intros; auto; discriminate.
  - split; [split|]; intros; try discriminate; congruence.
Qed.

(** C10.  The generic fallback returns no account identifier, no
    statement period and the account type "unknown", whatever the
    document holds. *)
Theorem C10_generic_has_no_metadata :
  forall (now_year : Z) (doc : pdf),
    let r := GenericParser.parse now_year doc in
    account_identifier r = None
    /\ statement_period r = None
    /\ account_type r = "unknown".
Proof.
  intros now doc r. subst r.
  destruct (ParseFacts.generic_cases now doc) as [[e ->]|(t & l & _ & _ & ->)];
    simpl; auto.
Qed.

(** C2, as it stands, fails: a text with the brand keyword "chase" alone
    is given to the generic fallback, and a text with the keywords of two
    institutions goes to the first of them in the order of the selector,
    here American Express although "truist" is in the text. *)
Lemma C2_counterexample :
  let chase_only := Opened [Extracted (Some ("Chase Bank statement" : str))] in
  let both := Opened [Extracted (Some ("Truist account, paid with Amex" : str))] in
  Str.contains "chase" (Str.lower (StatementParserFactory.detection_text chase_only)) = true
  /\ StatementParserFactory.get_parser chase_only = StatementParserFactory.Generic
  /\ Str.contains "truist" (Str.lower (StatementParserFactory.detection_text both)) = true
  /\ StatementParserFactory.get_parser both = StatementParserFactory.Amex.
Proof. vm_compute. repeat split; reflexivity. Qed.

(** C2, amended.  On the text of the first two pages, lower-cased: with
    "chase" and one of "jpmorgan", "jpmcb", "credit card" the selector
    returns the Chase strategy; otherwise with "american express" or
    "amex" the American Express strategy; otherwise with "truist", "bb&t"
    or "suntrust" the Truist strategy; and the generic fallback in no
    other case than when none of these holds. *)
Theorem C2_selector_by_keywords :
  forall doc : pdf,
    let t := Str.lower (StatementParserFactory.detection_text doc) in
    let chase :=
      Str.contains "chase" t
      && (Str.contains "jpmorgan" t || Str.contains "jpmcb" t
          || Str.contains "credit card" t) in
    let amex := Str.contains "american express" t || Str.contains "amex" t in
    let truist :=
      Str.contains "truist" t || Str.contains "bb&t" t
      || Str.contains "suntrust" t in
    StatementParserFactory.get_parser doc
    = (if chase then StatementParserFactory.Chase
       else if amex then StatementParserFactory.Amex
       else if truist then StatementParserFactory.Truist
       else StatementParserFactory.Generic)
    /\ (StatementParserFactory.get_parser doc = StatementParserFactory.Generic
        <-> chase || amex || truist = false).
Proof.
  intros doc t chase amex truist.
  assert (H : StatementParserFactory.get_parser doc
              = (if chase then StatementParserFactory.Chase
                 else if amex then StatementParserFactory.Amex
                 else if truist then StatementParserFactory.Truist
                 else StatementParserFactory.Generic)).
  { unfold StatementParserFactory.get_parser, StatementParserFactory.select.
    unfold StatementParserFactory.parsers, find, StatementParserFactory.can_parse.
    unfold ChaseParser.can_parse, AmexParser.can_parse, TruistParser.can_parse,
      GenericParser.can_parse.
    fold t. fold chase. fold amex. fold truist.
    destruct chase, amex, truist; reflexivity. }
  split; [exact H|]. rewrite H.
  destruct chase, amex, truist; simpl; split; intros; congruence.
Qed.


(** C3, where it fails.  The texts "nan" and "Infinity" have no digit
    and are no numbers, yet their amounts are NaN and infinity, not
    0.0. *)
Lemma C3_counterexample :
  (existsb Str.is_digit ("nan" : str) = false
   /\ StatementParser._parse_amount "nan" = Ret S754_nan
   /\ S754_nan <> PyFloat.zero)
  /\ (existsb Str.is_digit ("Infinity" : str) = false
      /\ StatementParser._parse_amount "Infinity" = Ret (S754_infinity false)
      /\ S754_infinity false <> PyFloat.zero).
Proof.
  split; (split; [vm_compute; reflexivity|]);
    (split; [vm_compute; reflexivity | discriminate]).
Qed.

(** C3, amended.  [_parse_amount] raises nothing; it gives 1234.56 for
    "$1,234.56", -12.00 for "(12.00)" and -45.00 for "45.00CR".  Let the
    text left be the text after the currency signs, the commas and the
    white space have been dropped and the parentheses and the CR suffix
    have been turned into a minus sign.  The amount is 0.0 whenever the
    text left is not written as a number, that is, is not: an optional
    sign, then a decimal number (digits, with or without a point, with
    or without an exponent, underscores between digits allowed) or a
    spelling of infinity or of NaN.  When the text left is written so,
    the amount is what [float] reads; for the spellings of NaN and of
    infinity it is NaN and infinity, not 0.0.  The amount is 0.0, in
    particular, as soon as the text left has a character no float is
    written with. *)
Theorem C3_parse_amount :
  (forall amount_str, exists v, StatementParser._parse_amount amount_str = Ret v)
  /\ StatementParser._parse_amount "$1,234.56" = Ret (PyFloat.literal 123456 (-2))
  /\ StatementParser._parse_amount "(12.00)"
     = Ret (PyFloat.neg (PyFloat.literal 1200 (-2)))
  /\ StatementParser._parse_amount "45.00CR"
     = Ret (PyFloat.neg (PyFloat.literal 4500 (-2)))
  /\ (forall amount_str,
        ~ float_text (StatementParser.clean_amount amount_str) ->
        StatementParser._parse_amount amount_str = Ret PyFloat.zero)
  /\ (forall amount_str,
        float_text (StatementParser.clean_amount amount_str) ->
        exists v,
          PyFloat.float (StatementParser.clean_amount amount_str) = Ret v
          /\ StatementParser._parse_amount amount_str = Ret v)
  /\ (forall amount_str,
        special_text (StatementParser.clean_amount amount_str) ->
        StatementParser._parse_amount amount_str
        = Ret (if Str.eqb (Str.lower (StatementParser.clean_amount amount_str)) "nan"
               then S754_nan else S754_infinity false))
  /\ (forall amount_str c,
        In c (StatementParser.clean_amount amount_str) -> float_char c = false ->
        StatementParser._parse_amount amount_str = Ret PyFloat.zero).
Proof.
  split; [exact AmountFacts.parse_amount_total|].
  split; [vm_compute; reflexivity|].
  split; [vm_compute; reflexivity|].
  split; [vm_compute; reflexivity|].
  split; [exact LiteralFacts.parse_amount_not_text|].
  split; [exact LiteralFacts.parse_amount_text|].
  split; [exact LiteralFacts.parse_amount_special|].
  exact AmountFacts.parse_amount_foreign.
Qed.

(** The text "garbage" is not written as a number: its amount is 0.0. *)
Lemma C3_parse_amount_witness :
  StatementParser._parse_amount "garbage" = Ret PyFloat.zero.
Proof.
  apply (proj1 (proj2 (proj2 (proj2 (proj2 C3_parse_amount)))) "garbage").
  intros H. apply LiteralFacts.float_complete in H. destruct H as [v H].
  vm_compute in H. discriminate.
Defined.

(** C4.  [_parse_date] raises nothing and goes through its formats in
    their order: the first one [strptime] accepts gives the date, in the
    year handed over when the format has no year of its own; the answer
    is [None] when [strptime] accepts none.  "03/15/2024" is 2024-03-15,
    "03/15" with the year 2023 is 2023-03-15, "not-a-date" is no date. *)
Theorem C4_parse_date :
  (forall date_str year pre fmt post dt,
      usable_year year ->
      StatementParser.formats = pre ++ fmt :: post ->
      (forall f, In f pre ->
                 Datetime.strptime (Str.strip date_str) f = Raise ValueError) ->
      Datetime.strptime (Str.strip date_str) fmt = Ret dt ->
      StatementParser._parse_date date_str year
      = Ret (Some (if carries_year fmt then dt else with_year dt year)))
  /\ (forall date_str year,
        (forall f, In f StatementParser.formats ->
                   Datetime.strptime (Str.strip date_str) f = Raise ValueError) ->
        StatementParser._parse_date date_str year = Ret None)
  /\ (forall date_str year, exists r, StatementParser._parse_date date_str year = Ret r)
  /\ StatementParser._parse_date "03/15/2024" None
     = Ret (Some {| Datetime.year := 2024; Datetime.month := 3; Datetime.day := 15 |})
  /\ StatementParser._parse_date "03/15" (Some 2023%Z)
     = Ret (Some {| Datetime.year := 2023; Datetime.month := 3; Datetime.day := 15 |})
  /\ StatementParser._parse_date "not-a-date" None = Ret None.
Proof.
  split; [|split; [|split; [|split; [|split]; vm_compute; reflexivity]]].
  - intros s year pre fmt post dt Hu Hf Hpre H.
    unfold StatementParser._parse_date. rewrite Hf.
    apply DateFacts.parse_date_loop_first.
    + intros f Hin. apply DateFacts.try_format_fail. auto.
    + apply DateFacts.try_format_ok; auto. rewrite Hf. apply in_elt.
  - intros s year H. apply DateFacts.parse_date_loop_none.
    intros f Hin. apply DateFacts.try_format_fail. auto.
  - intros s year. apply DateFacts.parse_date_total.
Qed.

(** "03/15" with the year 2023: the four formats with a year fail, the
    fifth, "%m/%d", parses, and the year handed over is applied. *)
Lemma C4_parse_date_witness :
  StatementParser._parse_date "03/15" (Some 2023%Z)
  = Ret (Some {| Datetime.year := 2023; Datetime.month := 3; Datetime.day := 15 |}).
Proof.
  refine (proj1 C4_parse_date "03/15" (Some 2023%Z)
            ["%m/%d/%Y" : str; "%m/%d/%y" : str; "%m-%d-%Y" : str; "%m-%d-%y" : str]
            "%m/%d"
            ["%b %d" : str; "%B %d" : str; "%d %b" : str; "%d %B" : str]
            {| Datetime.year := 1900; Datetime.month := 3; Datetime.day := 15 |}
            _ _ _ _).
  - simpl. lia.
  - reflexivity.
  - intros f [<-|[<-|[<-|[<-|[]]]]]; vm_compute; reflexivity.
  - vm_compute. reflexivity.
Defined.

(** C1.  Every transaction of the result of any strategy's [parse]
    follows the sign convention: a purchase or a withdrawal has an amount
    [>= 0], a payment, refund, deposit or credit an amount [<= 0]. *)
Theorem C1_amount_sign_consistent :
  forall (p : StatementParserFactory.parser) (now_year : Z) (doc : pdf)
         (t : ExtractedTransaction),
    In t (transactions (StatementParserFactory.parse_with p now_year doc)) ->
    sign_consistent t.
Proof.
  intros p now doc. apply Forall_forall. destruct p; simpl.
  - apply ParseFacts.chase_transactions.
    intros year m t. apply StrategyFacts.chase_line_sign.
  - apply ParseFacts.amex_transactions.
    intros year p m t. apply StrategyFacts.amex_line_sign.
  - apply ParseFacts.truist_transactions.
    intros year p m t. apply StrategyFacts.truist_line_sign.
  - apply ParseFacts.generic_transactions.
    intros year m t. apply StrategyFacts.generic_line_sign.
Qed.

(** A payment line of a Chase statement: the amount -100.00 stays
    negative. *)
Lemma C1_amount_sign_consistent_witness :
  sign_consistent
    {| date := {| Datetime.year := 2024; Datetime.month := 3; Datetime.day := 3 |};
       merchant := "PAYMENT THANK YOU";
       amount := S754_finite true 7036874417766400 (-46);
       trans_type := payment;
       raw_text := "03/03 PAYMENT THANK YOU -100.00" |}.
Proof.
  apply (C1_amount_sign_consistent StatementParserFactory.Chase 2024
           (Opened [Extracted (Some ("03/03 PAYMENT THANK YOU -100.00" : str))])).
  vm_compute. left. reflexivity.
Defined.

(** C6, at its failing input: [ChaseParser.parse] has no check on the
    length of the merchant, and returns the transaction of the line
    "01/02 A 5.00", whose merchant is "A". *)
Theorem C6_chase_keeps_short_merchant :
  map merchant
    (transactions
       (ChaseParser.parse 2024 (Opened [Extracted (Some ("01/02 A 5.00" : str))])))
  = [["A"%char]].
Proof. vm_compute. reflexivity. Qed.

(** The three other strategies have the check: every merchant they return
    has three characters or more. *)
Lemma siblings_check_merchant_length :
  forall (p : StatementParserFactory.parser) (now_year : Z) (doc : pdf)
         (t : ExtractedTransaction),
    p <> StatementParserFactory.Chase ->
    In t (transactions (StatementParserFactory.parse_with p now_year doc)) ->
    3 <= length (merchant t).
Proof.
  intros p now doc t Hp. revert t. apply Forall_forall.
  destruct p; simpl; [congruence| | |].
  - apply ParseFacts.amex_transactions.
    intros year p m t _ _. apply StrategyFacts.amex_line_merchant.
  - apply ParseFacts.truist_transactions.
    intros year p m t _ _. apply StrategyFacts.truist_line_merchant.
  - apply ParseFacts.generic_transactions.
    intros year m t _. apply StrategyFacts.generic_line_merchant.
Qed.

(** C7, where it fails.  A Chase statement whose period is written with
    abbreviated month names: the end does not parse with "%B %d %Y", and
    the period is the end year alone.  An American Express statement
    closed in the year 999: the year is printed without a leading zero,
    and the period has six characters. *)
Lemma C7_counterexample :
  let chase :=
    Opened [Extracted
              (Some ("Statement Period: Jan 1, 2024 - Jan 31, 2024" : str))] in
  let amex :=
    Opened [Extracted (Some ("Closing Date: January 5, 0999" : str))] in
  (statement_period (ChaseParser.parse 2025 chase) = Some ("2024" : str)
   /\ yyyy_mm "2024" = false)
  /\ (statement_period (AmexParser.parse 2025 amex) = Some ("999-01" : str)
      /\ yyyy_mm "999-01" = false).
Proof.
  vm_compute. split; [split; reflexivity | split; reflexivity].
Qed.

(** C7, amended.  A statement period that is present comes from the end
    of the period found in the text of the document.  When that end
    parses with "%B %d %Y", the period is the year of the end date in
    decimal, a dash and its month on two digits, from 01 to 12: it has
    the shape YYYY-MM exactly when the year is 1000 or later.  When the
    end does not parse the strategy is the Chase strategy, and the
    period is the four digits of the end year alone. *)
Theorem C7_statement_period_shape :
  forall (p : StatementParserFactory.parser) (now_year : Z) (doc : pdf)
         (period : str),
    statement_period (StatementParserFactory.parse_with p now_year doc)
    = Some period ->
    exists text end_text end_year,
      extract_full_text doc = Ret text
      /\ period_end p text = Some (end_text, end_year)
      /\ period_from p end_text end_year period.
Proof.
  intros p now doc period. destruct p; simpl.
  - destruct (ParseFacts.chase_cases now doc)
      as [[e ->]|(text & l & Ht & _ & ->)]; simpl; [discriminate|].
    intros H. apply StrategyFacts.chase_period in H.
    destruct H as (a & b & H1 & H2). eauto 6.
  - destruct (ParseFacts.amex_cases now doc)
      as [[e ->]|(text & l & Ht & _ & ->)]; simpl; [discriminate|].
    intros H. apply StrategyFacts.amex_period in H.
    destruct H as (a & b & H1 & H2). eauto 6.
  - destruct (ParseFacts.truist_cases now doc)
      as [[e ->]|(text & l & Ht & _ & ->)]; simpl; [discriminate|].
    intros H. apply StrategyFacts.truist_period in H.
    destruct H as (a & b & H1 & H2). eauto 6.
  - destruct (ParseFacts.generic_cases now doc)
      as [[e ->]|(text & l & _ & _ & ->)]; simpl; discriminate.
Qed.

(** A closing date of an American Express statement. *)
Lemma C7_statement_period_shape_witness :
  let doc := Opened [Extracted (Some ("Closing Date: March 15, 2024" : str))] in
  exists text end_text end_year,
    extract_full_text doc = Ret text
    /\ period_end StatementParserFactory.Amex text = Some (end_text, end_year)
    /\ period_from StatementParserFactory.Amex end_text end_year "2024-03".
Proof.
  intros doc.
  apply (@C7_statement_period_shape StatementParserFactory.Amex 2025 doc "2024-03").
  vm_compute. reflexivity.
Defined.

(** C8.  An account identifier that is present has four characters,
    however many digits the pattern of the account number took. *)
Theorem C8_account_identifier_four_chars :
  forall (p : StatementParserFactory.parser) (now_year : Z) (doc : pdf)
         (ident : str),
    account_identifier (StatementParserFactory.parse_with p now_year doc)
    = Some ident ->
    length ident = 4.
Proof.
  intros p now doc ident. destruct p; simpl.
  - destruct (ParseFacts.chase_cases now doc)
      as [[e ->]|(text & l & _ & _ & ->)]; simpl; [discriminate|].
    apply StrategyFacts.chase_account.
  - destruct (ParseFacts.amex_cases now doc)
      as [[e ->]|(text & l & _ & _ & ->)]; simpl; [discriminate|].
    apply StrategyFacts.amex_account.
  - destruct (ParseFacts.truist_cases now doc)
      as [[e ->]|(text & l & _ & _ & ->)]; simpl; [discriminate|].
    apply StrategyFacts.truist_account.
  - destruct (ParseFacts.generic_cases now doc)
      as [[e ->]|(text & l & _ & _ & ->)]; simpl; discriminate.
Qed.

(** Five digits after "Card Ending": the last four are kept. *)
Lemma C8_account_identifier_four_chars_witness :
  length ("2345" : str) = 4.
Proof.
  apply (C8_account_identifier_four_chars StatementParserFactory.Amex 2025
           (Opened [Extracted (Some ("Card Ending 12345" : str))])).
  vm_compute. reflexivity.
Defined.

(** C9.  For the American Express and the Truist strategies, on a
    readable document: no scan of a pattern raises, and the transactions
    of the result are those of the first pattern, in the order of the
    list, whose scan is not empty (none when every scan is empty); they
    are never gathered from two patterns. *)
Theorem C9_first_pattern_wins :
  forall (now_year : Z) (doc : pdf) (text : str),
    extract_full_text doc = Ret text ->
    let year := StatementParser.infer_year now_year text in
    ((forall p, exists l, AmexParser.scan year text p [] = Ret l)
     /\ transactions (AmexParser.parse now_year doc)
        = first_nonempty
            (map (fun p => value [] (AmexParser.scan year text p []))
               AmexParser.patterns))
    /\ ((forall p, exists l, TruistParser.scan year text p [] = Ret l)
        /\ transactions (TruistParser.parse now_year doc)
           = first_nonempty
               (map (fun p => value [] (TruistParser.scan year text p []))
                  TruistParser.patterns)).
Proof.
  intros now doc text H year. split; split.
  - intros p. apply StrategyFacts.amex_scan_total.
  - unfold AmexParser.parse. rewrite H. cbn [bind]. fold year.
    rewrite LoopFacts.pattern_loop_first
      by (intros p; apply StrategyFacts.amex_scan_total).
    reflexivity.
  - intros p. apply StrategyFacts.truist_scan_total.
  - unfold TruistParser.parse. rewrite H. cbn [bind]. fold year.
    rewrite LoopFacts.pattern_loop_first
      by (intros p; apply StrategyFacts.truist_scan_total).
    reflexivity.
Qed.

(** A Truist statement whose lines have a balance column: the pattern of
    the columns gives the transactions, and the simple pattern, which
    matches the same lines, is not consulted. *)
Lemma C9_first_pattern_wins_witness :
  let text : str := "03/02 GROCERY 42.10 3.00 4957.90" ++ newline_str in
  let doc := Opened [Extracted (Some ("03/02 GROCERY 42.10 3.00 4957.90" : str))] in
  transactions (TruistParser.parse 2024 doc)
  = first_nonempty
      (map (fun p => value [] (TruistParser.scan 2024 text p []))
         TruistParser.patterns).
Proof.
  intros text doc.
  apply (proj2 (proj2 (C9_first_pattern_wins 2024 doc (text := text) eq_refl))).
Defined.

(** * Further properties of the engine *)

Module OriginFacts.
Import Re ReSpec ReFacts LoopFacts ParseFacts StatementParser.

Lemma transaction_origin p now doc t :
  In t (transactions (StatementParserFactory.parse_with p now doc)) ->
  origin p now doc t.
Proof.
  revert t. apply Forall_forall. destruct p; simpl.
  - destruct (chase_cases now doc) as [[e ->]|(text & l & Ht & Hl & ->)]; simpl;
      [constructor|].
    eapply for_matches_all; [|constructor|exact Hl].
    intros m t Hm Hb. exists text, ChaseParser.transaction_pattern, m.
    simpl. auto.
  - destruct (amex_cases now doc) as [[e ->]|(text & l & Ht & Hl & ->)]; simpl;
      [constructor|].
    eapply pattern_loop_all; [|constructor|exact Hl].
    intros pat acc l' Hp Hacc Hs. unfold AmexParser.scan in Hs.
    eapply for_matches_all; [|exact Hacc|exact Hs].
    intros m t Hm Hb. exists text, pat, m. auto.
  - destruct (truist_cases now doc) as [[e ->]|(text & l & Ht & Hl & ->)]; simpl;
      [constructor|].
    eapply pattern_loop_all; [|constructor|exact Hl].
    intros pat acc l' Hp Hacc Hs. unfold TruistParser.scan in Hs.
    eapply for_matches_all; [|exact Hacc|exact Hs].
    intros m t Hm Hb. exists text, pat, m. auto.
  - destruct (generic_cases now doc) as [[e ->]|(text & l & Ht & Hl & ->)]; simpl;
      [constructor|].
    eapply for_matches_all; [|constructor|exact Hl].
    intros m t Hm Hb. exists text, GenericParser.pattern_, m.
    simpl. auto.
Qed.

(** A match of [finditer] lies in the text. *)
Lemma finditer_from_place p s :
  forall skip m,
    In m (finditer_from p skip s) ->
    exists pre, s = pre ++ group0 m ++ rest m /\ match_at p (group0 m ++ rest m) = Some m.
Proof.
  assert (Hcons : forall c (t : str) m,
    (exists pre, t = pre ++ group0 m ++ rest m
                 /\ match_at p (group0 m ++ rest m) = Some m) ->
    exists pre, c :: t = pre ++ group0 m ++ rest m
                /\ match_at p (group0 m ++ rest m) = Some m).
  { intros c t m (pre & -> & H). exists (c :: pre). auto. }
  assert (Hhere : forall (t : str) m, match_at p t = Some m ->
    exists pre, t = pre ++ group0 m ++ rest m
                /\ match_at p (group0 m ++ rest m) = Some m).
  { intros t m H. pose proof (match_at_sound _ _ H) as (Ht & _).
    exists []. simpl. rewrite <- Ht. auto. }
  induction s as [|c s IH]; intros [|skip] m; simpl; try tauto.
  - destruct (match_at p []) eqn:E; simpl; [|tauto].
    intros [<-|[]]. auto.
  - destruct (match_at p (c :: s)) eqn:E; simpl.
    + intros [<-|H]; eauto.
    + eauto.
  - eauto.
Qed.

Lemma startswith_app (w x : str) : Str.startswith w (w ++ x) = true.
Proof.
  induction w as [|c w IH]; simpl; [reflexivity|].
  rewrite Ascii.eqb_refl. exact IH.
Qed.

Lemma contains_here (w s : str) :
  Str.startswith w s = true -> Str.contains w s = true.
Proof. intros H. destruct s; simpl; rewrite H; reflexivity. Qed.

Lemma contains_app (pre w suf : str) : Str.contains w (pre ++ w ++ suf) = true.
Proof.
  induction pre as [|c pre IH].
  - change ([] ++ w ++ suf) with (w ++ suf).
    apply contains_here, startswith_app.
  - simpl. rewrite IH. apply orb_true_r.
Qed.

Lemma finditer_contains p s m :
  In m (finditer p s) -> Str.contains (group0 m) s = true.
Proof.
  intros H. apply finditer_from_place in H. destruct H as (pre & -> & _).
  apply contains_app.
Qed.

End OriginFacts.

Module LineFacts.
Import Re ReSpec ReFacts LoopFacts ParseFacts StatementParser.
Import PyFloatFacts AmountFacts DateFacts StrategyFacts.

(** Steps through the body of a line, keeping what each test found. *)
Ltac keep_step :=
  match goal with
  | |- Ret None = Ret (Some _) -> _ => discriminate
  | |- Raise _ = Ret _ -> _ => discriminate
  | |- ?lhs = _ -> _ =>
      match lhs with
      | context [bind (Ret _) _] => progress cbn [bind]
      | context [bind (Raise _) _] => progress cbn [bind]
      | context [_parse_date ?s ?y] =>
          let E := fresh "Edate" in destruct (_parse_date s y) as [[?|]|?] eqn:E
      | context [Str.any_in ?k ?s] =>
          let E := fresh "Eskip" in destruct (Str.any_in k s) eqn:E
      | context [(length ?s <? 3)%nat] => destruct (Nat.ltb_spec (length s) 3)
      | context [_parse_amount ?s] =>
          let E := fresh "Eamount" in destruct (_parse_amount s) as [?|?] eqn:E
      end
  end.

Ltac returned :=
  let H := fresh in
  intros H; inversion H; subst; clear H;
  cbn [trans_type amount merchant raw_text date].

Lemma truist_types p m v ty :
  TruistParser.amount_and_type p m = Ret (Some (v, ty)) ->
  ty = withdrawal \/ ty = deposit.
Proof.
  unfold TruistParser.amount_and_type.
  repeat match goal with
         | |- context [_parse_amount ?s] =>
             destruct (parse_amount_total s) as [? ->]; cbn [bind]
         | |- context [if ?b then _ else _] => destruct b
         end;
    intros H; inversion H; auto.
Qed.

(** What the body of the loop of any strategy puts in a transaction. *)
Lemma line_facts p year pat m t :
  line_of p year pat m = Ret (Some t) ->
  raw_text t = group0 m
  /\ merchant t = Str.strip (group_str m 2)
  /\ Str.any_in (skip_keywords_of p) (Str.lower (merchant t)) = false
  /\ _parse_date (group_str m 1) (Some year) = Ret (Some (date t))
  /\ In (trans_type t) (types_of p).
Proof.
  destruct p; cbn [line_of skip_keywords_of types_of].
  - unfold ChaseParser.line. repeat keep_step. returned.
    repeat split; auto.
    repeat match goal with |- context [if ?b then _ else _] => destruct b end;
      simpl; auto.
  - unfold AmexParser.line. repeat keep_step.
    destruct (PyFloat.ltb _ _); [|destruct (_ || _)]; returned;
      repeat split; simpl; auto.
  - unfold TruistParser.line.
    destruct (TruistParser.amount_and_type pat m) as [[[v ty]|]|e] eqn:Eat;
      cbn [bind]; try discriminate.
    apply truist_types in Eat. repeat keep_step. returned.
    repeat split; auto. destruct Eat as [->| ->]; simpl; auto.
  - unfold GenericParser.line. repeat keep_step. returned.
    repeat split; auto. destruct (PyFloat.ltb _ _); simpl; auto.
Qed.

End LineFacts.

Module StripFacts.

Lemma lstrip_clean s : starts_clean (Str.lstrip s).
Proof.
  induction s as [|c s IH]; simpl; [exact I|].
  destruct (Str.is_space c) eqn:E; [exact IH | exact E].
Qed.

Lemma lstrip_suffix s : exists pre, s = pre ++ Str.lstrip s.
Proof.
  induction s as [|c s [pre IH]]; simpl; [exists []; reflexivity|].
  destruct (Str.is_space c); [|exists []; reflexivity].
  exists (c :: pre). simpl. f_equal. exact IH.
Qed.

Lemma length_lstrip s : length (Str.lstrip s) <= length s.
Proof.
  destruct (lstrip_suffix s) as [pre H]. rewrite H at 2.
  rewrite length_app. lia.
Qed.

Lemma length_strip s : length (Str.strip s) <= length s.
Proof.
  unfold Str.strip, Str.rstrip. rewrite length_rev.
  pose proof (length_lstrip (rev (Str.lstrip s))) as H1.
  rewrite length_rev in H1. pose proof (length_lstrip s). lia.
Qed.

(** [strip] leaves no white space at either end. *)
Lemma strip_trimmed s : trimmed (Str.strip s).
Proof.
  unfold trimmed, Str.strip, Str.rstrip. split.
  - pose proof (lstrip_clean s) as Hu. set (u := Str.lstrip s) in *.
    destruct (lstrip_suffix (rev u)) as [pre H].
    apply (f_equal (@rev ascii)) in H.
    rewrite rev_involutive, rev_app_distr in H.
    destruct (rev (Str.lstrip (rev u))) as [|c w]; [exact I|].
    rewrite H in Hu. exact Hu.
  - rewrite rev_involutive. apply lstrip_clean.
Qed.

End StripFacts.

Module ShortDateFacts.
Import Re ReSpec ReFacts LoopFacts StatementParser Datetime DateFacts.
Local Open Scope Z_scope.

Lemma min_len_lang fl r w : lang fl r w -> (min_len r <= length w)%nat.
Proof.
  revert w.
  induction r as [ | cs | r1 IH1 r2 IH2 | r1 IH1 r2 IH2 | cs lo hi g
                   | r1 IH1 | n r1 IH1 | ]; simpl; intros w L.
  - lia.
  - destruct L as (c & -> & _). simpl. lia.
  - destruct L as (a & b & -> & La & Lb). rewrite length_app.
    apply IH1 in La. apply IH2 in Lb. lia.
  - destruct L as [L|L]; [apply IH1 in L | apply IH2 in L]; lia.
  - destruct L as (_ & H & _). exact H.
  - lia.
  - auto.
  - lia.
Qed.

(** A text [strptime] accepts is, whole, a word of the format. *)
Lemma strptime_lang s fmt dt :
  strptime s fmt = Ret dt ->
  exists r, time_re false fmt = Some r /\ lang ignorecase r s.
Proof.
  unfold strptime. destruct (time_re false fmt) as [r|]; [|discriminate].
  destruct (match_at _ s) as [found|] eqn:E; [|discriminate].
  destruct (rest found) eqn:Er; [|discriminate]. intros _.
  apply match_at_sound in E. destruct E as (Hs & L & _).
  rewrite Er, app_nil_r in Hs. exists r. split; [reflexivity|].
  rewrite Hs. exact L.
Qed.

(** A format with a year needs six characters at least. *)
Lemma year_format_length s fmt dt :
  In fmt formats -> carries_year fmt = true -> strptime s fmt = Ret dt ->
  (6 <= length s)%nat.
Proof.
  intros Hin Hc H. apply strptime_lang in H. destruct H as (r & Hr & L).
  apply min_len_lang in L. unfold formats in Hin. simpl in Hin.
  repeat (destruct Hin as [<-|Hin]); try contradiction;
    try (vm_compute in Hc; discriminate);
    vm_compute in Hr; inversion Hr; subst r; simpl in L; lia.
Qed.

Lemma parse_date_loop_inv fmts s year dt :
  parse_date_loop fmts s year = Ret (Some dt) ->
  exists fmt, In fmt fmts /\ try_format s year fmt = Ret dt.
Proof.
  induction fmts as [|fmt fmts IH]; simpl; [discriminate|].
  destruct (try_format s year fmt) as [d|e] eqn:E.
  - intros H. inversion H; subst. eauto.
  - destruct e; [|discriminate]. intros H.
    destruct (IH H) as (f & Hf & Ht). eauto.
Qed.

Lemma try_format_cases s year fmt dt :
  try_format s year fmt = Ret dt ->
  exists parsed,
    strptime s fmt = Ret parsed
    /\ ((dt = parsed /\ (year_given year = None \/ carries_year fmt = true))
        \/ (carries_year fmt = false
            /\ exists y, year_given year = Some y
                         /\ replace_year parsed y = Ret dt)).
Proof.
  unfold try_format. destruct (strptime s fmt) as [parsed|e]; cbn [bind];
    [|discriminate].
  intros H. exists parsed. split; [reflexivity|].
  destruct (year_given year) as [y|]; [|inversion H; auto].
  unfold carries_year.
  destruct (Str.contains "%Y" fmt), (Str.contains "%y" fmt);
    cbn [negb andb orb] in *; try (inversion H; auto; fail).
  right. eauto.
Qed.

(** Whatever the year handed over, a date [_parse_date] returns is a date
    of the calendar. *)
Lemma parse_date_valid s year dt :
  _parse_date s year = Ret (Some dt) ->
  valid_date (Datetime.year dt) (month dt) (day dt) = true.
Proof.
  intros H. apply parse_date_loop_inv in H. destruct H as (fmt & _ & H).
  apply try_format_cases in H.
  destruct H as (parsed & Hp & [[-> _]|(_ & y & _ & Hr)]).
  - eapply strptime_valid; eauto.
  - unfold replace_year in Hr. apply make_inv in Hr. destruct Hr as [-> Hv].
    exact Hv.
Qed.

Lemma not_leap_day_1900 m d : valid_date 1900 m d = true -> ~ (m = 2 /\ d = 29).
Proof. intros H [-> ->]. vm_compute in H. discriminate. Qed.

(** A date text of five characters at most is read by a format without a
    year: it gets the year handed over, and it is never the 29th of
    February, which the default year 1900 does not have. *)
Lemma short_date s y dt :
  (length (Str.strip s) <= 5)%nat ->
  _parse_date s (Some y) = Ret (Some dt) ->
  (y <> 0 -> Datetime.year dt = y) /\ ~ (month dt = 2 /\ day dt = 29).
Proof.
  intros Hlen H. apply parse_date_loop_inv in H. destruct H as (fmt & Hin & H).
  apply try_format_cases in H. destruct H as (parsed & Hp & Hcase).
  assert (Hc : carries_year fmt = false).
  { destruct (carries_year fmt) eqn:E; [|reflexivity].
    pose proof (year_format_length _ Hin E Hp). lia. }
  pose proof (strptime_default_year _ Hin Hc Hp) as H1900.
  pose proof (strptime_valid _ _ Hp) as Hv. rewrite H1900 in Hv.
  apply not_leap_day_1900 in Hv.
  destruct Hcase as [[-> [Hy|Hy]]|(_ & y' & Hy & Hr)].
  - split; [|exact Hv]. intros Hy0. destruct y; simpl in Hy; congruence.
  - congruence.
  - unfold replace_year in Hr. apply make_inv in Hr. destruct Hr as [-> _].
    simpl. split; [|exact Hv].
    intros _. destruct y; simpl in Hy; congruence.
Qed.

End ShortDateFacts.

Module NumberFacts.
Import Re ReSpec ReFacts LoopFacts StatementParser.
Import PyFloatFacts AmountFacts StrategyFacts LineFacts.

Lemma number_abs v : is_number v -> is_number (PyFloat.abs v).
Proof. intros [sg H]. destruct v; try contradiction; exists false; reflexivity. Qed.

Lemma number_neg v : is_number v -> is_number (PyFloat.neg v).
Proof.
  intros [sg H]. destruct v as [s|s| |s m e]; try contradiction;
    exists (negb s); reflexivity.
Qed.

Lemma group_amount_number p m n w v :
  matched p m -> group m n = Some w ->
  group_within (IGNORECASE (p_flags p)) amount_char (p_regex p) n = true ->
  _parse_amount w = Ret v -> is_number v.
Proof.
  intros Hm Hg Hw Hv. eapply parse_amount_number; [|exact Hv].
  eapply group_chars; eauto.
Qed.

Lemma group_str_amount_number p m v :
  matched p m ->
  group_within (IGNORECASE (p_flags p)) amount_char (p_regex p) 3 = true ->
  _parse_amount (group_str m 3) = Ret v -> is_number v.
Proof.
  intros Hm Hw Hv. eapply parse_amount_number; [|exact Hv].
  apply group_str_chars with (p := p); assumption.
Qed.

(** No amount of a line is a NaN. *)
Lemma line_amount_number p year pat m t :
  In pat (patterns_of p) -> matched pat m ->
  line_of p year pat m = Ret (Some t) -> is_number (amount t).
Proof.
  intros Hp Hm. destruct p; cbn [line_of patterns_of] in *.
  - destruct Hp as [<-|[]]. unfold ChaseParser.line. repeat keep_step.
    apply (group_str_amount_number Hm eq_refl) in Eamount. returned.
    destruct (if _ || _ then _ else _); auto using number_abs, number_neg.
  - unfold AmexParser.line. repeat keep_step.
    assert (Hn : is_number a).
    { eapply group_str_amount_number; [exact Hm| |exact Eamount].
      destruct Hp as [<-|[<-|[]]]; vm_compute; reflexivity. }
    destruct (PyFloat.ltb _ _); [|destruct (_ || _)]; returned;
      auto using number_abs, number_neg.
  - unfold TruistParser.line.
    destruct (TruistParser.amount_and_type pat m) as [[[v ty]|]|e] eqn:Eat;
      cbn [bind]; try discriminate.
    assert (Hn : is_number v).
    { revert Eat. unfold TruistParser.amount_and_type.
      destruct Hp as [<-|[<-|[]]]; cbn [p_groups Nat.leb].
      - destruct (group m 3) as [[|c debit]|] eqn:E3; cbn [truthy fstr].
        + destruct (group m 4) as [[|c credit]|] eqn:E4; cbn [truthy fstr];
            try discriminate.
          repeat keep_step. intros H; inversion H; subst. apply number_neg.
          eapply group_amount_number;
            [exact Hm | exact E4 | vm_compute; reflexivity | exact Eamount].
        + repeat keep_step. intros H; inversion H; subst.
          eapply group_amount_number;
            [exact Hm | exact E3 | vm_compute; reflexivity | exact Eamount].
        + destruct (group m 4) as [[|c credit]|] eqn:E4; cbn [truthy fstr];
            try discriminate.
          repeat keep_step. intros H; inversion H; subst. apply number_neg.
          eapply group_amount_number;
            [exact Hm | exact E4 | vm_compute; reflexivity | exact Eamount].
      - repeat keep_step. intros H; inversion H; subst.
        eapply group_str_amount_number; [exact Hm | vm_compute; reflexivity
                                        | eassumption]. }
    repeat keep_step. returned. exact Hn.
  - destruct Hp as [<-|[]]. unfold GenericParser.line. repeat keep_step.
    apply (group_str_amount_number Hm eq_refl) in Eamount. returned.
    exact Eamount.
Qed.

End NumberFacts.

Module YearFacts.
Import Re ReSpec ReFacts LoopFacts StatementParser.
Local Open Scope Z_scope.

Lemma digit_val_range c : 0 <= Str.digit_val c <= 9.
Proof.
  unfold Str.digit_val, Str.is_digit, Str.between.
  destruct ((Str.code "0" <=? Str.code c)%N && (Str.code c <=? Str.code "9")%N)
    eqn:E; [|cbv iota; lia].
  apply andb_prop in E. destruct E as [E1 E2].
  apply N.leb_le in E1, E2. change (Str.code "0") with 48%N in E1.
  change (Str.code "9") with 57%N in E2.
  lia.
Qed.

(** The year of a statement is the current year or a year from 2000 to
    2099. *)
Lemma infer_year_range now text :
  infer_year now text = now \/ 2000 <= infer_year now text <= 2099.
Proof.
  unfold infer_year. destruct (search year_token text) as [m|] eqn:E;
    [right | left; reflexivity].
  apply search_matched in E. destruct E as [s Hs].
  apply match_at_sound in Hs. destruct Hs as (_ & L & _).
  simpl in L.
  destruct L as (a & b & Hab & (a1 & b1 & -> & (c1 & -> & Hc1) & (c2 & -> & Hc2))
                 & (Hb & Hlo & Hhi)).
  unfold mem in Hc1, Hc2. simpl in Hc1, Hc2.
  apply Ascii.eqb_eq in Hc1, Hc2. subst c1 c2.
  destruct b as [|x [|y [|z b]]]; simpl in Hlo, Hhi; try lia.
  rewrite Hab. unfold Str.int_of_digits. cbn [app fold_left].
  pose proof (digit_val_range x). pose proof (digit_val_range y).
  change (Str.digit_val "2") with 2. change (Str.digit_val "0") with 0. lia.
Qed.

Lemma month_day_length fl w : lang fl month_day w -> length w = 5%nat.
Proof.
  simpl. intros (a & b & -> & (_ & Ha1 & Ha2)
                 & (c & d & -> & (x & -> & _) & (_ & Hd1 & Hd2))).
  rewrite !length_app. simpl. lia.
Qed.

(** The date text of a match of a strategy that writes its dates [MM/DD]. *)
Lemma month_day_group p pat m :
  month_day_only p = true -> In pat (patterns_of p) -> matched pat m ->
  (length (group_str m 1) <= 5)%nat.
Proof.
  intros Hp Hpat Hm. unfold group_str.
  destruct (group m 1) as [w|] eqn:E; [|simpl; lia].
  eapply matched_group in E; [|exact Hm].
  assert (L : lang (p_flags pat) month_day w).
  { destruct p; try discriminate; cbn [patterns_of] in Hpat.
    - destruct Hpat as [<-|[]].
      cbn -[lang] in E; intuition (try contradiction; try discriminate).
    - destruct Hpat as [<-|[<-|[]]];
        cbn -[lang] in E; intuition (try contradiction; try discriminate). }
  rewrite (month_day_length L). lia.
Qed.

End YearFacts.

Module DocumentFacts.
Import Re ReSpec ReFacts LoopFacts ParseFacts StatementParser StrategyFacts.
Import OriginFacts.

(** The loop over the pages, in closed form. *)
Lemma read_pages_closed pages :
  forall acc,
    read_pages pages acc
    = match first_failure pages with
      | Some msg => Raise (PdfError msg)
      | None => Ret (acc ++ flat_map page_line pages)
      end.
Proof.
  induction pages as [|pg pages IH]; intros acc; simpl.
  - rewrite app_nil_r. reflexivity.
  - destruct pg as [[[|c t]|]|msg]; simpl; try reflexivity;
      rewrite IH; destruct (first_failure pages); try reflexivity.
    f_equal. rewrite <- app_assoc. simpl. rewrite <- app_assoc. reflexivity.
Qed.

Lemma read_some_closed pages :
  forall acc, exists suf,
    acc ++ flat_map page_line pages = StatementParserFactory.read_some pages acc ++ suf
    /\ (first_failure pages = None -> suf = []).
Proof.
  induction pages as [|pg pages IH]; intros acc; simpl.
  - exists []. rewrite !app_nil_r. auto.
  - destruct pg as [[[|c t]|]|msg]; simpl.
    + apply IH.
    + destruct (IH (acc ++ (c :: t) ++ newline_str)) as (suf & H & H0).
      exists suf. split; [|exact H0].
      etransitivity; [|exact H].
      rewrite <- !app_assoc. reflexivity.
    + apply IH.
    + eexists. split; [reflexivity | discriminate].
Qed.

Lemma flat_map_firstn (pages : list page) k :
  exists suf, flat_map page_line pages
              = flat_map page_line (firstn k pages) ++ suf.
Proof.
  exists (flat_map page_line (skipn k pages)).
  rewrite <- flat_map_app, firstn_skipn. reflexivity.
Qed.

Lemma first_failure_firstn (pages : list page) k :
  first_failure pages = None -> first_failure (firstn k pages) = None.
Proof.
  revert k. induction pages as [|pg pages IH]; intros [|k]; simpl; auto.
  destruct pg as [[[|c t]|]|msg]; auto; discriminate.
Qed.

(** The text the selector looks at begins the text the strategies
    scan. *)
Lemma detection_prefix doc text :
  extract_full_text doc = Ret text ->
  exists suf, text = StatementParserFactory.detection_text doc ++ suf.
Proof.
  destruct doc as [msg|pages];
    unfold extract_full_text, StatementParserFactory.detection_text;
    [discriminate|].
  rewrite read_pages_closed.
  destruct (first_failure pages) eqn:Ef; [discriminate|].
  intros H. injection H as <-. cbn [app].
  destruct (flat_map_firstn pages 2) as [suf1 H1].
  destruct (read_some_closed (firstn 2 pages) []) as (suf2 & H2 & H3).
  cbn [app] in H2.
  rewrite (H3 (first_failure_firstn _ 2 Ef)), app_nil_r in H2.
  rewrite H1, H2. eauto.
Qed.

Lemma detection_whole pages text :
  length pages <= 2 ->
  extract_full_text (Opened pages) = Ret text ->
  StatementParserFactory.detection_text (Opened pages) = text.
Proof.
  intros Hlen.
  unfold extract_full_text, StatementParserFactory.detection_text.
  rewrite read_pages_closed.
  destruct (first_failure pages) eqn:Ef; [discriminate|].
  intros H. injection H as <-. cbn [app].
  rewrite firstn_all2 by exact Hlen.
  destruct (read_some_closed pages []) as (suf2 & H2 & H3).
  cbn [app] in H2. rewrite (H3 Ef), app_nil_r in H2. auto.
Qed.

(** The text of a page is in the text of the document. *)
Lemma page_text_kept pages text t :
  extract_full_text (Opened pages) = Ret text ->
  In (Extracted (Some t)) pages -> Str.contains t text = true.
Proof.
  unfold extract_full_text. rewrite read_pages_closed.
  destruct (first_failure pages); [discriminate|].
  intros H. injection H as <-. cbn [app]. intros Hin.
  apply in_split in Hin. destruct Hin as (l1 & l2 & ->).
  rewrite flat_map_app. destruct t as [|c t].
  - apply contains_here. reflexivity.
  - cbn [flat_map page_line]. rewrite <- !app_assoc. apply contains_app.
Qed.

(** Every strategy succeeds on a document that can be read, and fails
    with the message of the library on one that cannot. *)
Lemma parse_outcome p now doc :
  match extract_full_text doc with
  | Ret _ =>
      success (StatementParserFactory.parse_with p now doc) = true
      /\ error_message (StatementParserFactory.parse_with p now doc) = None
  | Raise e =>
      success (StatementParserFactory.parse_with p now doc) = false
      /\ error_message (StatementParserFactory.parse_with p now doc)
         = Some (exn_str e)
  end.
Proof.
  destruct p; simpl.
  - unfold ChaseParser.parse. destruct (extract_full_text doc) as [text|e];
      cbn [bind]; [|auto].
    edestruct (@for_matches_total ExtractedTransaction) as [l Hl];
      [intros m; apply chase_line_total | rewrite Hl]. simpl. auto.
  - unfold AmexParser.parse. destruct (extract_full_text doc) as [text|e];
      cbn [bind]; [|auto].
    rewrite pattern_loop_first by (intros q; apply amex_scan_total).
    simpl. auto.
  - unfold TruistParser.parse. destruct (extract_full_text doc) as [text|e];
      cbn [bind]; [|auto].
    rewrite pattern_loop_first by (intros q; apply truist_scan_total).
    simpl. auto.
  - unfold GenericParser.parse. destruct (extract_full_text doc) as [text|e];
      cbn [bind]; [|auto].
    edestruct (@for_matches_total ExtractedTransaction) as [l Hl];
      [intros m; apply generic_line_total | rewrite Hl]. simpl. auto.
Qed.

End DocumentFacts.

Module AccountFacts.
Import Re ReSpec ReFacts StrategyFacts.

Lemma chase_account_digits text a :
  ChaseParser.find_account text = Some a -> yyyy a = true.
Proof.
  unfold ChaseParser.find_account.
  destruct (search ChaseParser.account_re text) as [m|] eqn:E; [|discriminate].
  intros H. apply search_matched in E.
  eapply matched_group in H; [|exact E].
  assert (L : lang ignorecase (times CDigit 4 4) a)
    by (cbn -[lang] in H; intuition (try contradiction; try discriminate)).
  apply (four_digits L).
Qed.

Lemma truist_account_digits text a :
  TruistParser.find_account text = Some a -> yyyy a = true.
Proof.
  unfold TruistParser.find_account.
  destruct (search TruistParser.account_re text) as [m|] eqn:E; [|discriminate].
  intros H. apply search_matched in E.
  eapply matched_group in H; [|exact E].
  assert (L : lang ignorecase (times CDigit 4 4) a)
    by (cbn -[lang] in H; intuition (try contradiction; try discriminate)).
  apply (four_digits L).
Qed.

Lemma amex_account_digits text a :
  AmexParser.find_account text = Some a -> yyyy a = true.
Proof.
  unfold AmexParser.find_account.
  destruct (search AmexParser.account_re text) as [m|] eqn:E; [|discriminate].
  intros H. inversion H; subst; clear H. apply search_matched in E.
  destruct (@matched_sets _ m 1 E) as [w Hw]; [reflexivity | simpl; lia |].
  unfold group_str. rewrite Hw.
  eapply matched_group in Hw; [|exact E].
  assert (L : lang ignorecase (times CDigit 4 5) w)
    by (cbn -[lang] in Hw; intuition (try contradiction; try discriminate)).
  simpl in L. destruct L as (Hd & Hlo & Hhi).
  destruct w as [|a [|b [|c [|d [|e [|f w]]]]]]; simpl in Hlo, Hhi; try lia;
    repeat match goal with
           | H : Forall _ (_ :: _) |- _ => inversion H; subst; clear H
           end;
    unfold mem in *; simpl in *; unfold Str.last_n, yyyy; simpl;
    repeat match goal with H : Str.is_digit _ = true |- _ => rewrite H; clear H end;
    reflexivity.
Qed.

Lemma account_digits p now doc ident :
  account_identifier (StatementParserFactory.parse_with p now doc) = Some ident ->
  yyyy ident = true.
Proof.
  destruct p; simpl.
  - destruct (ParseFacts.chase_cases now doc)
      as [[e ->]|(text & l & _ & _ & ->)]; simpl; [discriminate|].
    apply chase_account_digits.
  - destruct (ParseFacts.amex_cases now doc)
      as [[e ->]|(text & l & _ & _ & ->)]; simpl; [discriminate|].
    apply amex_account_digits.
  - destruct (ParseFacts.truist_cases now doc)
      as [[e ->]|(text & l & _ & _ & ->)]; simpl; [discriminate|].
    apply truist_account_digits.
  - destruct (ParseFacts.generic_cases now doc)
      as [[e ->]|(text & l & _ & _ & ->)]; simpl; discriminate.
Qed.

End AccountFacts.

Module IncomeFacts.
Import PyFloat PyFloatFacts.

Lemma signs p now doc t :
  In t (transactions (StatementParserFactory.parse_with p now doc)) ->
  sign_consistent t.
Proof.
  revert t. apply Forall_forall. destruct p; simpl.
  - apply ParseFacts.chase_transactions.
    intros year m t. apply StrategyFacts.chase_line_sign.
  - apply ParseFacts.amex_transactions.
    intros year p m t. apply StrategyFacts.amex_line_sign.
  - apply ParseFacts.truist_transactions.
    intros year p m t. apply StrategyFacts.truist_line_sign.
  - apply ParseFacts.generic_transactions.
    intros year m t. apply StrategyFacts.generic_line_sign.
Qed.

Lemma types p now doc t :
  In t (transactions (StatementParserFactory.parse_with p now doc)) ->
  In (trans_type t) (types_of p).
Proof.
  intros H. apply OriginFacts.transaction_origin in H.
  destruct H as (text & pat & m & _ & Hp & Hm & Hl).
  eapply LineFacts.line_facts; eauto.
Qed.

Lemma nonneg_not_negative v : leb zero v = true -> ltb v zero = false.
Proof. by_cases v. Qed.

Lemma income_flag p now doc t :
  In t (transactions (StatementParserFactory.parse_with p now doc)) ->
  App.is_income t = flags_income p && ltb (amount t) zero.
Proof.
  intros H. pose proof (signs _ _ _ _ H) as Hs. pose proof (types _ _ _ _ H) as Ht.
  unfold App.is_income, sign_consistent in *.
  destruct p; simpl in Ht |- *;
    destruct (trans_type t); simpl;
    try reflexivity;
    try (symmetry; apply nonneg_not_negative; exact Hs);
    intuition discriminate.
Qed.

End IncomeFacts.

Module UploadFacts.
Import App.

Lemma rsplit1_none sep s : ~ In sep s -> rsplit1 sep s = None.
Proof.
  induction s as [|c s IH]; simpl; intros H; [reflexivity|].
  rewrite IH by tauto.
  destruct (Ascii.eqb_spec c sep) as [->|]; [tauto | reflexivity].
Qed.

Lemma rsplit1_some sep s :
  forall a b, rsplit1 sep s = Some (a, b) -> s = a ++ sep :: b /\ ~ In sep b.
Proof.
  induction s as [|c s IH]; simpl; intros a b; [discriminate|].
  destruct (rsplit1 sep s) as [[a' b']|] eqn:E.
  - intros H. inversion H; subst.
    destruct (IH _ _ eq_refl) as [-> Hn]. auto.
  - destruct (Ascii.eqb_spec c sep) as [->|]; [|discriminate].
    intros H. inversion H; subst. split; [reflexivity|].
    intros Hin. clear IH H. revert E Hin.
    induction b as [|d b IHb]; simpl; [tauto|].
    destruct (rsplit1 sep b) as [[? ?]|]; [discriminate|].
    destruct (Ascii.eqb_spec d sep) as [->|]; [discriminate|].
    intros _ [?|?]; [congruence | auto].
Qed.

Lemma rsplit1_app sep a b :
  ~ In sep b -> rsplit1 sep (a ++ sep :: b) = Some (a, b).
Proof.
  intros H. induction a as [|c a IH]; simpl.
  - rewrite (rsplit1_none _ _ H), Ascii.eqb_refl. reflexivity.
  - rewrite IH. reflexivity.
Qed.

Lemma pdf_no_point ext : Str.lower ext = ("pdf" : str) -> ~ In "."%char ext.
Proof.
  destruct ext as [|a [|b [|c [|d ext]]]]; try discriminate.
  unfold Str.lower. simpl. intros H. inversion H.
  intros [->|[->|[->|[]]]]; vm_compute in *; discriminate.
Qed.

Lemma allowed_file_spec f :
  allowed_file f = true
  <-> exists base ext, f = base ++ "."%char :: ext /\ Str.lower ext = ("pdf" : str).
Proof.
  unfold allowed_file. split.
  - intros H. apply andb_true_iff in H. destruct H as [_ H].
    destruct (rsplit1 "." f) as [[a ext]|] eqn:E; [|discriminate].
    apply rsplit1_some in E. destruct E as [-> _].
    exists a, ext. split; [reflexivity|].
    simpl in H. rewrite orb_false_r in H.
    apply AmountFacts.eqb_eq in H. exact H.
  - intros (base & ext & -> & H).
    rewrite (rsplit1_app _ base _ (pdf_no_point _ H)).
    rewrite H. apply andb_true_iff. split; [|reflexivity].
    change (base ++ "."%char :: ext) with (base ++ ["."%char] ++ ext).
    apply OriginFacts.contains_app.
Qed.

End UploadFacts.

Module MoneyFacts.
Import PyFloat PyFloatFacts StatementParser AmountFacts LiteralFacts.

Local Unset Implicit Arguments.

Abbreviation keep := (fun c : ascii => negb (noise c)).

(** The amount depends on the text through what [re.sub] leaves. *)
Lemma parse_amount_filter s s' :
  filter keep s = filter keep s' -> _parse_amount s = _parse_amount s'.
Proof.
  intros H. unfold _parse_amount, clean_amount, amount_noise.
  rewrite !ReFacts.sub_class. change (Re.cset_mem _ _) with noise.
  rewrite H. reflexivity.
Qed.

Lemma clean_amount_filtered s :
  all clean_char (filter keep s) -> clean_amount s = filter keep s.
Proof.
  intros Hc. unfold clean_amount, amount_noise. rewrite ReFacts.sub_class.
  change (Re.cset_mem _ _) with noise.
  assert (H1 : Str.startswith ["("%char] (filter keep s) = false)
    by (apply (startswith_outside clean_char); [reflexivity | exact Hc]).
  assert (H2 : Str.endswith "CR" (filter keep s) = false)
    by (apply (startswith_outside clean_char "R"%char ["C"%char]);
        [reflexivity | apply Forall_rev, Hc]).
  cbv zeta. rewrite H1. cbn [andb]. rewrite H2. reflexivity.
Qed.

(** [float] strips nothing from a text of digits, points and signs. *)
Lemma clean_not_cspace c : clean_char c = true -> is_cspace c = false.
Proof. each_char c. Qed.

Lemma float_lstrip_clean s : all clean_char s -> lstrip s = s.
Proof.
  intros [|c t Hc _]; simpl; [reflexivity|].
  rewrite (clean_not_cspace _ Hc). reflexivity.
Qed.

Lemma float_strip_clean s : all clean_char s -> strip s = s.
Proof.
  intros H. unfold strip. rewrite (float_lstrip_clean _ H).
  rewrite (float_lstrip_clean _ (Forall_rev H)). apply rev_involutive.
Qed.

Lemma sign_unsigned s : all unsigned_char s -> sign s = (false, s).
Proof.
  intros [|c t Hc _]; simpl; [reflexivity|].
  revert Hc. destruct c as [[] [] [] [] [] [] [] []]; vm_compute;
    intros; try reflexivity; discriminate.
Qed.

(** What [float] does with a text of digits, points and signs. *)
Lemma float_body sg (body s : str) :
  all clean_char s -> all clean_char body -> sign s = (sg, body) ->
  float s = match decimal body with
            | Some (m, e) => Ret (of_decimal sg m e)
            | None => Raise ValueError
            end.
Proof.
  intros Hs Hb Hsign. unfold float. rewrite (no_underscore _ Hs).
  rewrite (float_strip_clean _ Hs), Hsign.
  assert (Hinf : forall t, Str.eqb (Str.lower body) ("i"%char :: t) = false).
  { intros t. destruct Hb as [|c b Hc _]; simpl; [reflexivity|].
    rewrite (clean_not_i _ Hc). reflexivity. }
  assert (Hnan : forall t, Str.eqb (Str.lower body) ("n"%char :: t) = false).
  { intros t. destruct Hb as [|c b Hc _]; simpl; [reflexivity|].
    rewrite (clean_not_n _ Hc). reflexivity. }
  change (list_ascii_of_string "inf") with ("i"%char :: list_ascii_of_string "nf").
  change (list_ascii_of_string "infinity")
    with ("i"%char :: list_ascii_of_string "nfinity").
  change (list_ascii_of_string "nan") with ("n"%char :: list_ascii_of_string "an").
  rewrite !Hinf, Hnan. reflexivity.
Qed.

Lemma float_unsigned f :
  all unsigned_char f ->
  float f = match decimal f with
            | Some (m, e) => Ret (of_decimal false m e)
            | None => Raise ValueError
            end.
Proof.
  intros H. pose proof (Forall_impl _ unsigned_clean H) as Hc.
  apply float_body; [exact Hc | exact Hc | apply sign_unsigned, H].
Qed.

Lemma float_minus f :
  all unsigned_char f ->
  float ("-"%char :: f) = match decimal f with
                          | Some (m, e) => Ret (of_decimal true m e)
                          | None => Raise ValueError
                          end.
Proof.
  intros H. pose proof (Forall_impl _ unsigned_clean H) as Hc.
  apply float_body; [constructor; [reflexivity | exact Hc] | exact Hc | reflexivity].
Qed.

(** The sign of [of_decimal] is a sign only. *)
Lemma binary_round_aux_opp m e l :
  binary_round_aux prec emax true m e l
  = SFopp (binary_round_aux prec emax false m e l).
Proof.
  unfold binary_round_aux.
  destruct (shr_fexp prec emax m e l) as [mrs e'].
  destruct (shr_fexp prec emax _ e' loc_Exact) as [mrs' e''].
  destruct (shr_m mrs'); try reflexivity.
  destruct (e'' <=? emax - prec)%Z; reflexivity.
Qed.

Lemma binary_round_opp m e :
  binary_round prec emax true m e = SFopp (binary_round prec emax false m e).
Proof.
  unfold binary_round. destruct (shl_align m e _) as [mz ez].
  apply binary_round_aux_opp.
Qed.

Lemma of_decimal_opp m e : of_decimal true m e = neg (of_decimal false m e).
Proof.
  unfold of_decimal, neg. destruct m as [|p|p]; try reflexivity.
  destruct e as [|k|k].
  - apply binary_round_opp.
  - apply binary_round_opp.
  - destruct (SFdiv_core_binary prec emax (Z.pos p) 0 (Z.pos (10 ^ k)) 0)
      as [[mz ez] lz].
    apply binary_round_aux_opp.
Qed.

Lemma eqb_number v : is_number v -> eqb v v = true.
Proof.
  intros [sg H]. destruct v as [[]|[]| |s m e]; try reflexivity; [contradiction|].
  unfold eqb, SFeqb, SFcompare.
  destruct s; rewrite Z.compare_refl, Pos.compare_cont_refl; reflexivity.
Qed.





(** Parentheses and the [CR] suffix. *)
Lemma money_unsigned c :
  money_char c = true -> negb (noise c) = true -> unsigned_char c = true.
Proof. each_char c. Qed.

Lemma filter_money d : all money_char d -> all unsigned_char (filter keep d).
Proof. apply all_filter. exact money_unsigned. Qed.

Lemma endswith_app (w x : str) : Str.endswith w (x ++ w) = true.
Proof.
  unfold Str.endswith. rewrite rev_app_distr. apply OriginFacts.startswith_app.
Qed.

Lemma drop_last_app (x w : str) : Str.drop_last (length w) (x ++ w) = x.
Proof.
  unfold Str.drop_last. rewrite length_app.
  replace (length x + length w - length w)%nat with (length x + 0)%nat by lia.
  rewrite firstn_app_2. simpl. apply app_nil_r.
Qed.

Lemma minus_not_credit f :
  all unsigned_char f -> Str.endswith "CR" ("-"%char :: f) = false.
Proof.
  intros H. apply (startswith_outside clean_char "R"%char ["C"%char]);
    [reflexivity|].
  apply Forall_rev. constructor; [reflexivity|].
  apply (Forall_impl _ unsigned_clean H).
Qed.

Lemma parens_taken (f : str) :
  Str.startswith ["("%char] ("("%char :: f ++ [")"%char])
  && Str.endswith [")"%char] ("("%char :: f ++ [")"%char]) = true
  /\ Str.drop_last 1 (skipn 1 ("("%char :: f ++ [")"%char])) = f.
Proof.
  split.
  - apply andb_true_iff. split; [reflexivity|].
    apply (endswith_app [")"%char] ("("%char :: f)).
  - change (skipn 1 ("("%char :: f ++ [")"%char])) with (f ++ [")"%char]).
    apply (drop_last_app f [")"%char]).
Qed.

Lemma clean_amount_parens d :
  all money_char d ->
  clean_amount ("("%char :: d ++ [")"%char]) = "-"%char :: filter keep d.
Proof.
  intros Hd. pose proof (filter_money _ Hd) as Hu.
  unfold clean_amount, amount_noise. rewrite ReFacts.sub_class.
  change (Re.cset_mem _ _) with noise.
  change (filter keep ("("%char :: d ++ [")"%char]))
    with ("("%char :: filter keep (d ++ [")"%char])).
  rewrite filter_app.
  change (filter keep [")"%char]) with [")"%char].
  destruct (parens_taken (filter keep d)) as [Ha Hb].
  cbv zeta. rewrite Ha, Hb.
  rewrite (minus_not_credit _ Hu). reflexivity.
Qed.

Lemma startswith_head (P : ascii -> bool) x t c (s : str) :
  P x = false -> P c = true -> Str.startswith (x :: t) (c :: s) = false.
Proof.
  intros Hx Hc. simpl. destruct (Ascii.eqb_spec x c); [congruence | reflexivity].
Qed.

Lemma clean_amount_credit d :
  all money_char d ->
  clean_amount (d ++ "CR") = "-"%char :: filter keep d.
Proof.
  intros Hd. pose proof (filter_money _ Hd) as Hu.
  unfold clean_amount, amount_noise. rewrite ReFacts.sub_class.
  change (Re.cset_mem _ _) with noise.
  rewrite filter_app.
  change (filter keep (list_ascii_of_string "CR")) with (list_ascii_of_string "CR").
  cbv zeta.
  assert (H1 : Str.startswith ["("%char] (filter keep d ++ "CR") = false).
  { destruct Hu as [|c f Hc _]; [reflexivity|].
    apply (startswith_head unsigned_char); [reflexivity | exact Hc]. }
  rewrite H1. cbn [andb]. rewrite endswith_app.
  pose proof (drop_last_app (filter keep d) "CR") as H2.
  change (length (list_ascii_of_string "CR")) with 2%nat in H2.
  rewrite H2. reflexivity.
Qed.

Lemma parse_amount_negated d v w :
  all money_char d ->
  clean_amount w = "-"%char :: filter keep d ->
  _parse_amount d = Ret v ->
  exists v', _parse_amount w = Ret v' /\ eqb v' (neg v) = true.
Proof.
  intros Hd Hw. pose proof (filter_money _ Hd) as Hu.
  unfold _parse_amount. rewrite Hw.
  rewrite (clean_amount_filtered d (Forall_impl _ unsigned_clean Hu)).
  rewrite (float_minus _ Hu), (float_unsigned _ Hu).
  destruct (decimal (filter keep d)) as [[m e]|].
  - intros H. injection H as <-. eexists. split; [reflexivity|].
    rewrite of_decimal_opp. apply eqb_number, NumberFacts.number_neg.
    exists false. apply of_decimal_sign.
  - intros H. injection H as <-. eexists. split; reflexivity.
Qed.

End MoneyFacts.

Module TrimFacts.

Local Unset Implicit Arguments.

Abbreviation blank := (Forall (fun c : ascii => Str.is_space c = true)).

Lemma lstrip_blank l x : blank l -> Str.lstrip (l ++ x) = Str.lstrip x.
Proof.
  induction 1 as [|c l Hc _ IH]; simpl; [reflexivity|].
  rewrite Hc. exact IH.
Qed.

Lemma lstrip_all_blank l : blank l -> Str.lstrip l = [].
Proof.
  intros H. rewrite <- (app_nil_r l). rewrite (lstrip_blank _ _ H). reflexivity.
Qed.

Lemma rstrip_blank x r : blank r -> Str.rstrip (x ++ r) = Str.rstrip x.
Proof.
  intros H. unfold Str.rstrip.
  rewrite rev_app_distr, (lstrip_blank _ _ (Forall_rev H)). reflexivity.
Qed.

Lemma strip_right s r :
  blank r -> Str.rstrip (Str.lstrip (s ++ r)) = Str.rstrip (Str.lstrip s).
Proof.
  intros H. induction s as [|c s IH]; simpl.
  - rewrite (lstrip_all_blank _ H). reflexivity.
  - destruct (Str.is_space c); [exact IH|].
    change (c :: s ++ r) with ((c :: s) ++ r). apply rstrip_blank, H.
Qed.

(** White space around a text is no part of what [strip] leaves. *)
Lemma strip_blank l s r :
  blank l -> blank r -> Str.strip (l ++ s ++ r) = Str.strip s.
Proof.
  intros Hl Hr. unfold Str.strip. rewrite (lstrip_blank _ _ Hl).
  apply strip_right, Hr.
Qed.

End TrimFacts.

Module OrderFacts.
Import Re LoopFacts StrategyFacts StatementParser.

Local Unset Implicit Arguments.

(** The loop over the matches, in closed form, for a body that raises
    nothing. *)
Lemma for_matches_closed (A : Type) (body : Match -> res (option A)) ms :
  (forall m, exists r, body m = Ret r) ->
  forall acc, for_matches body ms acc = Ret (acc ++ kept body ms).
Proof.
  intros Hb. induction ms as [|m ms IH]; intros acc.
  - simpl. rewrite app_nil_r. reflexivity.
  - cbn [for_matches]. unfold kept. cbn [flat_map].
    destruct (Hb m) as [r Hr]. rewrite Hr. cbn [bind]. rewrite IH.
    destruct r as [t|]; [|reflexivity].
    rewrite <- app_assoc. reflexivity.
Qed.

Lemma first_nonempty_one (A : Type) (l : list A) : first_nonempty [l] = l.
Proof. destruct l; reflexivity. Qed.

Lemma transactions_closed p now doc text :
  extract_full_text doc = Ret text ->
  transactions (StatementParserFactory.parse_with p now doc)
  = first_nonempty
      (map (kept_lines p (infer_year now text) text) (patterns_of p)).
Proof.
  intros H. destruct p; cbn [StatementParserFactory.parse_with patterns_of].
  - unfold ChaseParser.parse. rewrite H. cbn [bind].
    rewrite for_matches_closed by (intros m; apply chase_line_total).
    cbn [map]. rewrite first_nonempty_one. reflexivity.
  - unfold AmexParser.parse. rewrite H. cbn [bind].
    rewrite pattern_loop_first by (intros q; apply amex_scan_total).
    cbn [bind transactions]. f_equal. apply map_ext. intros pat.
    unfold AmexParser.scan.
    rewrite for_matches_closed by (intros m; apply amex_line_total).
    reflexivity.
  - unfold TruistParser.parse. rewrite H. cbn [bind].
    rewrite pattern_loop_first by (intros q; apply truist_scan_total).
    cbn [bind transactions]. f_equal. apply map_ext. intros pat.
    unfold TruistParser.scan.
    rewrite for_matches_closed by (intros m; apply truist_line_total).
    reflexivity.
  - unfold GenericParser.parse. rewrite H. cbn [bind].
    rewrite for_matches_closed by (intros m; apply generic_line_total).
    cbn [map]. rewrite first_nonempty_one. reflexivity.
Qed.

End OrderFacts.

Module FallbackFacts.

Local Unset Implicit Arguments.

(** The label the generic strategy gives to a text that no other
    strategy takes. *)
Lemma guess_when_fallback text :
  StatementParserFactory.select text = StatementParserFactory.Generic ->
  In (GenericParser.guess_institution text) fallback_labels.
Proof.
  unfold StatementParserFactory.select, StatementParserFactory.parsers, find,
    StatementParserFactory.can_parse.
  unfold ChaseParser.can_parse, AmexParser.can_parse, TruistParser.can_parse,
    GenericParser.guess_institution.
  cbv zeta.
  destruct (Str.contains "chase" (Str.lower text)).
  - intros _. left. reflexivity.
  - cbn [andb].
    destruct (Str.contains "american express" (Str.lower text)
              || Str.contains "amex" (Str.lower text)); [discriminate|].
    destruct (Str.contains "truist" (Str.lower text)); [discriminate|].
    intros _. unfold fallback_labels.
    destruct (Str.contains "bank of america" (Str.lower text));
      [right; left; reflexivity|].
    destruct (Str.contains "wells fargo" (Str.lower text));
      [right; right; left; reflexivity|].
    destruct (Str.contains "citi" (Str.lower text));
      [right; right; right; left; reflexivity|].
    destruct (Str.contains "capital one" (Str.lower text));
      [right; right; right; right; left; reflexivity|].
    right; right; right; right; right; left; reflexivity.
Qed.

Lemma fallback_label now pages :
  length pages <= 2 ->
  StatementParserFactory.get_parser (Opened pages) = StatementParserFactory.Generic ->
  In (institution (StatementParserFactory.parse now (Opened pages)))
     fallback_labels.
Proof.
  intros Hlen Hg. unfold StatementParserFactory.parse. rewrite Hg.
  cbn [StatementParserFactory.parse_with].
  destruct (ParseFacts.generic_cases now (Opened pages))
    as [[e ->]|(text & l & Ht & _ & ->)].
  - right; right; right; right; right; left. reflexivity.
  - cbn [institution ok_result].
    apply guess_when_fallback.
    rewrite <- (@DocumentFacts.detection_whole pages text Hlen Ht). exact Hg.
Qed.

Lemma nothing_read doc :
  StatementParserFactory.detection_text doc = [] ->
  StatementParserFactory.get_parser doc = StatementParserFactory.Generic
  /\ forall now e,
       extract_full_text doc = Raise e ->
       StatementParserFactory.parse now doc = failure "Unknown" "unknown" e.
Proof.
  intros H.
  assert (Hg : StatementParserFactory.get_parser doc = StatementParserFactory.Generic)
    by (unfold StatementParserFactory.get_parser; rewrite H; reflexivity).
  split; [exact Hg|]. intros now e He.
  unfold StatementParserFactory.parse. rewrite Hg.
  cbn [StatementParserFactory.parse_with]. unfold GenericParser.parse.
  rewrite He. reflexivity.
Qed.

End FallbackFacts.

(** * Further properties: statements *)

(** X1.  No strategy returns a transaction whose description, in lower
    case, holds one of the keywords of its deny list. *)
Theorem X1_denylisted_lines_dropped :
  forall (p : StatementParserFactory.parser) (now_year : Z) (doc : pdf)
         (t : ExtractedTransaction) (kw : str),
    In t (transactions (StatementParserFactory.parse_with p now_year doc)) ->
    In kw (skip_keywords_of p) ->
    Str.contains kw (Str.lower (merchant t)) = false.
Proof.
  intros p now doc t kw Ht Hkw.
  apply OriginFacts.transaction_origin in Ht.
  destruct Ht as (text & pat & m & _ & _ & _ & Hl).
  apply LineFacts.line_facts in Hl. destruct Hl as (_ & _ & Hs & _).
  unfold Str.any_in in Hs.
  destruct (Str.contains kw (Str.lower (merchant t))) eqn:E; [|reflexivity].
  assert (Hex : existsb (fun k => Str.contains k (Str.lower (merchant t)))
                  (skip_keywords_of p) = true)
    by (apply existsb_exists; eauto).
  congruence.
Qed.

Lemma X1_denylisted_lines_dropped_witness :
  Str.contains "total" (Str.lower (merchant sample_txn)) = false.
Proof.
  apply (X1_denylisted_lines_dropped StatementParserFactory.Chase 2024 sample_doc).
  - vm_compute. left. reflexivity.
  - simpl. left. reflexivity.
Defined.

(** X2.  The description of every transaction is trimmed: white space
    neither begins nor ends it. *)
Theorem X2_merchant_trimmed :
  forall (p : StatementParserFactory.parser) (now_year : Z) (doc : pdf)
         (t : ExtractedTransaction),
    In t (transactions (StatementParserFactory.parse_with p now_year doc)) ->
    trimmed (merchant t).
Proof.
  intros p now doc t Ht. apply OriginFacts.transaction_origin in Ht.
  destruct Ht as (text & pat & m & _ & _ & _ & Hl).
  apply LineFacts.line_facts in Hl. destruct Hl as (_ & -> & _).
  apply StripFacts.strip_trimmed.
Qed.

Lemma X2_merchant_trimmed_witness : trimmed (merchant sample_txn).
Proof.
  apply (X2_merchant_trimmed StatementParserFactory.Chase 2024 sample_doc).
  vm_compute. left. reflexivity.
Defined.

(** X3.  The raw text of every transaction occurs, as it is, in the text
    extracted from the document. *)
Theorem X3_raw_text_in_document :
  forall (p : StatementParserFactory.parser) (now_year : Z) (doc : pdf)
         (text : str) (t : ExtractedTransaction),
    extract_full_text doc = Ret text ->
    In t (transactions (StatementParserFactory.parse_with p now_year doc)) ->
    Str.contains (raw_text t) text = true.
Proof.
  intros p now doc text t Hx Ht. apply OriginFacts.transaction_origin in Ht.
  destruct Ht as (text' & pat & m & Hx' & _ & Hm & Hl).
  rewrite Hx in Hx'. inversion Hx'; subst text'.
  apply LineFacts.line_facts in Hl. destruct Hl as (-> & _).
  eapply OriginFacts.finditer_contains; eauto.
Qed.

Lemma X3_raw_text_in_document_witness :
  Str.contains (raw_text sample_txn)
    ("03/03 PAYMENT THANK YOU -100.00" ++ newline_str) = true.
Proof.
  apply (X3_raw_text_in_document StatementParserFactory.Chase 2024 sample_doc).
  - reflexivity.
  - vm_compute. left. reflexivity.
Defined.

(** X4.  The date of every transaction is a date of the calendar: a year
    from 1 to 9999, a month from 1 to 12, a day the month has in that
    year. *)
Theorem X4_dates_are_calendar_dates :
  forall (p : StatementParserFactory.parser) (now_year : Z) (doc : pdf)
         (t : ExtractedTransaction),
    In t (transactions (StatementParserFactory.parse_with p now_year doc)) ->
    Datetime.valid_date (Datetime.year (date t)) (Datetime.month (date t))
      (Datetime.day (date t)) = true.
Proof.
  intros p now doc t Ht. apply OriginFacts.transaction_origin in Ht.
  destruct Ht as (text & pat & m & _ & _ & _ & Hl).
  apply LineFacts.line_facts in Hl. destruct Hl as (_ & _ & _ & Hd & _).
  eapply ShortDateFacts.parse_date_valid; eauto.
Qed.

Lemma X4_dates_are_calendar_dates_witness :
  Datetime.valid_date (Datetime.year (date sample_txn))
    (Datetime.month (date sample_txn)) (Datetime.day (date sample_txn)) = true.
Proof.
  apply (X4_dates_are_calendar_dates StatementParserFactory.Chase 2024 sample_doc).
  vm_compute. left. reflexivity.
Defined.

(** X5.  The Chase and the Truist strategies read their dates as [MM/DD]:
    every transaction they return is dated in the year inferred from the
    text of the document (the first token 20dd, or else the current
    year), provided the current year is not 0. *)
Theorem X5_month_day_dates_get_inferred_year :
  forall (p : StatementParserFactory.parser) (now_year : Z) (doc : pdf)
         (text : str) (t : ExtractedTransaction),
    month_day_only p = true ->
    now_year <> 0%Z ->
    extract_full_text doc = Ret text ->
    In t (transactions (StatementParserFactory.parse_with p now_year doc)) ->
    Datetime.year (date t) = StatementParser.infer_year now_year text.
Proof.
  intros p now doc text t Hp Hnow Hx Ht.
  apply OriginFacts.transaction_origin in Ht.
  destruct Ht as (text' & pat & m & Hx' & Hpat & Hm & Hl).
  rewrite Hx in Hx'. inversion Hx'; subst text'.
  apply LineFacts.line_facts in Hl. destruct Hl as (_ & _ & _ & Hd & _).
  apply ReFacts.finditer_matched in Hm.
  pose proof (YearFacts.month_day_group _ Hp Hpat Hm) as Hlen.
  pose proof (StripFacts.length_strip (group_str m 1)) as Hs.
  apply ShortDateFacts.short_date in Hd; [|lia].
  apply Hd. destruct (YearFacts.infer_year_range now text) as [->|H]; lia.
Qed.

Lemma X5_month_day_dates_get_inferred_year_witness :
  Datetime.year (date sample_txn)
  = StatementParser.infer_year 2024 ("03/03 PAYMENT THANK YOU -100.00" ++ newline_str).
Proof.
  apply X5_month_day_dates_get_inferred_year
    with (p := StatementParserFactory.Chase) (doc := sample_doc).
  - reflexivity.
  - discriminate.
  - reflexivity.
  - vm_compute. left. reflexivity.
Defined.

(** X6.  The Chase and the Truist strategies never return a transaction
    dated the 29th of February, in a leap year or not: a date without a
    year is first read in the year 1900, which has no such day, and the
    line is dropped. *)
Theorem X6_no_leap_day_for_month_day_dates :
  forall (p : StatementParserFactory.parser) (now_year : Z) (doc : pdf)
         (t : ExtractedTransaction),
    month_day_only p = true ->
    In t (transactions (StatementParserFactory.parse_with p now_year doc)) ->
    ~ (Datetime.month (date t) = 2%Z /\ Datetime.day (date t) = 29%Z).
Proof.
  intros p now doc t Hp Ht.
  apply OriginFacts.transaction_origin in Ht.
  destruct Ht as (text & pat & m & _ & Hpat & Hm & Hl).
  apply LineFacts.line_facts in Hl. destruct Hl as (_ & _ & _ & Hd & _).
  apply ReFacts.finditer_matched in Hm.
  pose proof (YearFacts.month_day_group _ Hp Hpat Hm) as Hlen.
  pose proof (StripFacts.length_strip (group_str m 1)) as Hs.
  apply ShortDateFacts.short_date in Hd; [|lia].
  apply Hd.
Qed.

Lemma X6_no_leap_day_for_month_day_dates_witness :
  ~ (Datetime.month (date sample_txn) = 2%Z /\ Datetime.day (date sample_txn) = 29%Z).
Proof.
  apply (X6_no_leap_day_for_month_day_dates
           StatementParserFactory.Chase 2024 sample_doc).
  - reflexivity.
  - vm_compute. left. reflexivity.
Defined.

(** X7.  The year inferred for a statement is the current year or a year
    from 2000 to 2099. *)
Theorem X7_inferred_year_range :
  forall (now_year : Z) (full_text : str),
    StatementParser.infer_year now_year full_text = now_year
    \/ (2000 <= StatementParser.infer_year now_year full_text <= 2099)%Z.
Proof. exact YearFacts.infer_year_range. Qed.

(** X8.  Each strategy uses its own types only: purchase, payment and
    refund for Chase and American Express; withdrawal and deposit for
    Truist; purchase and credit for the generic strategy. *)
Theorem X8_types_of_each_strategy :
  forall (p : StatementParserFactory.parser) (now_year : Z) (doc : pdf)
         (t : ExtractedTransaction),
    In t (transactions (StatementParserFactory.parse_with p now_year doc)) ->
    In (trans_type t) (types_of p).
Proof.
  intros p now doc t Ht. apply OriginFacts.transaction_origin in Ht.
  destruct Ht as (text & pat & m & _ & _ & _ & Hl).
  apply LineFacts.line_facts in Hl. apply Hl.
Qed.

Lemma X8_types_of_each_strategy_witness :
  In (trans_type sample_txn) (types_of StatementParserFactory.Chase).
Proof.
  apply (X8_types_of_each_strategy StatementParserFactory.Chase 2024 sample_doc).
  vm_compute. left. reflexivity.
Defined.

(** X9.  No amount of a transaction is a NaN. *)
Theorem X9_amounts_are_numbers :
  forall (p : StatementParserFactory.parser) (now_year : Z) (doc : pdf)
         (t : ExtractedTransaction),
    In t (transactions (StatementParserFactory.parse_with p now_year doc)) ->
    is_number (amount t).
Proof.
  intros p now doc t Ht. apply OriginFacts.transaction_origin in Ht.
  destruct Ht as (text & pat & m & _ & Hpat & Hm & Hl).
  apply ReFacts.finditer_matched in Hm.
  eapply NumberFacts.line_amount_number; eauto.
Qed.

Lemma X9_amounts_are_numbers_witness : is_number (amount sample_txn).
Proof.
  apply (X9_amounts_are_numbers StatementParserFactory.Chase 2024 sample_doc).
  vm_compute. left. reflexivity.
Defined.

(** X10.  A strategy succeeds, without a message, on every document whose
    text can be extracted; it fails exactly when the extraction raises,
    and then the message is that of the exception.  No line of a
    readable statement makes a parse fail. *)
Theorem X10_parse_succeeds_on_readable_documents :
  forall (p : StatementParserFactory.parser) (now_year : Z) (doc : pdf),
    match extract_full_text doc with
    | Ret _ =>
        success (StatementParserFactory.parse_with p now_year doc) = true
        /\ error_message (StatementParserFactory.parse_with p now_year doc) = None
    | Raise e =>
        success (StatementParserFactory.parse_with p now_year doc) = false
        /\ error_message (StatementParserFactory.parse_with p now_year doc)
           = Some (exn_str e)
    end.
Proof. exact DocumentFacts.parse_outcome. Qed.

(** X11.  When nothing could be read from the first two pages, the
    selector takes the generic strategy; if the document cannot be
    extracted either, the result is the failure of that strategy, with
    the institution "Unknown" and the account type "unknown". *)
Theorem X11_nothing_read_goes_to_fallback :
  forall doc : pdf,
    StatementParserFactory.detection_text doc = [] ->
    StatementParserFactory.get_parser doc = StatementParserFactory.Generic
    /\ forall (now_year : Z) (e : exn),
         extract_full_text doc = Raise e ->
         StatementParserFactory.parse now_year doc
         = failure "Unknown" "unknown" e.
Proof. exact FallbackFacts.nothing_read. Qed.

Lemma X11_nothing_read_goes_to_fallback_witness :
  StatementParserFactory.get_parser (Unreadable "not a PDF")
  = StatementParserFactory.Generic
  /\ forall (now_year : Z) (e : exn),
       extract_full_text (Unreadable "not a PDF") = Raise e ->
       StatementParserFactory.parse now_year (Unreadable "not a PDF")
       = failure "Unknown" "unknown" e.
Proof.
  apply (@X11_nothing_read_goes_to_fallback (Unreadable "not a PDF")).
  reflexivity.
Defined.

(** X12.  The text the selector looks at is a prefix of the text the
    strategies scan, and the whole of it for a document of at most two
    pages. *)
Theorem X12_detection_text_begins_full_text :
  forall (doc : pdf) (text : str),
    extract_full_text doc = Ret text ->
    (exists rest, text = StatementParserFactory.detection_text doc ++ rest)
    /\ (forall pages,
          doc = Opened pages -> length pages <= 2 ->
          StatementParserFactory.detection_text doc = text).
Proof.
  intros doc text H. split.
  - apply DocumentFacts.detection_prefix, H.
  - intros pages -> Hlen. apply (@DocumentFacts.detection_whole pages text Hlen H).
Qed.

Lemma X12_detection_text_begins_full_text_witness :
  (exists rest,
      ("03/03 PAYMENT THANK YOU -100.00" ++ newline_str : str)
      = StatementParserFactory.detection_text sample_doc ++ rest)
  /\ (forall pages,
        sample_doc = Opened pages -> length pages <= 2 ->
        StatementParserFactory.detection_text sample_doc
        = "03/03 PAYMENT THANK YOU -100.00" ++ newline_str).
Proof.
  apply (@X12_detection_text_begins_full_text sample_doc). reflexivity.
Defined.

(** X13.  For a document of at most two pages that the selector gives to
    the generic strategy, the institution of the result is "Chase",
    "Bank of America", "Wells Fargo", "Citi", "Capital One" or
    "Unknown": never "American Express", never "Truist". *)
Theorem X13_fallback_institutions :
  forall (now_year : Z) (pages : list page),
    length pages <= 2 ->
    StatementParserFactory.get_parser (Opened pages)
    = StatementParserFactory.Generic ->
    In (institution (StatementParserFactory.parse now_year (Opened pages)))
       fallback_labels.
Proof. exact FallbackFacts.fallback_label. Qed.

Lemma X13_fallback_institutions_witness :
  In (institution
        (StatementParserFactory.parse 2024
           (Opened [Extracted (Some ("Wells Fargo statement" : str))])))
     fallback_labels.
Proof.
  apply (@X13_fallback_institutions 2024
           [Extracted (Some ("Wells Fargo statement" : str))]).
  - simpl. lia.
  - vm_compute. reflexivity.
Defined.

(** X14.  The text of every page is kept in the text extracted from the
    document. *)
Theorem X14_page_text_in_full_text :
  forall (pages : list page) (text t : str),
    extract_full_text (Opened pages) = Ret text ->
    In (Extracted (Some t)) pages ->
    Str.contains t text = true.
Proof. exact DocumentFacts.page_text_kept. Qed.

Lemma X14_page_text_in_full_text_witness :
  Str.contains ("page two" : str)
    (("page one" ++ newline_str) ++ "page two" ++ newline_str) = true.
Proof.
  apply (@X14_page_text_in_full_text
           [Extracted (Some ("page one" : str)); Extracted None;
            Extracted (Some ("page two" : str))]).
  - reflexivity.
  - simpl. right. right. left. reflexivity.
Defined.

(** X15.  The account identifier of a result, when there is one, is made
    of four decimal digits. *)
Theorem X15_account_identifier_is_four_digits :
  forall (p : StatementParserFactory.parser) (now_year : Z) (doc : pdf)
         (ident : str),
    account_identifier (StatementParserFactory.parse_with p now_year doc)
    = Some ident ->
    yyyy ident = true.
Proof. exact AccountFacts.account_digits. Qed.

Lemma X15_account_identifier_is_four_digits_witness :
  yyyy ("2345" : str) = true.
Proof.
  apply (@X15_account_identifier_is_four_digits StatementParserFactory.Amex 2025
           (Opened [Extracted (Some ("Card Ending 12345" : str))])).
  vm_compute. reflexivity.
Defined.

(** X16.  The income flag the upload route computes for a transaction of
    a result: it is never set for a transaction of the Chase or of the
    American Express strategy; for one of the Truist or of the generic
    strategy it is set exactly when the amount is below zero. *)
Theorem X16_income_flag :
  forall (p : StatementParserFactory.parser) (now_year : Z) (doc : pdf)
         (t : ExtractedTransaction),
    In t (transactions (StatementParserFactory.parse_with p now_year doc)) ->
    App.is_income t = flags_income p && PyFloat.ltb (amount t) PyFloat.zero.
Proof. exact IncomeFacts.income_flag. Qed.

Lemma X16_income_flag_witness :
  App.is_income sample_txn
  = flags_income StatementParserFactory.Chase
    && PyFloat.ltb (amount sample_txn) PyFloat.zero.
Proof.
  apply (@X16_income_flag StatementParserFactory.Chase 2024 sample_doc).
  vm_compute. left. reflexivity.
Defined.

(** X17.  The upload route accepts a file name exactly when it ends with
    a point followed by "pdf", in any mix of upper and lower case. *)
Theorem X17_allowed_file_names :
  forall filename : str,
    App.allowed_file filename = true
    <-> exists base ext,
          filename = base ++ "."%char :: ext /\ Str.lower ext = ("pdf" : str).
Proof. exact UploadFacts.allowed_file_spec. Qed.

(** X18.  A currency sign, a comma or a white-space character, wherever
    it stands in the text, does not change the amount. *)
Theorem X18_amount_ignores_separators :
  forall (a b : str) (c : ascii),
    noise c = true ->
    StatementParser._parse_amount (a ++ c :: b)
    = StatementParser._parse_amount (a ++ b).
Proof.
  intros a b c Hc. apply MoneyFacts.parse_amount_filter.
  rewrite !filter_app. cbn [filter]. rewrite Hc. reflexivity.
Qed.

Lemma X18_amount_ignores_separators_witness :
  StatementParser._parse_amount ("1" ++ ","%char :: "234.56")
  = StatementParser._parse_amount ("1" ++ "234.56").
Proof.
  apply (@X18_amount_ignores_separators "1" "234.56" ","%char). reflexivity.
Defined.



(** X20.  Parentheses around an unsigned amount, and the suffix CR after
    it, negate it: the amount of "(d)" and of "dCR" equals minus the
    amount of "d", for a text d of digits, points, commas, currency signs
    and white space. *)
Theorem X20_parentheses_and_credit_negate :
  forall (d : str) (v : spec_float),
    Forall (fun c => money_char c = true) d ->
    StatementParser._parse_amount d = Ret v ->
    (exists v',
        StatementParser._parse_amount ("("%char :: d ++ [")"%char]) = Ret v'
        /\ PyFloat.eqb v' (PyFloat.neg v) = true)
    /\ (exists v',
           StatementParser._parse_amount (d ++ "CR") = Ret v'
           /\ PyFloat.eqb v' (PyFloat.neg v) = true).
Proof.
  intros d v Hd Hv. split.
  - apply (MoneyFacts.parse_amount_negated d v _ Hd
             (MoneyFacts.clean_amount_parens d Hd) Hv).
  - apply (MoneyFacts.parse_amount_negated d v _ Hd
             (MoneyFacts.clean_amount_credit d Hd) Hv).
Qed.

Lemma X20_parentheses_and_credit_negate_witness :
  (exists v',
      StatementParser._parse_amount ("("%char :: "12.00" ++ [")"%char]) = Ret v'
      /\ PyFloat.eqb v' (PyFloat.neg (PyFloat.literal 1200 (-2))) = true)
  /\ (exists v',
         StatementParser._parse_amount ("12.00" ++ "CR") = Ret v'
         /\ PyFloat.eqb v' (PyFloat.neg (PyFloat.literal 1200 (-2))) = true).
Proof.
  apply (@X20_parentheses_and_credit_negate "12.00" (PyFloat.literal 1200 (-2))).
  - repeat constructor.
  - vm_compute. reflexivity.
Defined.

(** X21.  White space before and after a date text does not change what
    [_parse_date] returns. *)
Theorem X21_date_ignores_outer_white_space :
  forall (l s r : str) (year : option Z),
    Forall (fun c => Str.is_space c = true) l ->
    Forall (fun c => Str.is_space c = true) r ->
    StatementParser._parse_date (l ++ s ++ r) year
    = StatementParser._parse_date s year.
Proof.
  intros l s r year Hl Hr. unfold StatementParser._parse_date.
  rewrite (TrimFacts.strip_blank l s r Hl Hr). reflexivity.
Qed.

Lemma X21_date_ignores_outer_white_space_witness :
  StatementParser._parse_date (" " ++ "03/15" ++ "  ") (Some 2024%Z)
  = StatementParser._parse_date "03/15" (Some 2024%Z).
Proof.
  apply (@X21_date_ignores_outer_white_space " " "03/15" "  " (Some 2024%Z));
    repeat constructor.
Defined.

(** X22.  On a readable document the transactions of a result are, in
    the order of the text, those the body of the loop keeps at the
    matches of one pattern: the first pattern of the strategy, in the
    order of its list, at which any is kept. *)
Theorem X22_transactions_in_document_order :
  forall (p : StatementParserFactory.parser) (now_year : Z) (doc : pdf)
         (text : str),
    extract_full_text doc = Ret text ->
    transactions (StatementParserFactory.parse_with p now_year doc)
    = first_nonempty
        (map (kept_lines p (StatementParser.infer_year now_year text) text)
           (patterns_of p)).
Proof. exact OrderFacts.transactions_closed. Qed.

Lemma X22_transactions_in_document_order_witness :
  transactions (StatementParserFactory.parse_with StatementParserFactory.Chase
                  2024 sample_doc)
  = first_nonempty
      (map (kept_lines StatementParserFactory.Chase
              (StatementParser.infer_year 2024
                 ("03/03 PAYMENT THANK YOU -100.00" ++ newline_str))
              ("03/03 PAYMENT THANK YOU -100.00" ++ newline_str))
         (patterns_of StatementParserFactory.Chase)).
Proof.
  apply (@X22_transactions_in_document_order StatementParserFactory.Chase 2024
           sample_doc).
  reflexivity.
Defined.
